(** * pysotropy: the session protocol and the tabular output parser

    A shallow embedding of [src/pysotropy/core.py]: the line reader
    ([read_iso_line]), the remote state mirror ([Shows], [Values]), the
    session life cycle ([sendCommand], [__init__], [restart_session]) and the
    tabular output parser ([detect_column_indexes], [split_line_by_indexes],
    [detect_multirows_and_split], [detect_data_form_and_convert],
    [_parse_output]).

    Python [str] is modelled by [string]; a character is a code point below
    256.  Commands are written with [bytes(command + "\n", "ascii")], so the
    text exchanged with the engine is 7-bit; [isspace] follows
    [str.isspace] on the whole range and [upper] follows [str.upper] on the
    7-bit range. *)

From Stdlib Require Import Bool Arith Lia List Ascii String.
Import ListNotations.

Local Open Scope string_scope.
Local Open Scope list_scope.
Local Open Scope nat_scope.

(** ** Exceptions and results *)

(** The exception classes the modelled code raises or catches. *)
Inductive exn : Type :=
| KeyError
| ValueError
| IndexError
| UnboundLocalError
| RecursionError
| BrokenPipeError
| IsotropyBombedException
| IsotropyBasisException
| IsotropySubgroupException.

(** Two exceptions are of the same class. *)
Definition exn_eqb (a b : exn) : bool :=
  match a, b with
  | KeyError, KeyError | ValueError, ValueError | IndexError, IndexError
  | UnboundLocalError, UnboundLocalError | RecursionError, RecursionError
  | BrokenPipeError, BrokenPipeError
  | IsotropyBombedException, IsotropyBombedException
  | IsotropyBasisException, IsotropyBasisException
  | IsotropySubgroupException, IsotropySubgroupException => true
  | _, _ => false
  end.

(** A computation either returns or raises. *)
Inductive outcome (A : Type) : Type :=
| Ok (a : A)
| Raise (e : exn).

Arguments Ok {A} a.
Arguments Raise {A} e.

(** Sequencing: an exception ends the computation. *)
Definition bind {A B : Type} (m : outcome A) (k : A -> outcome B) : outcome B :=
  match m with
  | Ok a => k a
  | Raise e => Raise e
  end.

Declare Scope py_scope.
Delimit Scope py_scope with py.
Notation "x <- m ;; k" := (bind m (fun x => k))
  (at level 61, m at next level, right associativity) : py_scope.
Notation "m ;;; k" := (bind m (fun _ => k))
  (at level 61, right associativity) : py_scope.
Local Open Scope py_scope.

(** [[f(x) for x in l]]: the first exception raised ends the comprehension. *)
Fixpoint mapM {A B : Type} (f : A -> outcome B) (l : list A) : outcome (list B) :=
  match l with
  | [] => Ok []
  | x :: xs => y <- f x ;; ys <- mapM f xs ;; Ok (y :: ys)
  end.

(** [l[i]] on a list, for a non-negative index. *)
Definition index {A : Type} (l : list A) (i : nat) : outcome A :=
  match nth_error l i with
  | Some a => Ok a
  | None => Raise IndexError
  end.

(** ** Strings *)

(** [str.isspace] on one character: TAB to CR, FS to US, the space, NEL and
    the no-break space. *)
Definition isspace (c : ascii) : bool :=
  let n := nat_of_ascii c in
  ((9 <=? n) && (n <=? 13)) || ((28 <=? n) && (n <=? 32))
  || (n =? 133) || (n =? 160).

(** The character [\n]. *)
Definition newline : ascii := ascii_of_nat 10.

(** The truth value of a string: [bool(s)]. *)
Definition truthy (s : string) : bool :=
  match s with
  | EmptyString => false
  | String _ _ => true
  end.

(** [s.lstrip()] *)
Fixpoint lstrip (s : string) : string :=
  match s with
  | EmptyString => EmptyString
  | String c r => if isspace c then lstrip r else s
  end.

(** [s.rstrip()] *)
Fixpoint rstrip (s : string) : string :=
  match s with
  | EmptyString => EmptyString
  | String c r =>
      match rstrip r with
      | EmptyString => if isspace c then EmptyString else String c EmptyString
      | r' => String c r'
      end
  end.

(** [s.strip()] *)
Definition strip (s : string) : string := lstrip (rstrip s).

(** [s.rstrip('\n')] *)
Fixpoint rstrip_newline (s : string) : string :=
  match s with
  | EmptyString => EmptyString
  | String c r =>
      match rstrip_newline r with
      | EmptyString =>
          if Ascii.eqb c newline then EmptyString else String c EmptyString
      | r' => String c r'
      end
  end.

(** [s[i:]] for [0 <= i]. *)
Fixpoint drop (i : nat) (s : string) : string :=
  match i, s with
  | O, _ => s
  | S _, EmptyString => EmptyString
  | S i', String _ r => drop i' r
  end.

(** [s[:n]] for [0 <= n]. *)
Fixpoint take (n : nat) (s : string) : string :=
  match n, s with
  | O, _ => EmptyString
  | S _, EmptyString => EmptyString
  | S n', String c r => String c (take n' r)
  end.

(** [s[i1:i2]] for [0 <= i1] and [0 <= i2]; empty when [i2 <= i1]. *)
Definition slice (i1 i2 : nat) (s : string) : string :=
  take (i2 - i1) (drop i1 s).

(** Push a character on the first string of a list of pieces. *)
Definition push (c : ascii) (ps : list string) : list string :=
  match ps with
  | [] => [String c EmptyString]
  | p :: ps' => String c p :: ps'
  end.

(** [s] starts with a character that is not whitespace. *)
Definition starts_word (s : string) : bool :=
  match s with
  | EmptyString => false
  | String c _ => negb (isspace c)
  end.

(** [s.split()]: the maximal runs of non-whitespace characters. *)
Fixpoint str_split (s : string) : list string :=
  match s with
  | EmptyString => []
  | String c r =>
      if isspace c then str_split r
      else if starts_word r then push c (str_split r)
      else String c EmptyString :: str_split r
  end.

(** ** Regular expressions of the parser *)

(** The lookahead body [[^()]*\)] matched at the start of [s]: the first
    parenthesis of [s] is a closing one. *)
Fixpoint closes_paren (s : string) : bool :=
  match s with
  | EmptyString => false
  | String c r =>
      if Ascii.eqb c ")" then true
      else if Ascii.eqb c "(" then false
      else closes_paren r
  end.

(** [re.split(r'[d]\s*(?![^()]*\))', s)] for a delimiter [d] that is not
    whitespace.  A match starts at a [d], takes the whitespace that follows
    (greedy [\s*]) and needs the negative lookahead to hold there.  [skip]
    says that the previous character belongs to a match, so that whitespace
    here is still part of it. *)
Fixpoint re_split_from (d : ascii) (skip : bool) (s : string) : list string :=
  match s with
  | EmptyString => [EmptyString]
  | String c r =>
      if skip && isspace c then re_split_from d true r
      else if Ascii.eqb c d && negb (closes_paren (lstrip r))
      then EmptyString :: re_split_from d true r
      else push c (re_split_from d false r)
  end.

(** The split of the whole string: no match is under way at its start. *)
Definition re_split (d : ascii) (s : string) : list string :=
  re_split_from d false s.

(** [.*\)$] matched at the start of [s]: no newline up to a closing
    parenthesis that ends the string, or that stands before its last
    newline. *)
Fixpoint ends_close (s : string) : bool :=
  match s with
  | EmptyString => false
  | String c r =>
      (Ascii.eqb c ")"
       && (String.eqb r EmptyString || String.eqb r (String newline EmptyString)))
      || (negb (Ascii.eqb c newline) && ends_close r)
  end.

(** [re.match(r'^\s*\(.*\)$', s)] as a truth value. *)
Definition paren_match (s : string) : bool :=
  match lstrip s with
  | String c r => Ascii.eqb c "(" && ends_close r
  | EmptyString => false
  end.

(** [.*?\)] after the first character of a group: the text up to the first
    closing parenthesis, which no newline may precede. *)
Fixpoint until_close (s : string) : option string :=
  match s with
  | EmptyString => None
  | String c r =>
      if Ascii.eqb c ")" then Some EmptyString
      else if Ascii.eqb c newline then None
      else option_map (String c) (until_close r)
  end.

(** [(.+?)\)] after an opening parenthesis: one character that is not a
    newline, then the shortest text that reaches a closing parenthesis. *)
Definition paren_group (s : string) : option string :=
  match s with
  | EmptyString => None
  | String c r =>
      if Ascii.eqb c newline then None
      else option_map (String c) (until_close r)
  end.

(** [re.findall(r'\((.+?)\)', s)]: the groups of the matches, from left to
    right, without overlap.  [skip] counts the characters that still belong
    to the previous match. *)
Fixpoint findall_from (skip : nat) (s : string) : list string :=
  match s with
  | EmptyString => []
  | String c r =>
      match skip with
      | S k => findall_from k r
      | O =>
          if Ascii.eqb c "(" then
            match paren_group r with
            | Some g => g :: findall_from (S (String.length g)) r
            | None => findall_from 0 r
            end
          else findall_from 0 r
      end
  end.

(** The groups of the whole string. *)
Definition findall_paren (s : string) : list string := findall_from 0 s.

(** ** Values and records *)

(** What a table cell holds: a [str], or a [list] of such values. *)
#[warnings="-register-all"]
Inductive value : Type :=
| Str (s : string)
| List (l : list value).

(** A [dict] with [str] keys, in insertion order; no key occurs twice. *)
Definition pydict (V : Type) : Type := list (string * V).

(** [k in d] *)
Fixpoint dict_mem {V : Type} (k : string) (d : pydict V) : bool :=
  match d with
  | [] => false
  | (k', _) :: d' => String.eqb k k' || dict_mem k d'
  end.

(** [d[k]] *)
Fixpoint dict_get {V : Type} (k : string) (d : pydict V) : outcome V :=
  match d with
  | [] => Raise KeyError
  | (k', v) :: d' => if String.eqb k k' then Ok v else dict_get k d'
  end.

(** [d[k] = v]: a known key keeps its place, a new one goes last. *)
Fixpoint dict_set {V : Type} (k : string) (v : V) (d : pydict V) : pydict V :=
  match d with
  | [] => [(k, v)]
  | (k', v') :: d' =>
      if String.eqb k k' then (k, v) :: d' else (k', v') :: dict_set k v d'
  end.

(** [del d[k]] *)
Fixpoint dict_del {V : Type} (k : string) (d : pydict V) : outcome (pydict V) :=
  match d with
  | [] => Raise KeyError
  | (k', v') :: d' =>
      if String.eqb k k' then Ok d'
      else d'' <- dict_del k d' ;; Ok ((k', v') :: d'')
  end.

(** A parsed row: header names to cell values. *)
Definition dict : Type := pydict value.

(** ** Tabular output parser *)

(** [line[i]] for [i] below the length of [line]. *)
Definition char_at (i : nat) (line : string) : ascii :=
  match String.get i line with
  | Some c => c
  | None => zero
  end.

(** The number of columns that [zip] makes of the unpacked lines: the
    length of the shortest line, and none for no line at all. *)
Definition zip_width (list_of_lines : list string) : nat :=
  match list_of_lines with
  | [] => 0
  | l :: ls => fold_left Nat.min (map String.length ls) (String.length l)
  end.

(** [zip] of the unpacked lines: the character columns of the block. *)
Definition zip_star (list_of_lines : list string) : list (list ascii) :=
  map (fun i => map (char_at i) list_of_lines)
      (seq 0 (zip_width list_of_lines)).

(** [col.count(' ')] *)
Definition count_space (col : list ascii) : nat :=
  List.length (filter (fun c => Ascii.eqb c " ") col).

(** The loop of [detect_column_indexes] over [enumerate(transitions)],
    from index [i] on. *)
Fixpoint indexes_loop (header : string) (i : nat) (last : bool)
    (transitions : list bool) (indexes : list nat) : list nat :=
  match transitions with
  | [] => indexes
  | x :: rest =>
      indexes_loop header (S i) x rest
        (if negb x && last && negb (Ascii.eqb (char_at i header) " ")
         then indexes ++ [i] else indexes)
  end.

(** [transitions]: for each column, whether its count of spaces is the
    number of lines. *)
Definition transitions_of (list_of_lines : list string) : list bool :=
  map (fun col => count_space col =? List.length list_of_lines)
      (zip_star list_of_lines).

(** [detect_column_indexes], core.py lines 345-362. *)
Definition detect_column_indexes (list_of_lines : list string) : list nat :=
  indexes_loop (hd EmptyString list_of_lines) 0 false
    (transitions_of list_of_lines) [0].

(** The loop of [split_line_by_indexes] over the pairs
    [zip(indexes[:-1], indexes[1:])], then the last field. *)
Fixpoint tokens_from (i1 : nat) (rest : list nat) (line : string)
    : list string :=
  match rest with
  | [] => [rstrip (drop i1 line)]
  | i2 :: rest' => rstrip (slice i1 i2 line) :: tokens_from i2 rest' line
  end.

(** [split_line_by_indexes], core.py lines 364-369; [indexes[-1]] raises
    on an empty list. *)
Definition split_line_by_indexes (indexes : list nat) (line : string)
    : outcome (list string) :=
  match indexes with
  | [] => Raise IndexError
  | i1 :: rest => Ok (tokens_from i1 rest line)
  end.

(** Reading the local variable [result], unbound before its first
    assignment. *)
Definition load (cur : option dict) : outcome dict :=
  match cur with
  | Some r => Ok r
  | None => Raise UnboundLocalError
  end.

(** One turn of [for j, prop in enumerate(row)]; [row0] is the truth value
    of [row[0]] and [cur] the dict that [result] names, if any. *)
Definition cell_step (header : list string) (row0 : bool)
    (cur : option dict) (j : nat) (prop : string) : outcome (option dict) :=
  if row0 then
    r <- load cur ;;
    h <- index header j ;;
    Ok (Some (dict_set h (Str prop) r))
  else if truthy prop then
    r <- load cur ;;
    h <- index header j ;;
    v <- dict_get h r ;;
    match v with
    | List l => Ok (Some (dict_set h (List (l ++ [Str prop])) r))
    | Str _ => Ok (Some (dict_set h (List [v; Str prop]) r))
    end
  else Ok cur.

(** [for j, prop in enumerate(row)], from index [j] on. *)
Fixpoint cells_loop (header : list string) (row0 : bool)
    (cur : option dict) (j : nat) (row : list string)
    : outcome (option dict) :=
  match row with
  | [] => Ok cur
  | prop :: rest =>
      cur' <- cell_step header row0 cur j prop ;;
      cells_loop header row0 cur' (S j) rest
  end.

(** The state of the loop over the rows.  [result_list] always ends with
    the very dict that [result] names, and that dict is updated in place:
    the state keeps the finished records in [done] and the shared one in
    [current], so that [result_list] is [done ++ [current]]. *)
Record rows_state : Type := mk_rows
  { done : list dict;
    current : option dict }.

(** The list that the source returns, as the state stands. *)
Definition result_list (st : rows_state) : list dict :=
  done st ++ match current st with Some r => [r] | None => [] end.

(** One turn of [for row in split_lines[1:]]. *)
Definition row_step (header : list string) (st : rows_state)
    (row : list string) : outcome rows_state :=
  r0 <- index row 0 ;;
  let st' := if truthy r0 then mk_rows (result_list st) (Some []) else st in
  cur' <- cells_loop header (truthy r0) (current st') 0 row ;;
  Ok (mk_rows (done st') cur').

(** [for row in split_lines[1:]] *)
Fixpoint rows_loop (header : list string) (st : rows_state)
    (rows : list (list string)) : outcome rows_state :=
  match rows with
  | [] => Ok st
  | row :: rest => st' <- row_step header st row ;; rows_loop header st' rest
  end.

(** [detect_multirows_and_split], core.py lines 329-343; no line at all
    gives no record, since [split_lines[1:]] is then empty. *)
Definition detect_multirows_and_split (split_lines : list (list string))
    : outcome (list dict) :=
  match split_lines with
  | [] => Ok []
  | header :: rows =>
      st <- rows_loop header (mk_rows [] None) rows ;;
      Ok (result_list st)
  end.

(** The body of [detect_data_form_and_convert]; [self] stands for the
    function where it calls itself. *)
Definition convert_body (self : value -> outcome value) (prop : value)
    : outcome value :=
  match prop with
  | List l => l' <- mapM self l ;; Ok (List l')
  | Str s =>
      let pipe_split_list := re_split "|" s in
      if 1 <? List.length pipe_split_list
      then self (List (map Str pipe_split_list))
      else
      let comma_split_list := re_split "," s in
      if 1 <? List.length comma_split_list
      then self (List (map Str comma_split_list))
      else
      if paren_match s then
        let surrounded_by_paren_list := findall_paren s in
        if 1 <? List.length surrounded_by_paren_list
        then self (List (map Str surrounded_by_paren_list))
        else g <- index surrounded_by_paren_list 0 ;; self (Str g)
      else
      let space_split_list := str_split s in
      if 1 <? List.length space_split_list
      then self (List (map Str space_split_list))
      else Ok (Str (strip s))
  end.

(** [detect_data_form_and_convert] with a bound on the depth of its
    recursion. *)
Fixpoint convert (depth : nat) (prop : value) : outcome value :=
  match depth with
  | O => Raise RecursionError
  | S n => convert_body (convert n) prop
  end.

(** A depth that the recursion on [prop] never reaches: a string gives
    strictly shorter strings, through at most one list. *)
Fixpoint depth_bound (prop : value) : nat :=
  match prop with
  | Str s => 2 * String.length s + 1
  | List l => S (fold_right (fun p acc => Nat.max (depth_bound p) acc) 0 l)
  end.

(** [detect_data_form_and_convert], core.py lines 299-327. *)
Definition detect_data_form_and_convert (prop : value) : outcome value :=
  convert (depth_bound prop) prop.

(** [{key: detect_data_form_and_convert(prop) for key, prop in
    result.items()}]; the keys of [result] are distinct, so the new dict has
    the same keys in the same order. *)
Definition convert_record (result : dict) : outcome dict :=
  mapM (fun kv => v <- detect_data_form_and_convert (snd kv) ;; Ok (fst kv, v))
       result.

(** [IsotropySession._parse_output], core.py lines 290-296. *)
Definition _parse_output (lines : list string) : outcome (list dict) :=
  let indexes := detect_column_indexes lines in
  split_by_ind <- mapM (split_line_by_indexes indexes) lines ;;
  records <- detect_multirows_and_split split_by_ind ;;
  mapM convert_record records.

(** ** The engine process and the session *)

(** [c.upper()] on the 7-bit range. *)
Definition upper_char (c : ascii) : ascii :=
  let n := nat_of_ascii c in
  if (97 <=? n) && (n <=? 122) then ascii_of_nat (n - 32) else c.

(** [s.upper()] *)
Fixpoint upper (s : string) : string :=
  match s with
  | EmptyString => EmptyString
  | String c r => String (upper_char c) (upper r)
  end.

(** The engine as the session sees it.  [stdout] lists what the coming
    calls of [readline().decode()] return, the empty string when the engine
    has not answered in time; once the list is used up the engine stays
    silent.  [stdin] lists what was written, oldest first.  [broken] says
    that the pipe is closed, so that writing raises. *)
Record process : Type := mk_process
  { stdout : list string;
    stdin : list string;
    broken : bool;
    killed : bool }.

(** An [IsotropySession]: the process it holds, the setting list and the
    two mirrors, [Values._vals] and [Shows._shows].  The set of shows is
    listed in the order in which it is iterated. *)
Record session : Type := mk_session
  { iso_process : process;
    setting : list string;
    values : pydict string;
    shows : list string }.

(** Code that runs on a session: it returns or raises, and leaves a
    session behind in both cases. *)
Definition M (A : Type) : Type := session -> outcome A * session.

(** Returning, raising and sequencing on a session. *)
Definition ret {A : Type} (a : A) : M A := fun self => (Ok a, self).

Definition raise {A : Type} (e : exn) : M A := fun self => (Raise e, self).

Definition mbind {A B : Type} (m : M A) (k : A -> M B) : M B :=
  fun self =>
    match m self with
    | (Ok a, self') => k a self'
    | (Raise e, self') => (Raise e, self')
    end.

Declare Scope session_scope.
Delimit Scope session_scope with session.
Notation "x <- m ;; k" := (mbind m (fun x => k))
  (at level 61, m at next level, right associativity) : session_scope.
Notation "m ;;; k" := (mbind m (fun _ => k))
  (at level 61, right associativity) : session_scope.
Local Open Scope session_scope.

(** [try: body except cls: handler] on a session: only an exception of
    class [cls] is caught, any other one propagates. *)
Definition try_catch {A : Type} (body : M A) (cls : exn) (handler : M A)
    : M A :=
  fun self =>
    match body self with
    | (Ok a, self') => (Ok a, self')
    | (Raise e, self') =>
        if exn_eqb e cls then handler self' else (Raise e, self')
    end.

(** A result of plain code, taken on a session. *)
Definition lift {A : Type} (r : outcome A) : M A := fun self => (r, self).

(** [for x in l: body(x)] *)
Fixpoint for_each {A : Type} (l : list A) (body : A -> M unit) : M unit :=
  match l with
  | [] => ret tt
  | x :: xs => body x ;;; for_each xs body
  end.

(** Assignments to the attributes of the session. *)
Definition set_process (p : process) : M unit :=
  fun self => (Ok tt, mk_session p (setting self) (values self) (shows self)).

Definition set_setting (l : list string) : M unit :=
  fun self => (Ok tt, mk_session (iso_process self) l (values self) (shows self)).

Definition set_values (d : pydict string) : M unit :=
  fun self => (Ok tt, mk_session (iso_process self) (setting self) d (shows self)).

Definition set_shows (l : list string) : M unit :=
  fun self => (Ok tt, mk_session (iso_process self) (setting self) (values self) l).

(** [self.iso_process.stdout.readline().decode()] *)
Definition readline : M string :=
  fun self =>
    let p := iso_process self in
    match stdout p with
    | [] => (Ok EmptyString, self)
    | raw :: rest =>
        (Ok raw,
         mk_session (mk_process rest (stdin p) (broken p) (killed p))
           (setting self) (values self) (shows self))
    end.

(** [self.iso_process.stdin.write(bytes(text, "ascii"))], then [flush()]. *)
Definition write (text : string) : M unit :=
  fun self =>
    let p := iso_process self in
    if broken p then (Raise BrokenPipeError, self)
    else
      (Ok tt,
       mk_session (mk_process (stdout p) (stdin p ++ [text]) (broken p) (killed p))
         (setting self) (values self) (shows self)).

(** One element of a failure signature: a character, or [\s]. *)
Inductive atom : Type :=
| Lit (c : ascii)
| Blank.

(** The character [c] is what the element [a] asks for. *)
Definition atom_ok (a : atom) (c : ascii) : bool :=
  match a with
  | Lit c' => Ascii.eqb c c'
  | Blank => isspace c
  end.

(** The signature whose words are those of [text] and whose separators are
    all [\s]. *)
Fixpoint phrase (text : string) : list atom :=
  match text with
  | EmptyString => []
  | String c r => (if Ascii.eqb c " " then Blank else Lit c) :: phrase r
  end.

(** The signature matched at the start of [s]; the [.*] that ends the
    pattern takes what follows. *)
Fixpoint match_here (sig : list atom) (s : string) : bool :=
  match sig with
  | [] => true
  | a :: sig' =>
      match s with
      | EmptyString => false
      | String c r => atom_ok a c && match_here sig' r
      end
  end.

(** [re.match('.*' + sig + '.*', s)] as a truth value: the signature
    starts somewhere in [s], with no newline before it. *)
Fixpoint re_match (sig : list atom) (s : string) : bool :=
  match_here sig s
  || match s with
     | EmptyString => false
     | String c r => negb (Ascii.eqb c newline) && re_match sig r
     end.

(** The three signatures of [read_iso_line], as the source spells them. *)
Definition bombed : list atom := phrase "program has bombed".

Definition not_right_handed : list atom :=
  phrase "Basis vectors are not a right-handed set".

Definition not_a_subgroup : list atom :=
  phrase "not all elements of the subgroup are elements of parent group".

(** [IsotropySession.read_iso_line], core.py lines 275-288. *)
Definition read_iso_line : M string :=
  raw <- readline ;;
  let this_line := rstrip_newline raw in
  if re_match bombed this_line then raise IsotropyBombedException
  else if re_match not_right_handed this_line then raise IsotropyBasisException
  else if re_match not_a_subgroup this_line then raise IsotropySubgroupException
  else ret this_line.

(** The string ["\n"]. *)
Definition nl : string := String newline EmptyString.

(** [IsotropySession.sendCommand], core.py lines 213-219: the prompt is
    read first, then the command is written. *)
Definition sendCommand (command : string) : M unit :=
  read_iso_line ;;;
  write (command ++ nl)%string.

Module Shows.

(** [item in self._shows] for the built-in set. *)
Definition set_mem (item : string) (s : list string) : bool :=
  existsb (String.eqb item) s.

(** [self._shows.remove(item)]: the built-in set raises [KeyError] for
    an element it does not hold. *)
Definition set_remove (item : string) (s : list string)
    : outcome (list string) :=
  if set_mem item s
  then Ok (filter (fun x => negb (String.eqb item x)) s)
  else Raise KeyError.

(** [Shows.add], core.py lines 60-64. *)
Definition add (item : string) : M unit :=
  let item := upper item in
  fun self =>
    if negb (set_mem item (shows self)) then
      (sendCommand ("SHOW " ++ item)%string ;;;
       fun self => set_shows (shows self ++ [item]) self) self
    else ret tt self.

(** [Shows.discard], core.py lines 66-72. *)
Definition discard (item : string) : M unit :=
  let item := upper item in
  try_catch
    (fun self =>
       (s <- lift (set_remove item (shows self)) ;;
        set_shows s ;;;
        sendCommand ("CANCEL SHOW " ++ item)%string) self)
    ValueError
    (ret tt).

(** [Shows.clearAll], core.py lines 74-76. *)
Definition clearAll : M unit :=
  sendCommand "CANCEL SHOW ALL" ;;;
  set_shows [].

(** The constructor starts from an empty set of its own. *)
Definition __init__ (initial_shows : list string) : M unit :=
  set_shows [] ;;;
  for_each initial_shows (fun item => add (upper item)).

End Shows.

Module Values.

(** [Values.__setitem__], core.py lines 94-98. *)
Definition __setitem__ (key value : string) : M unit :=
  let key := upper key in
  fun self =>
    if negb (dict_mem key (values self))
       || match dict_get key (values self) with
          | Ok v => negb (String.eqb v value)
          | Raise _ => false
          end
    then
      (sendCommand ("VALUE " ++ key ++ " " ++ value)%string ;;;
       fun self => set_values (dict_set key value (values self)) self) self
    else ret tt self.

(** [Values.__getitem__], core.py lines 100-102. *)
Definition __getitem__ (key : string) : M string :=
  let key := upper key in
  fun self => lift (dict_get key (values self)) self.

(** [Values.__delitem__], core.py lines 104-107: the command is sent
    before the key is deleted. *)
Definition __delitem__ (key : string) : M unit :=
  let key := upper key in
  sendCommand ("CANCEL VALUE " ++ key)%string ;;;
  fun self =>
    (d <- lift (dict_del key (values self)) ;; set_values d) self.

(** [Values.clearAll], core.py lines 115-117. *)
Definition clearAll : M unit :=
  sendCommand "CANCEL VALUE ALL" ;;;
  set_values [].

(** The constructor starts from an empty dict of its own; the items of
    [initial_values] were read off the mapping that was passed. *)
Definition __init__ (initial_values : pydict string) : M unit :=
  set_values [] ;;;
  for_each initial_values
    (fun kv => __setitem__ (upper (fst kv)) (snd kv)).

End Values.

(** The banner line after which the engine takes commands. *)
Definition READY : string :=
  "Current setting is International (new ed.) with conventional basis vectors.".

(** The loop of [__init__] that moves past the initial output.  [pending]
    runs along the output of the engine: when it is used up before the
    banner came, every further read gives the empty string and the loop
    does not end, which is [None]. *)
Fixpoint await_banner (pending : list string) (self : session)
    : option (outcome unit * session) :=
  match pending with
  | [] => None
  | _ :: pending' =>
      match read_iso_line self with
      | (Raise e, self') => Some (Raise e, self')
      | (Ok this_line, self') =>
          if String.eqb this_line READY then Some (Ok tt, self')
          else await_banner pending' self'
      end
  end.

(** The [setting] argument of [__init__]: [None], a string or a list. *)
Inductive setting_arg : Type :=
| SettingNone
| SettingStr (s : string)
| SettingList (l : list string).

(** The setting list that [__init__] keeps: the list that was given, the
    one string in a list, or INTERNATIONAL for [None] and for what is
    empty. *)
Definition resolve_setting (a : setting_arg) : list string :=
  match a with
  | SettingNone => ["INTERNATIONAL"]
  | SettingStr s => if truthy s then [s] else ["INTERNATIONAL"]
  | SettingList [] => ["INTERNATIONAL"]
  | SettingList l => l
  end.

(** [__init__] once the banner has been read. *)
Definition configure (initial_values : pydict string)
    (initial_shows : list string) (a : setting_arg) : M unit :=
  sendCommand "SCREEN 999" ;;;
  sendCommand "PAGE 999" ;;;
  set_setting (resolve_setting a) ;;;
  (fun self =>
     for_each (setting self)
       (fun s => sendCommand ("SETTING " ++ s)%string) self) ;;;
  Values.__init__ initial_values ;;;
  Shows.__init__ initial_shows.

(** [IsotropySession.__init__]; [engine] is the output of the process that
    [Command(...).run(...)] starts. *)
Definition __init__ (engine : list string) (initial_values : pydict string)
    (initial_shows : list string) (a : setting_arg) (self : session)
    : option (outcome unit * session) :=
  let self1 := snd (set_process (mk_process engine [] false false) self) in
  match await_banner engine self1 with
  | None => None
  | Some (Raise e, self2) => Some (Raise e, self2)
  | Some (Ok _, self2) =>
      Some (configure initial_values initial_shows a self2)
  end.

(** What the session touches outside itself: the names of the files of the
    working directory, and the processes it has let go of. *)
Record host : Type := mk_host
  { cwd : list string;
    reaped : list process }.

(** [s.endswith(suffix)] *)
Fixpoint ends_with (suffix s : string) : bool :=
  String.eqb suffix s
  || match s with
     | EmptyString => false
     | String _ r => ends_with suffix r
     end.

(** What [*.iso] matches: the names that end in [.iso]; a pattern that
    does not start with a dot leaves out the names that do. *)
Definition iso_name (name : string) : bool :=
  match name with
  | String "." _ => false
  | _ => ends_with ".iso" name
  end.

(** [glob("*.iso")] in a directory that holds [names]. *)
Definition glob_iso (names : list string) : list string :=
  filter iso_name names.

(** [os.remove(f)] *)
Definition os_remove (f : string) (names : list string) : list string :=
  filter (fun name => negb (String.eqb f name)) names.

(** [self.iso_process.kill()] *)
Definition kill (p : process) : process :=
  mk_process (stdout p) (stdin p) (broken p) true.

(** [IsotropySession.restart_session], core.py lines 200-211; [engine] is
    the output of the process that the new [__init__] starts, and [None]
    says that this [__init__] does not return. *)
Definition restart_session (engine : list string) (self : session) (h : host)
    : option (outcome unit * session * host) :=
  match try_catch (sendCommand "QUIT") BrokenPipeError (ret tt) self with
  | (Raise e, self1) => Some (Raise e, self1, h)
  | (Ok _, self1) =>
      let old := kill (iso_process self1) in
      let files_to_remove := glob_iso (cwd h) in
      let cwd' := fold_left (fun names f => os_remove f names)
                    files_to_remove (cwd h) in
      let h' := mk_host cwd' (reaped h ++ [old]) in
      match __init__ engine (values self1) (shows self1)
              (SettingList (setting self1)) self1 with
      | None => None
      | Some (r, self2) => Some (r, self2, h')
      end
  end.


Local Close Scope session_scope.

(** ** Auxiliary definitions of the proofs *)

(** A nested induction principle: the elements of a list satisfy the
    property before the list does. *)
Section value_induction.

Variable P : value -> Prop.
Hypothesis HStr : forall s, P (Str s).
Hypothesis HList : forall l, Forall P l -> P (List l).

Fixpoint value_nested_ind (v : value) : P v :=
  match v with
  | Str s => HStr s
  | List l =>
      HList l
        ((fix all (l : list value) : Forall P l :=
            match l with
            | [] => Forall_nil P
            | x :: xs => Forall_cons x (value_nested_ind x) (all xs)
            end) l)
  end.

End value_induction.

(** The number of characters of a list of pieces. *)
Definition total_length (ps : list string) : nat :=
  list_sum (map String.length ps).

(** [detect_data_form_and_convert] on each piece of a split, the results
    in a list. *)
Definition convert_each (pieces : list string) : outcome value :=
  l <- mapM (fun p => detect_data_form_and_convert (Str p)) pieces ;;
  Ok (List l).

(** The display block of the scenario: a header and two rows. *)
Definition scenario_block : list string :=
  ["Irrep   k vector"; "GM1+    0,0,0"; "GM2-    |x,0,0|x,y,0|"].

(** The records that the spec gives for [scenario_block]. *)
Definition spec_scenario_records : list dict :=
  [ [("Irrep", Str "GM1+"); ("k vector", List [Str "0"; Str "0"; Str "0"])];
    [("Irrep", Str "GM2-");
     ("k vector", List [List [Str "x"; Str "0"; Str "0"];
                        List [Str "x"; Str "y"; Str "0"]])] ].

(** The records that [_parse_output] gives for [scenario_block]: the bar
    that opens the cell and the bar that closes it each leave an empty
    piece. *)
Definition scenario_records : list dict :=
  [ [("Irrep", Str "GM1+"); ("k vector", List [Str "0"; Str "0"; Str "0"])];
    [("Irrep", Str "GM2-");
     ("k vector", List [Str ""; List [Str "x"; Str "0"; Str "0"];
                        List [Str "x"; Str "y"; Str "0"]; Str ""])] ].

(** A session that has just been made: nothing sent, nothing mirrored;
    [out] is what the engine will print. *)
Definition idle_session (out : list string) : session :=
  mk_session (mk_process out [] false false) ["INTERNATIONAL"] [] [].

(** The characters of [mid] are those of the signature, any whitespace
    character standing where the signature has [\s]. *)
Definition spells (sig : list atom) (mid : string) : Prop :=
  Forall2 (fun a c => atom_ok a c = true) sig (list_ascii_of_string mid).

(** The signature occurs in [line], with no newline before it: what
    [re.match] asks for with [.*] on both sides of the signature. *)
Definition occurs (sig : list atom) (line : string) : Prop :=
  exists pre mid post,
    line = (pre ++ mid ++ post)%string
    /\ ~ In newline (list_ascii_of_string pre)
    /\ spells sig mid.

(** [c.lower()] on the 7-bit range. *)
Definition lower_char (c : ascii) : ascii :=
  let n := nat_of_ascii c in
  if (65 <=? n) && (n <=? 90) then ascii_of_nat (n + 32) else c.

(** [s.lower()] *)
Fixpoint lower (s : string) : string :=
  match s with
  | EmptyString => EmptyString
  | String c r => String (lower_char c) (lower r)
  end.

(** [text in s] *)
Fixpoint contains (text s : string) : bool :=
  String.prefix text s
  || match s with
     | EmptyString => false
     | String _ r => contains text r
     end.

(** The line reader as the spec words it: the three signatures are looked
    for in order, as substrings, whatever the letter case. *)
Definition spec_read_line (raw : string) : outcome string :=
  let line := rstrip_newline raw in
  if contains "program has bombed" (lower line)
  then Raise IsotropyBombedException
  else if contains "basis vectors are not a right-handed set" (lower line)
  then Raise IsotropyBasisException
  else if contains
            "not all elements of the subgroup are elements of parent group"
            (lower line)
  then Raise IsotropySubgroupException
  else Ok line.

(** The column [i] of the block holds a space on every line: its space
    count is the number of lines.  This is the flag that the source keeps
    in [transitions]. *)
Definition blank_column (list_of_lines : list string) (i : nat) : bool :=
  count_space (map (char_at i) list_of_lines) =? List.length list_of_lines.

(** A transition as the spec words it: the space count of the column is
    not the number of lines. *)
Definition spec_transition (list_of_lines : list string) (i : nat) : bool :=
  negb (count_space (map (char_at i) list_of_lines)
        =? List.length list_of_lines).

(** A boundary as the spec words it: the column is not a transition, the
    one before it is, and the header has no space there. *)
Definition spec_boundary (list_of_lines : list string) (i : nat) : Prop :=
  i < zip_width list_of_lines
  /\ spec_transition list_of_lines i = false
  /\ spec_transition list_of_lines (i - 1) = true
  /\ char_at i (hd EmptyString list_of_lines) <> " "%char.

(** What a continuation row does to the value of a field: a list takes
    the token at its end, a string becomes a list of two. *)
Definition append_token (v : value) (token : string) : value :=
  match v with
  | List l => List (l ++ [Str token])
  | Str _ => List [v; Str token]
  end.

(** The merge of the spec for one field: [K] continuation rows give a list
    of exactly [K] elements, the tokens of the rows in their order. *)
Definition spec_merged (tokens : list string) : value :=
  List (map Str tokens).

(** The merge law as the spec words it, for a record started by [row0] and
    continued by [conts], and for the field [F] of column [j]. *)
Definition spec_merge_law (header row0 : list string)
    (conts : list (list string)) (F : string) (j : nat) : Prop :=
  exists records record,
    detect_multirows_and_split (header :: row0 :: conts)
    = Ok (records ++ [record])
    /\ dict_get F record
       = Ok (spec_merged (map (fun row => nth j row EmptyString) conts)).

(** Every header name is a key of the record. *)
Definition all_keys (header : list string) (r : dict) : Prop :=
  forall k, In k header -> dict_mem k r = true.

(** The strings at the leaves of a value, from left to right. *)
Fixpoint leaves (v : value) : list string :=
  match v with
  | Str s => [s]
  | List l => flat_map leaves l
  end.

(** No leaf of the value is still wrapped in parentheses. *)
Definition unwrapped (v : value) : bool :=
  forallb (fun a => negb (paren_match a)) (leaves v).

(** The number of places where [re.split] cuts [s] at the delimiter [d]. *)
Fixpoint delims (d : ascii) (s : string) : nat :=
  match s with
  | EmptyString => 0
  | String c r =>
      (if Ascii.eqb c d && negb (closes_paren (lstrip r)) then 1 else 0)
      + delims d r
  end.

(** A string on which no step of the decomposition but the last one has
    anything to do. *)
Definition settled (a : string) : Prop :=
  List.length (re_split "|" a) <= 1
  /\ List.length (re_split "," a) <= 1
  /\ List.length (str_split a) <= 1
  /\ strip a = a.

(** A line of the engine that carries none of the failure signatures. *)
Definition benign (raw : string) : bool :=
  let this_line := rstrip_newline raw in
  negb (re_match bombed this_line)
  && negb (re_match not_right_handed this_line)
  && negb (re_match not_a_subgroup this_line).

(** What [sendCommand] writes for a command. *)
Definition line (command : string) : string := (command ++ nl)%string.

(** The process after the commands [cmds] went through: one line read
    before each, each written in its turn. *)
Definition fed (cmds : list string) (p : process) : process :=
  mk_process (skipn (List.length cmds) (stdout p))
    (stdin p ++ map line cmds) (broken p) (killed p).

(** The commands that set up a session and replay its mirrors. *)
Definition value_command (kv : string * string) : string :=
  ("VALUE " ++ fst kv ++ " " ++ snd kv)%string.

Definition show_command (item : string) : string := ("SHOW " ++ item)%string.

Definition setting_command (s : string) : string := ("SETTING " ++ s)%string.

Definition replay_commands (self : session) : list string :=
  ["SCREEN 999"; "PAGE 999"]
  ++ map setting_command (setting self)
  ++ map value_command (values self)
  ++ map show_command (shows self).

(** The process that [restart_session] leaves behind: one line read, QUIT
    written when the pipe still takes it, and killed. *)
Definition quit_and_kill (p : process) : process :=
  kill (if broken p
        then mk_process (tl (stdout p)) (stdin p) (broken p) (killed p)
        else fed ["QUIT"] p).

(** What the mirrors of a session always satisfy: the keys and the shows
    are upper case and occur once, and there is a setting. *)
Definition mirrors_wf (self : session) : Prop :=
  Forall (fun kv => upper (fst kv) = fst kv) (values self)
  /\ NoDup (map fst (values self))
  /\ Forall (fun item => upper item = item) (shows self)
  /\ NoDup (shows self)
  /\ setting self <> [].
From Stdlib Require Import Permutation.


(** ** Further definitions: the parser *)

(** The fields of a line before their whitespace is stripped: the slices
    that [split_line_by_indexes] takes, the last one to the end of the
    line. *)
Fixpoint pieces_from (i1 : nat) (rest : list nat) (line : string)
    : list string :=
  match rest with
  | [] => [drop i1 line]
  | i2 :: rest' => slice i1 i2 line :: pieces_from i2 rest' line
  end.

(** [''.join(pieces)] *)
Definition join (pieces : list string) : string :=
  fold_right String.append EmptyString pieces.

(** The indexes grow strictly from left to right. *)
Fixpoint increasing (l : list nat) : Prop :=
  match l with
  | [] => True
  | a :: rest =>
      match rest with
      | [] => True
      | b :: _ => a < b /\ increasing rest
      end
  end.

(** Every row is as wide as the header. *)
Definition rectangular (header : list string) (rows : list (list string))
    : Prop :=
  Forall (fun row => List.length row = List.length header) rows.

(** A row whose tokens are all empty: what a blank line splits into. *)
Definition blank_row (row : list string) : bool :=
  forallb (fun prop => negb (truthy prop)) row.

(** The rows come to a token of a continuation row before any row has
    started a record. *)
Fixpoint starts_unbound (rows : list (list string)) : bool :=
  match rows with
  | [] => false
  | row :: rest =>
      if truthy (hd EmptyString row) then false
      else if blank_row row then starts_unbound rest
      else true
  end.

(** The rows that start a record: those with a first field. *)
Definition starting_rows (rows : list (list string)) : list (list string) :=
  filter (fun row => truthy (hd EmptyString row)) rows.

(** The keys of the record are the header names, no more and no less. *)
Definition keys_exact (header : list string) (r : dict) : Prop :=
  forall k, dict_mem k r = true <-> In k header.

(** Some character of the string is whitespace. *)
Fixpoint has_space (s : string) : bool :=
  match s with
  | EmptyString => false
  | String c r => isspace c || has_space r
  end.

(** A string with no bar, no comma, no opening parenthesis and no
    whitespace. *)
Fixpoint plain (s : string) : bool :=
  match s with
  | EmptyString => true
  | String c r =>
      negb (Ascii.eqb c "|") && negb (Ascii.eqb c ",")
      && negb (Ascii.eqb c "(") && negb (isspace c) && plain r
  end.

(** [c in s] for a character. *)
Fixpoint has_char (c : ascii) (s : string) : bool :=
  match s with
  | EmptyString => false
  | String c' r => Ascii.eqb c c' || has_char c r
  end.

(** No string of the value holds an opening parenthesis. *)
Definition paren_free (v : value) : bool :=
  forallb (fun a => negb (has_char "(" a)) (leaves v).

(** ** Further definitions: the session *)

Local Open Scope session_scope.

(** [Shows.__contains__], core.py lines 50-52. *)
Definition Shows_contains (item : string) : M bool :=
  let item := upper item in
  fun self => (Ok (Shows.set_mem item (shows self)), self).

(** [Shows.update], core.py lines 46-48. *)
Definition Shows_update (iterable : list string) : M unit :=
  for_each iterable Shows.add.

(** [IsotropySession.__exit__], core.py lines 197-198. *)
Definition __exit__ : M unit := sendCommand "QUIT".

(** [this_line in ['*', '']]: the prompt of the engine, or nothing read. *)
Definition is_prompt (this_line : string) : bool :=
  String.eqb this_line "*" || String.eqb this_line EmptyString.

(** A signature that is plain text, every character for itself. *)
Definition literal (text : string) : list atom :=
  map Lit (list_ascii_of_string text).

(** The two lines by which the engine asks before it builds a data base,
    as [getDisplayData] spells them. *)
Definition REQUESTED : list atom :=
  literal "You have requested information about ".

Definition COUPLED : list atom :=
  literal "Data base for these coupled subgroups ".

(** [n] calls of [self.read_iso_line()] whose results are dropped. *)
Fixpoint read_past (n : nat) : M unit :=
  match n with
  | O => ret tt
  | S k => read_iso_line ;;; read_past k
  end.

(** [for i in range(n)]: the first line that is neither the prompt nor
    empty is appended to [lines] and ends the loop. *)
Fixpoint first_result (n : nat) (lines : list string) : M (list string) :=
  match n with
  | O => ret lines
  | S k =>
      possibly_blank <- read_iso_line ;;
      if negb (is_prompt possibly_blank)
      then ret (lines ++ [possibly_blank])
      else first_result k lines
  end.

(** What [getDisplayData] does when the engine asks: it reads past [skip]
    lines, answers with an empty command, reads past one more line and
    looks for a first result in the next ten. *)
Definition answer_prompt (skip : nat) (lines : list string)
    : M (list string) :=
  read_past skip ;;;
  sendCommand EmptyString ;;;
  read_iso_line ;;;
  first_result 10 lines.

(** The [while keep_reading] loop of [getDisplayData], for at most [turns]
    turns; [None] says that the turns were used up. *)
Fixpoint display_loop (turns : nat) (lines : list string) (self : session)
    : option (outcome (list string) * session) :=
  match turns with
  | O => None
  | S k =>
      match read_iso_line self with
      | (Raise e, self') => Some (Raise e, self')
      | (Ok this_line, self') =>
          if is_prompt this_line then Some (Ok lines, self')
          else if re_match REQUESTED this_line then
            match answer_prompt 4 lines self' with
            | (Raise e, self'') => Some (Raise e, self'')
            | (Ok lines', self'') => display_loop k lines' self''
            end
          else if re_match COUPLED this_line then
            match answer_prompt 2 lines self' with
            | (Raise e, self'') => Some (Raise e, self'')
            | (Ok lines', self'') => display_loop k lines' self''
            end
          else display_loop k (lines ++ [this_line]) self'
      end
  end.

(** What [getDisplayData] returns: the raw lines, or the parsed records. *)
Inductive display_data : Type :=
| RawLines (lines : list string)
| Records (records : list dict).

(** [IsotropySession.getDisplayData], core.py lines 221-273.  Every turn
    of the loop reads a line, and a used up output reads as the empty
    line, which ends the loop: one turn more than the engine has lines is
    given.  The [delay] only sleeps and is left out. *)
Definition getDisplayData (display : string) (raw : bool) (self : session)
    : option (outcome display_data * session) :=
  match sendCommand ("DISPLAY " ++ display)%string self with
  | (Raise e, self1) => Some (Raise e, self1)
  | (Ok _, self1) =>
      match display_loop (S (List.length (stdout (iso_process self1))))
              [] self1 with
      | None => None
      | Some (Raise e, self2) => Some (Raise e, self2)
      | Some (Ok lines, self2) =>
          if raw then Some (Ok (RawLines lines), self2)
          else
            match _parse_output lines with
            | Ok records => Some (Ok (Records records), self2)
            | Raise e => Some (Raise e, self2)
            end
      end
  end.

Local Close Scope session_scope.

(** The session with another process. *)
Definition with_process (p : process) (self : session) : session :=
  mk_session p (setting self) (values self) (shows self).

(** The process after one line was read from it. *)
Definition after_read (p : process) : process :=
  mk_process (tl (stdout p)) (stdin p) (broken p) (killed p).

(** The exception that a line raises in [read_iso_line], if any. *)
Definition signature_of (raw : string) : option exn :=
  let this_line := rstrip_newline raw in
  if re_match bombed this_line then Some IsotropyBombedException
  else if re_match not_right_handed this_line then Some IsotropyBasisException
  else if re_match not_a_subgroup this_line
  then Some IsotropySubgroupException
  else None.

(** A line of a response that [getDisplayData] keeps as it is: no failure
    signature, not the prompt, not empty, and none of the two questions. *)
Definition kept_line (raw : string) : bool :=
  benign raw
  && negb (is_prompt (rstrip_newline raw))
  && negb (re_match REQUESTED (rstrip_newline raw))
  && negb (re_match COUPLED (rstrip_newline raw)).

(** Code that never gives output back to the engine: the lines still to
    read only get fewer. *)
Definition shrinks {A : Type} (m : M A) : Prop :=
  forall self,
    List.length (stdout (iso_process (snd (m self))))
    <= List.length (stdout (iso_process self)).

(** The result of [getDisplayData] for the lines that its loop kept. *)
Definition display_result (raw : bool) (lines : list string)
    : outcome display_data :=
  if raw then Ok (RawLines lines)
  else match _parse_output lines with
       | Ok records => Ok (Records records)
       | Raise e => Raise e
       end.

(** A line of the initial output that the banner loop passes over: no
    failure signature, and not the banner. *)
Definition passed_over (raw : string) : Prop :=
  signature_of raw = None /\ rstrip_newline raw <> READY.

(** The key of an item in upper case, as the value map keeps it. *)
Definition upper_key (kv : string * string) : string * string :=
  (upper (fst kv), snd kv).

(** The commands that set up a new session for the values, the shows and
    the setting that [__init__] was given. *)
Definition setup_commands (initial_values : pydict string)
    (initial_shows : list string) (a : setting_arg) : list string :=
  ["SCREEN 999"; "PAGE 999"]
  ++ map setting_command (resolve_setting a)
  ++ map value_command (map upper_key initial_values)
  ++ map show_command (map upper initial_shows).

(** The next [n] lines of the process carry no failure signature; past the
    end of the output a read gives the empty string, which carries none. *)
Definition calm (n : nat) (p : process) : Prop :=
  Forall (fun raw => benign raw = true) (firstn n (stdout p)).

(** A session object before [__init__] ran on it. *)
Definition blank_session : session :=
  mk_session (mk_process [] [] false false) [] [] [].

(** [getPossibleSingleIrrepOPs], core.py lines 543-549.  The [with]
    statement calls [__exit__] when the body is left, with a result or with
    an exception; an exception of [__exit__] takes the place of either.
    An exception of the constructor leaves before [with] is entered. *)
Definition getPossibleSingleIrrepOPs (engine : list string)
    (parent subgroup : string) : option (outcome display_data * session) :=
  let values := [("parent", parent); ("subgroup", subgroup)] in
  let shows := ["irrep"; "direction"; "basis"; "origin"] in
  match __init__ engine values shows SettingNone blank_session with
  | None => None
  | Some (Raise e, isos) => Some (Raise e, isos)
  | Some (Ok _, isos) =>
      match getDisplayData "ISOTROPY" false isos with
      | None => None
      | Some (possible_ops, isos1) =>
          match __exit__ isos1 with
          | (Raise e, isos2) => Some (Raise e, isos2)
          | (Ok _, isos2) => Some (possible_ops, isos2)
          end
      end
  end.

(** One turn of the loop of [getPossibleIrrepComboOPs], core.py lines
    568-575, for the text [irrep] of a combination: the value IRREP is set,
    and the request is made; when the engine has bombed, the session is
    restarted and the request is made once more, any exception of which
    leaves the loop.  [engine] is the output of the process that a restart
    starts. *)
Definition request_coupled (engine : list string) (irrep : string)
    (isos : session) (h : host)
    : option (outcome display_data * session * host) :=
  match Values.__setitem__ "irrep" irrep isos with
  | (Raise e, isos1) => Some (Raise e, isos1, h)
  | (Ok _, isos1) =>
      match getDisplayData "ISOTROPY COUPLED" false isos1 with
      | None => None
      | Some (Raise IsotropyBombedException, isos2) =>
          match restart_session engine isos2 h with
          | None => None
          | Some (Raise e, isos3, h') => Some (Raise e, isos3, h')
          | Some (Ok _, isos3, h') =>
              match getDisplayData "ISOTROPY COUPLED" false isos3 with
              | None => None
              | Some (this_combo_data, isos4) =>
                  Some (this_combo_data, isos4, h')
              end
          end
      | Some (this_combo_data, isos2) => Some (this_combo_data, isos2, h)
      end
  end.

(** [text.isascii()]: every character of the text is below 128, which is
    when [bytes(text, "ascii")] gives the text and raises nothing. *)
Definition isascii (text : string) : bool :=
  forallb (fun c => nat_of_ascii c <? 128) (list_ascii_of_string text).

(** How far a loop has come: still in it, or left with a result. *)
Inductive progress : Type :=
| Reading (self : session)
| Gone (r : outcome unit) (self : session).

(** The loop of [__init__] that moves past the initial output, core.py
    lines 168-175, over a number of turns; a used up output reads as the
    empty string, as [readline] has it at the end of a file. *)
Fixpoint banner_turns (turns : nat) (self : session) : progress :=
  match turns with
  | O => Reading self
  | S k =>
      match read_iso_line self with
      | (Raise e, self') => Gone (Raise e) self'
      | (Ok this_line, self') =>
          if String.eqb this_line READY then Gone (Ok tt) self'
          else banner_turns k self'
      end
  end.

(** What the pattern [*.iso] matches among the names of a directory: a
    name that ends in [.iso] and does not start with a dot. *)
Definition star_iso (name : string) : Prop :=
  (exists stem, name = (stem ++ ".iso")%string)
  /\ forall rest, name <> String "." rest.

(** ** Further definitions: nested text *)

(** A word: some characters, none of them a bar, a comma, a parenthesis
    or whitespace. *)
Definition word (s : string) : bool :=
  truthy s && plain s && negb (has_char ")" s).

(** One element stands for itself, more make a list. *)
Definition many {A : Type} (f : A -> value) (l : list A) : value :=
  match l with
  | [x] => f x
  | _ => List (map f l)
  end.

(** Words with one blank between them; such runs with commas between
    them; such tuples with bars between them; a tuple in parentheses. *)
Definition words_text (ws : list string) : string := String.concat " " ws.

Definition tuple_text (t : list (list string)) : string :=
  String.concat "," (map words_text t).

Definition alts_text (a : list (list (list string))) : string :=
  String.concat "|" (map tuple_text a).

Definition group_text (t : list (list string)) : string :=
  ("(" ++ tuple_text t ++ ")")%string.

(** The values that these texts stand for. *)
Definition words_value (ws : list string) : value := many Str ws.

Definition tuple_value (t : list (list string)) : value :=
  many words_value t.

Definition alts_value (a : list (list (list string))) : value :=
  many tuple_value a.

(** No level is empty, and the words are words. *)
Definition words_ok (ws : list string) : Prop :=
  ws <> [] /\ Forall (fun w => word w = true) ws.

Definition tuple_ok (t : list (list string)) : Prop :=
  t <> [] /\ Forall words_ok t.

Definition alts_ok (a : list (list (list string))) : Prop :=
  a <> [] /\ Forall tuple_ok a.

(** A string put before the first piece of a split. *)
Definition prepend (x : string) (ps : list string) : list string :=
  match ps with
  | [] => [x]
  | p :: ps' => (x ++ p)%string :: ps'
  end.
(** * Properties *)

(** ** Results and lists *)

Lemma mapM_ext_in {A B : Type} (f g : A -> outcome B) (l : list A) :
  (forall x, In x l -> f x = g x) -> mapM f l = mapM g l.
Proof.
  induction l as [|x xs IH]; intros H; simpl; [reflexivity|].
  rewrite (H x (or_introl eq_refl)), IH; [reflexivity|].
  intros y Hy. apply H. now right.
Qed.

Lemma mapM_Ok_id {A : Type} (f : A -> outcome A) (l : list A) :
  Forall (fun x => f x = Ok x) l -> mapM f l = Ok l.
Proof.
  induction 1 as [|x xs Hx _ IH]; simpl; [reflexivity|].
  now rewrite Hx, IH.
Qed.

Lemma mapM_Ok_Forall2 {A B : Type} (f : A -> outcome B) (l : list A)
    (l' : list B) :
  mapM f l = Ok l' -> Forall2 (fun x y => f x = Ok y) l l'.
Proof.
  revert l'. induction l as [|x xs IH]; simpl; intros l' H.
  - injection H as <-. constructor.
  - destruct (f x) as [y|e] eqn:Hy; simpl in H; [|discriminate].
    destruct (mapM f xs) as [ys|e] eqn:Hys; simpl in H; [|discriminate].
    injection H as <-. constructor; auto.
Qed.

(** ** Strings *)

Lemma total_length_bound (ps : list string) (p : string) :
  In p ps -> String.length p <= total_length ps.
Proof.
  unfold total_length.
  induction ps as [|q qs IH]; simpl; intros H; [contradiction|].
  destruct H as [->|H]; [lia|]. specialize (IH H). lia.
Qed.

Lemma push_length (c : ascii) (ps : list string) :
  ps <> [] -> List.length (push c ps) = List.length ps.
Proof. destruct ps; simpl; congruence. Qed.

Lemma push_total (c : ascii) (ps : list string) :
  ps <> [] -> total_length (push c ps) = S (total_length ps).
Proof. destruct ps; unfold total_length; simpl; congruence. Qed.

Lemma re_split_from_nonempty (d : ascii) (skip : bool) (s : string) :
  re_split_from d skip s <> [].
Proof.
  revert skip. induction s as [|c r IH]; intros skip; simpl; [discriminate|].
  destruct (skip && isspace c); [apply IH|].
  destruct (Ascii.eqb c d && negb (closes_paren (lstrip r))); [discriminate|].
  specialize (IH false). destruct (re_split_from d false r); simpl; congruence.
Qed.

(** The pieces of a split and the delimiters between them fit in the
    string. *)
Lemma re_split_from_fits (d : ascii) (skip : bool) (s : string) :
  total_length (re_split_from d skip s) + List.length (re_split_from d skip s)
  <= S (String.length s).
Proof.
  revert skip. induction s as [|c r IH]; intros skip; simpl.
  - unfold total_length. simpl. lia.
  - destruct (skip && isspace c).
    + specialize (IH true). lia.
    + destruct (Ascii.eqb c d && negb (closes_paren (lstrip r))).
      * specialize (IH true). unfold total_length in *. simpl. lia.
      * specialize (IH false).
        rewrite push_length, push_total by apply re_split_from_nonempty. lia.
Qed.

Lemma re_split_shorter (d : ascii) (s p : string) :
  1 < List.length (re_split d s) -> In p (re_split d s) ->
  String.length p < String.length s.
Proof.
  intros Hlen Hin. unfold re_split in *.
  pose proof (re_split_from_fits d false s).
  pose proof (total_length_bound _ _ Hin). lia.
Qed.

Lemma starts_word_split (s : string) :
  starts_word s = true -> str_split s <> [].
Proof.
  destruct s as [|c r]; simpl; [discriminate|].
  intros H. apply negb_true_iff in H. rewrite H.
  destruct (starts_word r); [|discriminate].
  destruct (str_split r); discriminate.
Qed.

Lemma str_split_fits (s : string) :
  total_length (str_split s) + List.length (str_split s)
  <= String.length s + (if starts_word s then 1 else 0).
Proof.
  induction s as [|c r IH]; simpl.
  - unfold total_length. simpl. lia.
  - destruct (isspace c); simpl.
    + destruct (starts_word r); lia.
    + destruct (starts_word r) eqn:Hr.
      * rewrite push_length, push_total by now apply starts_word_split. lia.
      * unfold total_length in *. simpl. lia.
Qed.

Lemma str_split_shorter (s p : string) :
  1 < List.length (str_split s) -> In p (str_split s) ->
  String.length p < String.length s.
Proof.
  intros Hlen Hin.
  pose proof (str_split_fits s).
  pose proof (total_length_bound _ _ Hin).
  destruct (starts_word s); lia.
Qed.

Lemma until_close_length (s g : string) :
  until_close s = Some g -> String.length g < String.length s.
Proof.
  revert g. induction s as [|c r IH]; simpl; intros g H; [discriminate|].
  destruct (Ascii.eqb c ")"); [injection H as <-; simpl; lia|].
  destruct (Ascii.eqb c newline); [discriminate|].
  destruct (until_close r) as [g'|]; [|discriminate].
  injection H as <-. specialize (IH g' eq_refl). simpl. lia.
Qed.

Lemma paren_group_length (s g : string) :
  paren_group s = Some g -> String.length g < String.length s.
Proof.
  destruct s as [|c r]; simpl; [discriminate|].
  destruct (Ascii.eqb c newline); [discriminate|].
  destruct (until_close r) as [g'|] eqn:E; [|discriminate].
  intros H. injection H as <-. apply until_close_length in E. simpl. lia.
Qed.

Lemma findall_from_shorter (skip : nat) (s g : string) :
  In g (findall_from skip s) -> S (String.length g) < String.length s.
Proof.
  revert skip. induction s as [|c r IH]; intros skip; simpl; [contradiction|].
  destruct skip as [|k].
  - destruct (Ascii.eqb c "(").
    + destruct (paren_group r) as [g0|] eqn:E.
      * intros [<-|H].
        -- apply paren_group_length in E. lia.
        -- specialize (IH _ H). lia.
      * intros H. specialize (IH _ H). lia.
    + intros H. specialize (IH _ H). lia.
  - intros H. specialize (IH _ H). lia.
Qed.

(** ** The recursion of [detect_data_form_and_convert] *)

Lemma depth_bound_pos (v : value) : 0 < depth_bound v.
Proof. destruct v; simpl; lia. Qed.

Lemma depth_bound_In (l : list value) (x : value) :
  In x l -> depth_bound x < depth_bound (List l).
Proof.
  simpl. induction l as [|y ys IH]; simpl; intros H; [contradiction|].
  destruct H as [->|H]; [lia|]. specialize (IH H). lia.
Qed.

Lemma depth_bound_strs (ps : list string) (n : nat) :
  (forall p, In p ps -> 2 * String.length p + 1 <= n) ->
  depth_bound (List (map Str ps)) <= S n.
Proof.
  simpl. induction ps as [|p ps IH]; simpl; intros H; [lia|].
  pose proof (H p (or_introl eq_refl)).
  assert (forall q, In q ps -> 2 * String.length q + 1 <= n) as H'
    by (intros q Hq; apply H; now right).
  specialize (IH H'). lia.
Qed.

Lemma index_In {A : Type} (l : list A) (i : nat) (a : A) :
  index l i = Ok a -> In a l.
Proof.
  unfold index. destruct (nth_error l i) eqn:E; [|discriminate].
  intros H. injection H as <-. eapply nth_error_In; eauto.
Qed.

(** Any depth from [depth_bound] on gives the same result. *)
Lemma convert_stable (n : nat) :
  forall m v, depth_bound v <= n -> depth_bound v <= m ->
  convert n v = convert m v.
Proof.
  induction n as [|n IH]; intros m v Hn Hm.
  - pose proof (depth_bound_pos v). lia.
  - destruct m as [|m]; [pose proof (depth_bound_pos v); lia|].
    simpl. destruct v as [s|l]; unfold convert_body.
    + simpl in Hn, Hm.
      assert (forall ps, (1 <? List.length ps) = true ->
              (forall p, In p ps -> String.length p < String.length s) ->
              convert n (List (map Str ps)) = convert m (List (map Str ps))) as Hps.
      { intros ps Hlen Hlt. apply Nat.ltb_lt in Hlen.
        destruct ps as [|p0 ps0] eqn:Eps; [simpl in Hlen; lia|].
        pose proof (Hlt p0 (or_introl eq_refl)).
        apply IH; (etransitivity;
          [apply (depth_bound_strs _ (2 * String.length s - 1));
           intros q Hq; specialize (Hlt q Hq); lia | lia]). }
      destruct (1 <? List.length (re_split "|" s)) eqn:E1.
      { apply Hps; [assumption|].
        intros p. apply re_split_shorter. now apply Nat.ltb_lt. }
      destruct (1 <? List.length (re_split "," s)) eqn:E2.
      { apply Hps; [assumption|].
        intros p. apply re_split_shorter. now apply Nat.ltb_lt. }
      destruct (paren_match s).
      { destruct (1 <? List.length (findall_paren s)) eqn:E3.
        - apply Hps; [assumption|].
          intros p Hp. apply findall_from_shorter in Hp. lia.
        - destruct (index (findall_paren s) 0) as [g|e] eqn:Eg; simpl;
            [|reflexivity].
          apply index_In, findall_from_shorter in Eg.
          apply IH; simpl; lia. }
      destruct (1 <? List.length (str_split s)) eqn:E4; [|reflexivity].
      apply Hps; [assumption|].
      intros p. apply str_split_shorter. now apply Nat.ltb_lt.
    + rewrite (mapM_ext_in (convert n) (convert m)); [reflexivity|].
      intros x Hx. apply depth_bound_In in Hx. apply IH; lia.
Qed.

(** [detect_data_form_and_convert] satisfies the equation that the source
    gives for it: the depth bound is never reached. *)
Lemma detect_data_form_and_convert_eq (prop : value) :
  detect_data_form_and_convert prop
  = convert_body detect_data_form_and_convert prop.
Proof.
  unfold detect_data_form_and_convert.
  pose proof (depth_bound_pos prop) as Hpos.
  destruct (depth_bound prop) as [|n] eqn:En; [lia|].
  simpl. destruct prop as [s|l]; unfold convert_body.
  - simpl in En.
    assert (forall ps, (1 <? List.length ps) = true ->
            (forall p, In p ps -> String.length p < String.length s) ->
            convert n (List (map Str ps))
            = convert (depth_bound (List (map Str ps))) (List (map Str ps)))
      as Hps.
    { intros ps Hlen Hlt. apply Nat.ltb_lt in Hlen.
      apply convert_stable; [|lia].
      destruct ps as [|p0 ps0] eqn:Eps; [simpl in Hlen; lia|].
      pose proof (Hlt p0 (or_introl eq_refl)).
      etransitivity;
        [apply (depth_bound_strs _ (2 * String.length s - 1));
         intros q Hq; specialize (Hlt q Hq); lia | lia]. }
    destruct (1 <? List.length (re_split "|" s)) eqn:E1.
    { apply Hps; [assumption|].
      intros p. apply re_split_shorter. now apply Nat.ltb_lt. }
    destruct (1 <? List.length (re_split "," s)) eqn:E2.
    { apply Hps; [assumption|].
      intros p. apply re_split_shorter. now apply Nat.ltb_lt. }
    destruct (paren_match s).
    { destruct (1 <? List.length (findall_paren s)) eqn:E3.
      - apply Hps; [assumption|].
        intros p Hp. apply findall_from_shorter in Hp. lia.
      - destruct (index (findall_paren s) 0) as [g|e] eqn:Eg; simpl;
          [|reflexivity].
        apply index_In, findall_from_shorter in Eg.
        apply convert_stable; simpl; lia. }
    destruct (1 <? List.length (str_split s)) eqn:E4; [|reflexivity].
    apply Hps; [assumption|].
    intros p. apply str_split_shorter. now apply Nat.ltb_lt.
  - rewrite (mapM_ext_in (convert n)
               (fun p => convert (depth_bound p) p)); [reflexivity|].
    intros x Hx. apply depth_bound_In in Hx. apply convert_stable; lia.
Qed.

Lemma mapM_map {A B C : Type} (f : B -> outcome C) (g : A -> B) (l : list A) :
  mapM f (map g l) = mapM (fun x => f (g x)) l.
Proof.
  induction l as [|x xs IH]; simpl; [reflexivity|]. now rewrite IH.
Qed.

Lemma detect_strs (ps : list string) :
  detect_data_form_and_convert (List (map Str ps)) = convert_each ps.
Proof.
  rewrite detect_data_form_and_convert_eq. unfold convert_each. simpl.
  now rewrite mapM_map.
Qed.

Lemma detect_list (l : list value) :
  detect_data_form_and_convert (List l)
  = (l' <- mapM detect_data_form_and_convert l ;; Ok (List l')).
Proof. now rewrite detect_data_form_and_convert_eq. Qed.

Lemma mapM_Raise {A B : Type} (f : A -> outcome B) (l : list A) (e : exn) :
  mapM f l = Raise e -> exists x, In x l /\ f x = Raise e.
Proof.
  induction l as [|x xs IH]; simpl; [discriminate|].
  destruct (f x) as [y|e'] eqn:Ex; simpl.
  - destruct (mapM f xs) as [ys|e'] eqn:Exs; simpl; [discriminate|].
    intros H. injection H as ->. destruct (IH eq_refl) as (x' & Hin & Hx').
    exists x'. auto.
  - intros H. injection H as ->. exists x. auto.
Qed.

(** The function is total: the depth bound is never what ends it. *)
Lemma convert_never_exhausts (n : nat) :
  forall v, depth_bound v <= n -> convert n v <> Raise RecursionError.
Proof.
  induction n as [|n IH]; intros v Hn.
  - pose proof (depth_bound_pos v). lia.
  - simpl. destruct v as [s|l]; unfold convert_body.
    + simpl in Hn.
      assert (forall ps, (1 <? List.length ps) = true ->
              (forall p, In p ps -> String.length p < String.length s) ->
              convert n (List (map Str ps)) <> Raise RecursionError) as Hps.
      { intros ps Hlen Hlt. apply Nat.ltb_lt in Hlen.
        destruct ps as [|p0 ps0] eqn:Eps; [simpl in Hlen; lia|].
        pose proof (Hlt p0 (or_introl eq_refl)).
        apply IH. etransitivity;
          [apply (depth_bound_strs _ (2 * String.length s - 1));
           intros q Hq; specialize (Hlt q Hq); lia | lia]. }
      destruct (1 <? List.length (re_split "|" s)) eqn:E1.
      { apply Hps; [assumption|].
        intros p. apply re_split_shorter. now apply Nat.ltb_lt. }
      destruct (1 <? List.length (re_split "," s)) eqn:E2.
      { apply Hps; [assumption|].
        intros p. apply re_split_shorter. now apply Nat.ltb_lt. }
      destruct (paren_match s).
      { destruct (1 <? List.length (findall_paren s)) eqn:E3.
        - apply Hps; [assumption|].
          intros p Hp. apply findall_from_shorter in Hp. lia.
        - unfold index.
          destruct (nth_error (findall_paren s) 0) as [g|] eqn:Eg; simpl;
            [|discriminate].
          apply nth_error_In, findall_from_shorter in Eg.
          apply IH. simpl. lia. }
      destruct (1 <? List.length (str_split s)) eqn:E4; [|discriminate].
      apply Hps; [assumption|].
      intros p. apply str_split_shorter. now apply Nat.ltb_lt.
    + destruct (mapM (convert n) l) as [l'|e] eqn:El; simpl; [discriminate|].
      intros H. injection H as ->.
      apply mapM_Raise in El. destruct El as (x & Hin & Hx).
      apply depth_bound_In in Hin. apply (IH x); [lia|assumption].
Qed.

Lemma detect_never_exhausts (prop : value) :
  detect_data_form_and_convert prop <> Raise RecursionError.
Proof. apply convert_never_exhausts. lia. Qed.

(** ** The scenario of the spec *)

(** C1, as the code has it: on the block [Irrep   k vector],
    [GM1+    0,0,0], [GM2-    |x,0,0|x,y,0|] the pipeline finds the
    boundaries 0 and 8 and returns two records; the first is the one of the
    spec, and the [k vector] of the second is the list of four values
    [""], [x,0,0], [x,y,0], [""]. *)
Theorem parse_output_scenario :
  detect_column_indexes scenario_block = [0; 8]
  /\ _parse_output scenario_block = Ok scenario_records.
Proof. split; vm_compute; reflexivity. Qed.

(** C1, as stated, does not hold: the records of the spec are not what
    [_parse_output] returns on the block. *)
Lemma parse_output_scenario_differs :
  _parse_output scenario_block <> Ok spec_scenario_records.
Proof. vm_compute. discriminate. Qed.

(** ** A first row that continues nothing *)

Lemma truthy_true (s : string) : truthy s = true <-> s <> EmptyString.
Proof. destruct s; simpl; split; congruence. Qed.

Lemma cells_loop_unbound (header : list string) (row : list string) :
  forall j, (exists prop, In prop row /\ truthy prop = true) ->
  cells_loop header false None j row = Raise UnboundLocalError.
Proof.
  induction row as [|p ps IH]; intros j [prop [Hin Hp]]; [contradiction|].
  simpl. unfold cell_step.
  destruct (truthy p) eqn:Ep; [reflexivity|]. simpl.
  apply IH. destruct Hin as [->|Hin]; [congruence|]. now exists prop.
Qed.

(** C10: when the first data row has an empty first field and some
    non-empty token, [detect_multirows_and_split] does not return: it
    reads [result] before any record was made and raises
    [UnboundLocalError]. *)
Theorem first_row_continuation_fails (header row : list string)
    (rows : list (list string)) :
  nth_error row 0 = Some EmptyString ->
  (exists prop, In prop row /\ prop <> EmptyString) ->
  detect_multirows_and_split (header :: row :: rows) = Raise UnboundLocalError.
Proof.
  intros H0 [prop [Hin Hp]].
  unfold detect_multirows_and_split. simpl. unfold row_step, index.
  rewrite H0. simpl.
  rewrite cells_loop_unbound; [reflexivity|].
  exists prop. split; [assumption|]. now apply truthy_true.
Qed.

Lemma first_row_continuation_fails_witness :
  detect_multirows_and_split [["A"; "B"]; [""; "b"]] = Raise UnboundLocalError.
Proof.
  apply (first_row_continuation_fails ["A"; "B"] [""; "b"] []).
  - reflexivity.
  - exists "b". split; [simpl; auto | discriminate].
Defined.

(** ** The remote state mirror *)

Lemma dict_mem_get {V : Type} (k : string) (d : pydict V) :
  dict_mem k d = false -> dict_get k d = Raise KeyError.
Proof.
  induction d as [|[k' v'] d IH]; simpl; [reflexivity|].
  destruct (String.eqb k k'); simpl; [discriminate|]. exact IH.
Qed.

Lemma dict_get_mem {V : Type} (k : string) (d : pydict V) (v : V) :
  dict_get k d = Ok v -> dict_mem k d = true.
Proof.
  destruct (dict_mem k d) eqn:E; [reflexivity|].
  rewrite (dict_mem_get _ _ E). discriminate.
Qed.

Lemma dict_mem_true_get {V : Type} (k : string) (d : pydict V) :
  dict_mem k d = true -> exists v, dict_get k d = Ok v.
Proof.
  induction d as [|[k' v'] d IH]; simpl; [discriminate|].
  destruct (String.eqb k k'); simpl; [now exists v'|]. exact IH.
Qed.

Lemma dict_mem_del {V : Type} (k : string) (d : pydict V) :
  dict_mem k d = false -> dict_del k d = Raise KeyError.
Proof.
  induction d as [|[k' v'] d IH]; simpl; [reflexivity|].
  destruct (String.eqb k k'); simpl; [discriminate|].
  intros H. now rewrite IH.
Qed.

Lemma dict_get_set {V : Type} (k : string) (v : V) (d : pydict V) :
  dict_get k (dict_set k v d) = Ok v.
Proof.
  induction d as [|[k' v'] d IH]; simpl.
  - now rewrite String.eqb_refl.
  - destruct (String.eqb k k') eqn:E; simpl.
    + now rewrite String.eqb_refl.
    + now rewrite E.
Qed.

Lemma dict_get_set_other {V : Type} (k k0 : string) (v : V) (d : pydict V) :
  k0 <> k -> dict_get k0 (dict_set k v d) = dict_get k0 d.
Proof.
  intros Hne. induction d as [|[k' v'] d IH]; simpl.
  - destruct (String.eqb k0 k) eqn:E; [|reflexivity].
    apply String.eqb_eq in E. contradiction.
  - destruct (String.eqb k k') eqn:E; simpl.
    + apply String.eqb_eq in E. subst k'.
      destruct (String.eqb k0 k) eqn:E'; [|reflexivity].
      apply String.eqb_eq in E'. contradiction.
    + now rewrite IH.
Qed.

(** What a command that went through leaves behind: one line more on the
    input of the engine, and the mirrors as they were. *)
Lemma sendCommand_Ok (command : string) (self self' : session) :
  sendCommand command self = (Ok tt, self') ->
  stdin (iso_process self') = stdin (iso_process self) ++ [(command ++ nl)%string]
  /\ stdout (iso_process self') = tl (stdout (iso_process self))
  /\ setting self' = setting self
  /\ values self' = values self
  /\ shows self' = shows self.
Proof.
  unfold sendCommand, read_iso_line, readline, write, mbind, ret, raise.
  destruct self as [[out inp br kd] st vs sh]; simpl.
  destruct out as [|raw rest]; simpl;
    repeat match goal with
    | |- context [if ?b then _ else _] => destruct b; simpl
    end;
    intros H; inversion H; subst; simpl; auto; discriminate.
Qed.

(** A command never touches the mirrors, whether it goes through or not. *)
Lemma sendCommand_frame (command : string) (self : session) :
  setting (snd (sendCommand command self)) = setting self
  /\ values (snd (sendCommand command self)) = values self
  /\ shows (snd (sendCommand command self)) = shows self.
Proof.
  unfold sendCommand, read_iso_line, readline, write, mbind, ret, raise.
  destruct self as [[out inp br kd] st vs sh]; simpl.
  destruct out as [|raw rest]; simpl;
    repeat match goal with
    | |- context [if ?b then _ else _] => destruct b; simpl
    end; auto.
Qed.

(** C5, on the code: for a name that the show set does not hold,
    [Shows.discard] raises [KeyError] and leaves the session as it was.
    The built-in set raises [KeyError], and the handler of [discard] only
    catches [ValueError]. *)
Theorem Shows_discard_absent_raises (self : session) (item : string) :
  Shows.set_mem (upper item) (shows self) = false ->
  Shows.discard item self = (Raise KeyError, self).
Proof.
  intros H. unfold Shows.discard, try_catch, mbind, lift, Shows.set_remove.
  rewrite H. reflexivity.
Qed.

Lemma Shows_discard_absent_raises_witness :
  Shows.discard "nonexistent"
    (mk_session (mk_process [] [] false false) ["INTERNATIONAL"] [] [])
  = (Raise KeyError,
     mk_session (mk_process [] [] false false) ["INTERNATIONAL"] [] []).
Proof.
  apply (Shows_discard_absent_raises
           (mk_session (mk_process [] [] false false) ["INTERNATIONAL"] [] [])
           "nonexistent").
  reflexivity.
Defined.

(** For a key that the value map does not hold, [Values.__delitem__]
    fails: with [KeyError] once the command went through, and with the
    exception of the command otherwise. *)
Lemma Values_delitem_absent_raises (self : session) (key : string) :
  dict_mem (upper key) (values self) = false ->
  fst (Values.__delitem__ key self)
  = match fst (sendCommand ("CANCEL VALUE " ++ upper key)%string self) with
    | Ok _ => Raise KeyError
    | Raise e => Raise e
    end.
Proof.
  intros H. unfold Values.__delitem__, mbind, lift.
  pose proof (sendCommand_frame ("CANCEL VALUE " ++ upper key)%string self)
    as (_ & Hv & _).
  destruct (sendCommand ("CANCEL VALUE " ++ upper key)%string self)
    as [[[]|e] self'] eqn:E; simpl in *; [|reflexivity].
  rewrite Hv, (dict_mem_del _ _ H). reflexivity.
Qed.

(** The test of [__setitem__]: the key is new, or its value changes. *)
Lemma setitem_test (key value : string) (d : pydict string) :
  negb (dict_mem key d)
  || match dict_get key d with
     | Ok v => negb (String.eqb v value)
     | Raise _ => false
     end
  = true
  <-> dict_get key d <> Ok value.
Proof.
  destruct (dict_mem key d) eqn:Em; simpl.
  - destruct (dict_mem_true_get _ _ Em) as [v Hv]. rewrite Hv.
    destruct (String.eqb v value) eqn:Ev; simpl.
    + apply String.eqb_eq in Ev. subst. split; [discriminate|congruence].
    + apply String.eqb_neq in Ev. split; [congruence|reflexivity].
  - rewrite (dict_mem_get _ _ Em). split; [discriminate|reflexivity].
Qed.

Lemma setitem_test_false (key value : string) (d : pydict string) :
  negb (dict_mem key d)
  || match dict_get key d with
     | Ok v => negb (String.eqb v value)
     | Raise _ => false
     end
  = false
  -> dict_get key d = Ok value.
Proof.
  destruct (dict_mem key d) eqn:Em; simpl; [|discriminate].
  destruct (dict_mem_true_get _ _ Em) as [v Hv]. rewrite Hv.
  destruct (String.eqb v value) eqn:Ev; simpl; [|discriminate].
  apply String.eqb_eq in Ev. now subst.
Qed.

(** C7: when two keys differ in letter case only, setting a value under
    the first and then the same value under the second sends one [VALUE]
    command: the first call sends it for a key that is new or whose value
    changes, and the second call leaves the mirror and the command stream
    as they are. *)
Theorem Values_setitem_case_dedup (self self1 : session)
    (key1 key2 value : string) :
  upper key1 = upper key2 ->
  Values.__setitem__ key1 value self = (Ok tt, self1) ->
  Values.__setitem__ key2 value self1 = (Ok tt, self1)
  /\ (dict_get (upper key1) (values self) <> Ok value ->
      stdin (iso_process self1)
      = stdin (iso_process self)
        ++ [(("VALUE " ++ upper key1 ++ " " ++ value) ++ nl)%string]
      /\ values self1 = dict_set (upper key1) value (values self))
  /\ (dict_get (upper key1) (values self) = Ok value -> self1 = self).
Proof.
  intros Hk H1. unfold Values.__setitem__ in *. rewrite <- Hk.
  destruct (negb (dict_mem (upper key1) (values self))
            || match dict_get (upper key1) (values self) with
               | Ok v => negb (String.eqb v value)
               | Raise _ => false
               end) eqn:Ec.
  - assert (dict_get (upper key1) (values self) <> Ok value) as Hnew
      by now apply setitem_test.
    unfold mbind, set_values in H1.
    destruct (sendCommand ("VALUE " ++ upper key1 ++ " " ++ value)%string self)
      as [[[]|e] self'] eqn:E; [|discriminate].
    apply sendCommand_Ok in E. destruct E as (Hin & _ & Hst & Hv & Hsh).
    injection H1 as <-. simpl.
    rewrite Hv, dict_get_set, String.eqb_refl.
    rewrite (dict_get_mem _ _ _ (dict_get_set _ _ _)). simpl.
    split; [reflexivity|]. split; [auto|]. intros Hold. contradiction.
  - assert (dict_get (upper key1) (values self) = Ok value) as Hold
      by now apply setitem_test_false.
    unfold ret in H1. injection H1 as <-. rewrite Ec.
    split; [reflexivity|]. split; [intros Hnew; contradiction|reflexivity].
Qed.

Lemma Values_setitem_case_dedup_witness :
  Values.__setitem__ "IRREP" "GM1+"
    (snd (Values.__setitem__ "irrep" "GM1+" (idle_session ["*"])))
  = (Ok tt, snd (Values.__setitem__ "irrep" "GM1+" (idle_session ["*"])))
  /\ (dict_get (upper "irrep") (values (idle_session ["*"])) <> Ok "GM1+" ->
      stdin (iso_process
               (snd (Values.__setitem__ "irrep" "GM1+" (idle_session ["*"]))))
      = stdin (iso_process (idle_session ["*"]))
        ++ [(("VALUE " ++ upper "irrep" ++ " " ++ "GM1+") ++ nl)%string]
      /\ values (snd (Values.__setitem__ "irrep" "GM1+" (idle_session ["*"])))
         = dict_set (upper "irrep") "GM1+" (values (idle_session ["*"])))
  /\ (dict_get (upper "irrep") (values (idle_session ["*"])) = Ok "GM1+" ->
      snd (Values.__setitem__ "irrep" "GM1+" (idle_session ["*"]))
      = idle_session ["*"]).
Proof.
  apply (Values_setitem_case_dedup (idle_session ["*"])
           (snd (Values.__setitem__ "irrep" "GM1+" (idle_session ["*"])))
           "irrep" "IRREP" "GM1+").
  - reflexivity.
  - reflexivity.
Defined.

(** ** The line reader *)

Lemma match_here_spells (sig : list atom) :
  forall s, match_here sig s = true
  <-> exists mid post, s = (mid ++ post)%string /\ spells sig mid.
Proof.
  unfold spells. induction sig as [|a sig IH]; intros s; simpl.
  - split; [|reflexivity]. intros _. exists EmptyString, s.
    split; [reflexivity|constructor].
  - destruct s as [|c r].
    + split; [discriminate|]. intros (mid & post & Hs & Hm).
      destruct mid; simpl in *; inversion Hm. discriminate.
    + rewrite andb_true_iff, IH. split.
      * intros (Hc & mid & post & -> & Hm).
        exists (String c mid), post. split; [reflexivity|].
        simpl. now constructor.
      * intros (mid & post & Hs & Hm).
        destruct mid as [|c' mid]; simpl in *; inversion Hm; subst.
        injection Hs as -> ->. split; [assumption|]. now exists mid, post.
Qed.

Lemma re_match_occurs (sig : list atom) (s : string) :
  re_match sig s = true <-> occurs sig s.
Proof.
  unfold occurs. split.
  - induction s as [|c r IH]; simpl; rewrite orb_true_iff.
    + intros [H|H]; [|discriminate].
      apply match_here_spells in H. destruct H as (mid & post & Hs & Hm).
      exists EmptyString, mid, post. simpl. auto.
    + intros [H|H].
      * apply match_here_spells in H. destruct H as (mid & post & Hs & Hm).
        exists EmptyString, mid, post. simpl. auto.
      * apply andb_true_iff in H. destruct H as [Hc H].
        destruct (IH H) as (pre & mid & post & -> & Hpre & Hm).
        exists (String c pre), mid, post. simpl.
        split; [reflexivity|]. split; [|assumption].
        intros [Heq|Hin]; [|contradiction].
        subst c. rewrite Ascii.eqb_refl in Hc. discriminate.
  - intros (pre & mid & post & -> & Hpre & Hm).
    induction pre as [|c pre IH]; simpl in *.
    + assert (match_here sig (mid ++ post) = true) as H
        by (apply match_here_spells; eauto).
      destruct (mid ++ post)%string; simpl; rewrite H; reflexivity.
    + rewrite IH by tauto.
      destruct (Ascii.eqb c newline) eqn:E.
      * apply Ascii.eqb_eq in E. subst c. tauto.
      * simpl. apply orb_true_r.
Qed.

Lemma re_match_not_occurs (sig : list atom) (s : string) :
  re_match sig s = false <-> ~ occurs sig s.
Proof.
  rewrite <- re_match_occurs. destruct (re_match sig s); split; congruence.
Qed.

(** C6, as the code has it: the line read, without its newlines at the
    end, is checked against the three signatures in their order and with
    the letter case of the source ([Basis] with a capital); a blank of a
    signature stands for one whitespace character and no newline may come
    before the signature.  The first signature that occurs decides the
    exception, and a line where none occurs is returned. *)
Theorem read_iso_line_signatures (self : session) :
  let this_line := rstrip_newline (hd EmptyString (stdout (iso_process self))) in
  (occurs bombed this_line
   /\ fst (read_iso_line self) = Raise IsotropyBombedException)
  \/ (~ occurs bombed this_line /\ occurs not_right_handed this_line
      /\ fst (read_iso_line self) = Raise IsotropyBasisException)
  \/ (~ occurs bombed this_line /\ ~ occurs not_right_handed this_line
      /\ occurs not_a_subgroup this_line
      /\ fst (read_iso_line self) = Raise IsotropySubgroupException)
  \/ (~ occurs bombed this_line /\ ~ occurs not_right_handed this_line
      /\ ~ occurs not_a_subgroup this_line
      /\ fst (read_iso_line self) = Ok this_line).
Proof.
  intros this_line.
  assert (fst (read_iso_line self)
          = if re_match bombed this_line then Raise IsotropyBombedException
            else if re_match not_right_handed this_line
            then Raise IsotropyBasisException
            else if re_match not_a_subgroup this_line
            then Raise IsotropySubgroupException
            else Ok this_line) as Hr.
  { subst this_line. unfold read_iso_line, readline, mbind, raise, ret.
    destruct self as [[out inp br kd] st vs sh]; simpl.
    destruct out as [|raw rest]; simpl;
      repeat match goal with
      | |- context [if ?b then _ else _] => destruct b; simpl
      end; reflexivity. }
  rewrite Hr.
  destruct (re_match bombed this_line) eqn:E1.
  { left. split; [now apply re_match_occurs|reflexivity]. }
  apply re_match_not_occurs in E1.
  destruct (re_match not_right_handed this_line) eqn:E2.
  { right; left. repeat split; [assumption|now apply re_match_occurs]. }
  apply re_match_not_occurs in E2.
  destruct (re_match not_a_subgroup this_line) eqn:E3.
  { right; right; left.
    repeat split; [assumption|assumption|now apply re_match_occurs]. }
  apply re_match_not_occurs in E3.
  right; right; right. repeat split; assumption.
Qed.

(** C6, as stated, does not hold: the line that spells the second
    signature in lower case is returned as ordinary output, where the
    reading of the spec raises. *)
Lemma read_iso_line_case_sensitive :
  fst (read_iso_line
         (idle_session [("basis vectors are not a right-handed set" ++ nl)%string]))
  <> spec_read_line ("basis vectors are not a right-handed set" ++ nl)%string.
Proof. vm_compute. discriminate. Qed.

(** ** Column boundaries *)

Lemma fold_min_le (ns : list nat) :
  forall a, fold_left Nat.min ns a <= a
            /\ forall n, In n ns -> fold_left Nat.min ns a <= n.
Proof.
  induction ns as [|m ns IH]; intros a; simpl; [split; [lia|tauto]|].
  destruct (IH (Nat.min a m)) as [H1 H2]. split; [lia|].
  intros n [->|Hn]; [lia|auto].
Qed.

(** No line is shorter than the width of the block. *)
Lemma zip_width_le (list_of_lines : list string) (line : string) :
  In line list_of_lines -> zip_width list_of_lines <= String.length line.
Proof.
  destruct list_of_lines as [|l ls]; simpl; [tauto|].
  destruct (fold_min_le (map String.length ls) (String.length l)) as [H1 H2].
  intros [<-|Hin]; [assumption|]. apply H2. now apply in_map.
Qed.

(** Within the width of the block, [char_at] is the character of the
    line. *)
Lemma char_at_get (list_of_lines : list string) (line : string) (i : nat) :
  In line list_of_lines -> i < zip_width list_of_lines ->
  String.get i line = Some (char_at i line).
Proof.
  intros Hin Hi. apply zip_width_le in Hin.
  assert (i < String.length line) as Hlt by lia. clear Hin Hi.
  unfold char_at. revert i Hlt.
  induction line as [|c r IH]; intros i Hlt; simpl in *; [lia|].
  destruct i as [|i]; [reflexivity|]. apply IH. lia.
Qed.

Lemma nth_error_map_seq {A : Type} (f : nat -> A) (n : nat) :
  forall a j,
  nth_error (map f (seq a n)) j = if j <? n then Some (f (a + j)) else None.
Proof.
  induction n as [|n IH]; intros a j; simpl.
  - destruct j; reflexivity.
  - destruct j as [|j]; simpl.
    + now rewrite Nat.add_0_r.
    + rewrite IH. replace (S a + j) with (a + S j) by lia.
      destruct (j <? n) eqn:E.
      * apply Nat.ltb_lt in E.
        assert ((S j <? S n) = true) as -> by (apply Nat.ltb_lt; lia).
        reflexivity.
      * apply Nat.ltb_ge in E.
        assert ((S j <? S n) = false) as -> by (apply Nat.ltb_ge; lia).
        reflexivity.
Qed.

(** The flags of the source, column by column. *)
Lemma transitions_of_nth (list_of_lines : list string) (j : nat) (b : bool) :
  nth_error (transitions_of list_of_lines) j = Some b
  <-> j < zip_width list_of_lines /\ blank_column list_of_lines j = b.
Proof.
  unfold transitions_of, zip_star, blank_column.
  rewrite map_map, nth_error_map_seq. simpl.
  destruct (j <? zip_width list_of_lines) eqn:E.
  - apply Nat.ltb_lt in E. split.
    + intros H. injection H as <-. auto.
    + intros [_ <-]. reflexivity.
  - apply Nat.ltb_ge in E. split; [discriminate|]. intros [H _]. lia.
Qed.

Lemma indexes_loop_extends (header : string) (transitions : list bool) :
  forall i last indexes,
  exists more, indexes_loop header i last transitions indexes = indexes ++ more.
Proof.
  induction transitions as [|x rest IH]; intros i last indexes; simpl.
  - exists []. now rewrite app_nil_r.
  - destruct (negb x && last && negb (Ascii.eqb (char_at i header) " ")).
    + destruct (IH (S i) x (indexes ++ [i])) as [more ->].
      exists (i :: more). now rewrite <- app_assoc.
    + apply IH.
Qed.

(** What the loop appends: the indexes whose flag is off, whose
    predecessor has its flag on, and where the header has no space. *)
Lemma indexes_loop_In (header : string) (transitions : list bool) :
  forall i last indexes k,
  In k (indexes_loop header i last transitions indexes)
  <-> In k indexes
      \/ exists j, k = i + j
           /\ nth_error transitions j = Some false
           /\ nth_error (last :: transitions) j = Some true
           /\ char_at k header <> " "%char.
Proof.
  induction transitions as [|x rest IH]; intros i last indexes k; simpl.
  - split; [auto|]. intros [H|(j & _ & H & _)]; [assumption|].
    destruct j; discriminate.
  - rewrite IH. split.
    + intros [H|(j & -> & H1 & H2 & H3)].
      * destruct (negb x && last && negb (Ascii.eqb (char_at i header) " "))
          eqn:E; [|auto].
        apply in_app_or in H. destruct H as [H|[<-|[]]]; [auto|].
        right. exists 0.
        apply andb_true_iff in E. destruct E as [E E3].
        apply andb_true_iff in E. destruct E as [E1 E2].
        apply negb_true_iff in E1, E3. subst x last. simpl.
        rewrite Nat.add_0_r. repeat split.
        intros Hc. rewrite Hc in E3. discriminate.
      * right. exists (S j). simpl.
        replace (i + S j) with (S i + j) by lia. auto.
    + intros [H|(j & -> & H1 & H2 & H3)].
      * left. destruct (negb x && last && negb (Ascii.eqb (char_at i header) " "));
          [apply in_or_app|]; auto.
      * destruct j as [|j]; simpl in H1, H2.
        -- injection H1 as ->. injection H2 as ->.
           rewrite Nat.add_0_r in *. left.
           destruct (Ascii.eqb (char_at i header) " ") eqn:E.
           ++ apply Ascii.eqb_eq in E. contradiction.
           ++ simpl. apply in_or_app. right. now left.
        -- right. exists j. replace (S i + j) with (i + S j) by lia. auto.
Qed.

(** C4, as the code has it: a column is flagged exactly when its space
    count is the number of lines; the boundaries start with 0, and an
    index [i] past 0 is a boundary exactly when column [i] is not flagged,
    column [i - 1] is, and the header has no space at [i]. *)
Theorem detect_column_indexes_boundaries (list_of_lines : list string) :
  hd_error (detect_column_indexes list_of_lines) = Some 0
  /\ (forall i b,
        nth_error (transitions_of list_of_lines) i = Some b
        <-> i < zip_width list_of_lines /\ blank_column list_of_lines i = b)
  /\ (forall i,
        In i (detect_column_indexes list_of_lines)
        <-> i = 0
            \/ (0 < i < zip_width list_of_lines
                /\ blank_column list_of_lines i = false
                /\ blank_column list_of_lines (i - 1) = true
                /\ char_at i (hd EmptyString list_of_lines) <> " "%char)).
Proof.
  unfold detect_column_indexes. split; [|split].
  - destruct (indexes_loop_extends (hd EmptyString list_of_lines)
                (transitions_of list_of_lines) 0 false [0]) as [more ->].
    reflexivity.
  - intros i b. apply transitions_of_nth.
  - intros i. rewrite indexes_loop_In. simpl. split.
    + intros [[H|[]]|(j & -> & H1 & H2 & H3)]; [auto|].
      destruct j as [|j]; simpl in H2; [discriminate|].
      apply transitions_of_nth in H1, H2. simpl in *.
      rewrite Nat.sub_0_r. right. intuition lia.
    + intros [->|(Hi & H1 & H2 & H3)]; [auto|].
      right. exists i. destruct i as [|i]; [lia|].
      replace (S i - 1) with i in H2 by lia.
      split; [reflexivity|]. split; [|split; [|exact H3]].
      * apply transitions_of_nth. split; [lia|assumption].
      * change (nth_error (transitions_of list_of_lines) i = Some true).
        apply transitions_of_nth. split; [lia|assumption].
Qed.

(** C4, as stated, does not hold: on the one line [a b] the index 2 is a
    boundary, and column 2 is a transition in the wording of the spec. *)
Lemma spec_boundary_differs :
  ~ (In 2 (detect_column_indexes ["a b"]) <-> spec_boundary ["a b"] 2).
Proof.
  intros [H _].
  assert (In 2 (detect_column_indexes ["a b"])) as Hin
    by (vm_compute; auto).
  destruct (H Hin) as (_ & Hc & _). vm_compute in Hc. discriminate.
Qed.

(** ** Continuation rows *)

Lemma index_nth {A : Type} (l : list A) (i : nat) (d : A) :
  i < List.length l -> index l i = Ok (nth i l d).
Proof.
  intros H. unfold index. now rewrite (nth_error_nth' l d H).
Qed.

Lemma dict_mem_set {V : Type} (k k0 : string) (v : V) (d : pydict V) :
  dict_mem k0 (dict_set k v d) = dict_mem k0 d || String.eqb k0 k.
Proof.
  induction d as [|[k' v'] d IH]; simpl.
  - now rewrite orb_false_r.
  - destruct (String.eqb k k') eqn:E; simpl.
    + apply String.eqb_eq in E. subst k'.
      destruct (String.eqb k0 k); simpl; [reflexivity|].
      now rewrite orb_false_r.
    + rewrite IH. now rewrite orb_assoc.
Qed.

Lemma fold_append_token (tokens : list string) :
  forall l, fold_left append_token tokens (List l) = List (l ++ map Str tokens).
Proof.
  induction tokens as [|t ts IH]; intros l; simpl.
  - now rewrite app_nil_r.
  - rewrite IH, <- app_assoc. reflexivity.
Qed.

Lemma fold_append_token_str (first : string) (tokens : list string) :
  fold_left append_token tokens (Str first)
  = match tokens with
    | [] => Str first
    | _ => List (Str first :: map Str tokens)
    end.
Proof.
  destruct tokens as [|t ts]; simpl; [reflexivity|].
  now rewrite fold_append_token.
Qed.

Section one_field.

Variable header : list string.
Variable F : string.
Variable j : nat.
Hypothesis HF : nth_error header j = Some F.
Hypothesis Honce : forall j', nth_error header j' = Some F -> j' = j.

(** A row that starts a record sets one key per column. *)
Lemma cells_loop_new (row : list string) :
  forall j0 r,
  j0 + List.length row <= List.length header ->
  exists r',
    cells_loop header true (Some r) j0 row = Ok (Some r')
    /\ (forall k, dict_mem k r = true -> dict_mem k r' = true)
    /\ (forall i k, j0 <= i < j0 + List.length row ->
          nth_error header i = Some k -> dict_mem k r' = true)
    /\ (j0 <= j < j0 + List.length row ->
          dict_get F r' = Ok (Str (nth (j - j0) row EmptyString)))
    /\ (~ j0 <= j < j0 + List.length row -> dict_get F r' = dict_get F r).
Proof.
  induction row as [|p ps IH]; intros j0 r Hlen; simpl in *.
  - exists r. repeat split; auto; intros; lia.
  - unfold cell_step. simpl.
    rewrite (index_nth header j0 EmptyString) by lia. simpl.
    set (h := nth j0 header EmptyString).
    assert (nth_error header j0 = Some h) as Hh
      by (apply nth_error_nth'; lia).
    destruct (IH (S j0) (dict_set h (Str p) r)) as (r' & Hr & Hmono & Hkeys & Hin & Hout);
      [lia|].
    exists r'. split; [exact Hr|]. split; [|split; [|split]].
    + intros k Hk. apply Hmono. rewrite dict_mem_set, Hk. reflexivity.
    + intros i k Hi Hk. destruct (Nat.eq_dec i j0) as [->|Hne].
      * apply Hmono. rewrite dict_mem_set.
        assert (k = h) as -> by congruence.
        rewrite String.eqb_refl. apply orb_true_r.
      * apply (Hkeys i k); [lia|assumption].
    + intros Hj. destruct (Nat.eq_dec j j0) as [->|Hne].
      * rewrite Hout by lia. rewrite Nat.sub_diag. simpl.
        assert (h = F) as -> by congruence. apply dict_get_set.
      * rewrite Hin by lia.
        replace (j - j0) with (S (j - S j0)) by lia. reflexivity.
    + intros Hj. rewrite Hout by lia.
      apply dict_get_set_other. intros ->.
      specialize (Honce _ Hh). lia.
Qed.

(** A continuation row appends its non-empty tokens, each under the name
    of its column. *)
Lemma cells_loop_continue (row : list string) :
  forall j0 r,
  j0 + List.length row <= List.length header ->
  all_keys header r ->
  exists r',
    cells_loop header false (Some r) j0 row = Ok (Some r')
    /\ all_keys header r'
    /\ (j0 <= j < j0 + List.length row ->
        truthy (nth (j - j0) row EmptyString) = true ->
        exists v, dict_get F r = Ok v
          /\ dict_get F r'
             = Ok (append_token v (nth (j - j0) row EmptyString)))
    /\ (~ j0 <= j < j0 + List.length row -> dict_get F r' = dict_get F r).
Proof.
  induction row as [|p ps IH]; intros j0 r Hlen Hall; simpl in *.
  - exists r. repeat split; auto; intros; lia.
  - unfold cell_step.
    set (h := nth j0 header EmptyString).
    assert (nth_error header j0 = Some h) as Hh
      by (apply nth_error_nth'; lia).
    assert (In h header) as Hinh by (eapply nth_error_In; eauto).
    destruct (truthy p) eqn:Ep; simpl.
    + rewrite (index_nth header j0 EmptyString) by lia. simpl. fold h.
      destruct (dict_mem_true_get _ _ (Hall h Hinh)) as [v Hv].
      rewrite Hv. simpl.
      assert (exists r1,
                 match v with
                 | Str _ => Ok (Some (dict_set h (List [v; Str p]) r))
                 | List l => Ok (Some (dict_set h (List (l ++ [Str p])) r))
                 end = Ok (Some r1)
                 /\ r1 = dict_set h (append_token v p) r) as (r1 & -> & Hr1).
      { destruct v; eexists; split; reflexivity. }
      simpl.
      assert (all_keys header r1) as Hall1.
      { intros k Hk. subst r1. rewrite dict_mem_set, (Hall k Hk). reflexivity. }
      destruct (IH (S j0) r1) as (r' & Hr & Hall' & Hin & Hout);
        [lia|assumption|].
      exists r'. split; [exact Hr|]. split; [exact Hall'|]. split.
      * intros Hj Ht. destruct (Nat.eq_dec j j0) as [->|Hne].
        -- rewrite Nat.sub_diag. simpl.
           assert (h = F) as Ehf by congruence. rewrite <- Ehf.
           exists v. split; [assumption|].
           rewrite <- Ehf in Hout. rewrite Hout by lia.
           subst r1. apply dict_get_set.
        -- replace (j - j0) with (S (j - S j0)) in * by lia. simpl in *.
           destruct Hin as (v' & Hv' & Hr'); [lia|assumption|].
           exists v'. split; [|assumption].
           rewrite <- Hv'. subst r1. symmetry.
           apply dict_get_set_other. intros ->.
           specialize (Honce _ Hh). lia.
      * intros Hj. rewrite Hout by lia. subst r1.
        apply dict_get_set_other. intros ->.
        specialize (Honce _ Hh). lia.
    + destruct (IH (S j0) r) as (r' & Hr & Hall' & Hin & Hout);
        [lia|assumption|].
      exists r'. split; [exact Hr|]. split; [exact Hall'|]. split.
      * intros Hj Ht. destruct (Nat.eq_dec j j0) as [->|Hne].
        -- rewrite Nat.sub_diag in Ht. simpl in Ht. congruence.
        -- replace (j - j0) with (S (j - S j0)) in * by lia. simpl in *.
           apply Hin; [lia|assumption].
      * intros Hj. apply Hout. lia.
Qed.

End one_field.

Lemma rows_loop_app (header : list string) (a b : list (list string)) :
  forall st,
  rows_loop header st (a ++ b)
  = (st' <- rows_loop header st a ;; rows_loop header st' b).
Proof.
  induction a as [|row a IH]; intros st; simpl; [reflexivity|].
  destruct (row_step header st row) as [st'|e]; simpl; [apply IH|reflexivity].
Qed.

Section merge_law.

Variable header : list string.
Variable F : string.
Variable j : nat.
Hypothesis HF : nth_error header j = Some F.
Hypothesis Honce : forall j', nth_error header j' = Some F -> j' = j.

Lemma column_in_range : j < List.length header.
Proof. apply nth_error_Some. congruence. Qed.

(** A row with a first field starts a record that holds every header name,
    and its token under [F]. *)
Lemma row_step_new (st : rows_state) (row0 : list string) :
  List.length row0 = List.length header ->
  truthy (nth 0 row0 EmptyString) = true ->
  exists r0,
    row_step header st row0 = Ok (mk_rows (result_list st) (Some r0))
    /\ all_keys header r0
    /\ dict_get F r0 = Ok (Str (nth j row0 EmptyString)).
Proof.
  intros Hlen H0. pose proof column_in_range as Hj.
  unfold row_step. rewrite (index_nth row0 0 EmptyString) by lia.
  simpl. rewrite H0. simpl.
  destruct (cells_loop_new header F j HF Honce row0 0 []) as
    (r0 & Hr & _ & Hkeys & Hin & _); [lia|].
  match goal with
  | |- context [cells_loop ?a ?b ?c ?d ?e] =>
      replace (cells_loop a b c d e) with (Ok (Some r0))
        by (symmetry; exact Hr)
  end.
  simpl. exists r0. split; [reflexivity|]. split.
  - intros k Hk. destruct (In_nth_error _ _ Hk) as [i Hi].
    apply (Hkeys i k); [|assumption].
    assert (i < List.length header) by (apply nth_error_Some; congruence).
    lia.
  - rewrite Hin by lia. now rewrite Nat.sub_0_r.
Qed.

(** A continuation row keeps the record that is open and appends its
    token to the value under [F]. *)
Lemma row_step_continue (finished : list dict) (r : dict) (v : value)
    (row : list string) :
  List.length row = List.length header ->
  nth 0 row EmptyString = EmptyString ->
  nth j row EmptyString <> EmptyString ->
  all_keys header r ->
  dict_get F r = Ok v ->
  exists r',
    row_step header (mk_rows finished (Some r)) row
    = Ok (mk_rows finished (Some r'))
    /\ all_keys header r'
    /\ dict_get F r' = Ok (append_token v (nth j row EmptyString)).
Proof.
  intros Hlen H0 Hj Hall Hv. pose proof column_in_range as Hlt.
  unfold row_step. rewrite (index_nth row 0 EmptyString) by lia.
  simpl. rewrite H0. simpl.
  destruct (cells_loop_continue header F j HF Honce row 0 r) as
    (r' & Hr & Hall' & Hin & _); [lia|assumption|].
  rewrite Hr. simpl. exists r'. split; [reflexivity|]. split; [assumption|].
  rewrite Nat.sub_0_r in Hin.
  destruct Hin as (v' & Hv' & Hr'); [lia|now apply truthy_true|].
  congruence.
Qed.

Lemma rows_loop_continue (finished : list dict) (conts : list (list string)) :
  forall r v,
  Forall (fun row =>
            List.length row = List.length header
            /\ nth 0 row EmptyString = EmptyString
            /\ nth j row EmptyString <> EmptyString) conts ->
  all_keys header r ->
  dict_get F r = Ok v ->
  exists r',
    rows_loop header (mk_rows finished (Some r)) conts
    = Ok (mk_rows finished (Some r'))
    /\ dict_get F r'
       = Ok (fold_left append_token
               (map (fun row => nth j row EmptyString) conts) v).
Proof.
  induction conts as [|row conts IH]; intros r v Hc Hall Hv; simpl.
  - exists r. auto.
  - inversion Hc as [|? ? (Hlen & H0 & Hj) Hc']; subst.
    destruct (row_step_continue finished r v row Hlen H0 Hj Hall Hv)
      as (r1 & -> & Hall1 & Hv1).
    simpl. apply IH; assumption.
Qed.

(** C2, as the code has it: after a row that starts a record, [K]
    continuation rows that each bring a non-empty token for the field [F]
    leave under [F] the value of the starting row followed by the [K]
    tokens in the order of the rows, a list of [K + 1] elements; with no
    continuation row the value stays a string.  [F] names one column, and
    the rows are as wide as the header. *)
Theorem continuation_rows_merge (pre : list (list string)) (st : rows_state)
    (row0 : list string) (conts : list (list string)) :
  rows_loop header (mk_rows [] None) pre = Ok st ->
  List.length row0 = List.length header ->
  truthy (nth 0 row0 EmptyString) = true ->
  Forall (fun row =>
            List.length row = List.length header
            /\ nth 0 row EmptyString = EmptyString
            /\ nth j row EmptyString <> EmptyString) conts ->
  exists record,
    detect_multirows_and_split (header :: pre ++ row0 :: conts)
    = Ok (result_list st ++ [record])
    /\ dict_get F record
       = Ok match conts with
            | [] => Str (nth j row0 EmptyString)
            | _ =>
                List (Str (nth j row0 EmptyString)
                      :: map (fun row => Str (nth j row EmptyString)) conts)
            end.
Proof.
  intros Hpre Hlen H0 Hc.
  unfold detect_multirows_and_split.
  rewrite rows_loop_app, Hpre. simpl.
  destruct (row_step_new st row0 Hlen H0) as (r0 & -> & Hall & Hv). simpl.
  destruct (rows_loop_continue (result_list st) conts r0 _ Hc Hall Hv)
    as (r' & -> & Hv').
  simpl. exists r'. split; [reflexivity|].
  rewrite Hv', fold_append_token_str.
  destruct conts; [reflexivity|]. simpl. now rewrite map_map.
Qed.

End merge_law.

Lemma continuation_rows_merge_witness :
  exists record,
    detect_multirows_and_split
      (["A"; "B"] :: [] ++ ["a"; "b"] :: [[""; "c"]; [""; "d"]])
    = Ok (result_list (mk_rows [] None) ++ [record])
    /\ dict_get "B" record = Ok (List [Str "b"; Str "c"; Str "d"]).
Proof.
  apply (continuation_rows_merge ["A"; "B"] "B" 1 eq_refl
           ltac:(intros [|[|[|?]]] H; simpl in H; congruence)
           [] (mk_rows [] None) ["a"; "b"] [[""; "c"]; [""; "d"]]).
  - reflexivity.
  - reflexivity.
  - reflexivity.
  - repeat constructor; discriminate.
Defined.

(** C2, as stated, does not hold: one continuation row leaves a list of
    two elements under its field, not a list of one. *)
Lemma one_continuation_row_two_elements :
  ~ spec_merge_law ["A"; "B"] ["a"; "b"] [[""; "c"]] "B" 1.
Proof.
  intros (records & record & H & Hv). vm_compute in H.
  destruct records as [|r0 [|r1 rs]]; simpl in H; try discriminate.
  injection H as <-. vm_compute in Hv. discriminate.
Qed.

(** ** Stripping and splitting *)

Lemma isspace_not (c d : ascii) :
  isspace c = true -> isspace d = false -> Ascii.eqb c d = false.
Proof.
  intros Hc Hd. destruct (Ascii.eqb c d) eqn:E; [|reflexivity].
  apply Ascii.eqb_eq in E. congruence.
Qed.

Lemma closes_paren_lstrip (s : string) :
  closes_paren (lstrip s) = closes_paren s.
Proof.
  induction s as [|c r IH]; simpl; [reflexivity|].
  destruct (isspace c) eqn:E; [|reflexivity].
  rewrite (isspace_not c ")" E eq_refl), (isspace_not c "(" E eq_refl).
  exact IH.
Qed.

Lemma rstrip_cons (c : ascii) (r : string) :
  rstrip (String c r)
  = if truthy (rstrip r) then String c (rstrip r)
    else if isspace c then EmptyString else String c EmptyString.
Proof. simpl. destruct (rstrip r); reflexivity. Qed.

Lemma truthy_false (s : string) : truthy s = false -> s = EmptyString.
Proof. destruct s; simpl; congruence. Qed.

Lemma rstrip_empty_closes (s : string) :
  rstrip s = EmptyString -> closes_paren s = false.
Proof.
  induction s as [|c r IH]; [reflexivity|].
  rewrite rstrip_cons. destruct (truthy (rstrip r)) eqn:Et; [discriminate|].
  destruct (isspace c) eqn:E; [|discriminate]. intros _. simpl.
  rewrite (isspace_not c ")" E eq_refl), (isspace_not c "(" E eq_refl).
  apply IH. now apply truthy_false.
Qed.

Lemma closes_paren_rstrip (s : string) :
  closes_paren (rstrip s) = closes_paren s.
Proof.
  induction s as [|c r IH]; [reflexivity|].
  rewrite rstrip_cons. destruct (truthy (rstrip r)) eqn:Et.
  - simpl. now rewrite IH.
  - apply truthy_false in Et. simpl.
    rewrite (rstrip_empty_closes r Et).
    destruct (isspace c) eqn:E; simpl.
    + now rewrite (isspace_not c ")" E eq_refl), (isspace_not c "(" E eq_refl).
    + reflexivity.
Qed.

Lemma re_split_from_length (d : ascii) (s : string) :
  isspace d = false ->
  forall skip, List.length (re_split_from d skip s) = S (delims d s).
Proof.
  intros Hd. induction s as [|c r IH]; intros skip; simpl; [reflexivity|].
  destruct (skip && isspace c) eqn:E.
  - apply andb_true_iff in E. destruct E as [_ E].
    rewrite (isspace_not c d E Hd). simpl. apply IH.
  - destruct (Ascii.eqb c d && negb (closes_paren (lstrip r))); simpl.
    + now rewrite IH.
    + rewrite push_length by apply re_split_from_nonempty. apply IH.
Qed.

Lemma delims_lstrip (d : ascii) (s : string) :
  isspace d = false -> delims d (lstrip s) = delims d s.
Proof.
  intros Hd. induction s as [|c r IH]; simpl; [reflexivity|].
  destruct (isspace c) eqn:E; [|reflexivity].
  now rewrite (isspace_not c d E Hd).
Qed.

Lemma rstrip_empty_delims (d : ascii) (s : string) :
  isspace d = false -> rstrip s = EmptyString -> delims d s = 0.
Proof.
  intros Hd. induction s as [|c r IH]; [reflexivity|].
  rewrite rstrip_cons. destruct (truthy (rstrip r)) eqn:Et; [discriminate|].
  destruct (isspace c) eqn:E; [|discriminate]. intros _. simpl.
  rewrite (isspace_not c d E Hd). simpl. apply IH. now apply truthy_false.
Qed.

Lemma delims_rstrip (d : ascii) (s : string) :
  isspace d = false -> delims d (rstrip s) = delims d s.
Proof.
  intros Hd. induction s as [|c r IH]; [reflexivity|].
  rewrite rstrip_cons. destruct (truthy (rstrip r)) eqn:Et.
  - simpl. now rewrite IH, !closes_paren_lstrip, closes_paren_rstrip.
  - apply truthy_false in Et. simpl.
    rewrite (rstrip_empty_delims d r Hd Et).
    rewrite closes_paren_lstrip, (rstrip_empty_closes r Et).
    destruct (isspace c) eqn:E; simpl.
    + now rewrite (isspace_not c d E Hd).
    + reflexivity.
Qed.

Lemma str_split_lstrip (s : string) : str_split (lstrip s) = str_split s.
Proof.
  induction s as [|c r IH]; simpl; [reflexivity|].
  destruct (isspace c) eqn:E; [exact IH|]. simpl. now rewrite E.
Qed.

Lemma starts_word_rstrip (s : string) :
  starts_word (rstrip s) = starts_word s.
Proof.
  destruct s as [|c r]; [reflexivity|].
  rewrite rstrip_cons. destruct (truthy (rstrip r)); [reflexivity|].
  destruct (isspace c) eqn:E; simpl; now rewrite ?E.
Qed.

Lemma str_split_rstrip (s : string) : str_split (rstrip s) = str_split s.
Proof.
  induction s as [|c r IH]; [reflexivity|].
  pose proof (starts_word_rstrip r) as Hw.
  rewrite rstrip_cons. destruct (truthy (rstrip r)) eqn:Et.
  - simpl. now rewrite Hw, IH.
  - apply truthy_false in Et. rewrite Et in Hw, IH. simpl in Hw, IH.
    simpl. rewrite <- Hw, <- IH.
    destruct (isspace c) eqn:E; simpl; now rewrite ?E.
Qed.

Lemma lstrip_lstrip (s : string) : lstrip (lstrip s) = lstrip s.
Proof.
  induction s as [|c r IH]; simpl; [reflexivity|].
  destruct (isspace c) eqn:E; [exact IH|]. simpl. now rewrite E.
Qed.

Lemma rstrip_rstrip (s : string) : rstrip (rstrip s) = rstrip s.
Proof.
  induction s as [|c r IH]; [reflexivity|].
  rewrite rstrip_cons. destruct (truthy (rstrip r)) eqn:Et.
  - now rewrite rstrip_cons, IH, Et.
  - destruct (isspace c) eqn:E; simpl; now rewrite ?E.
Qed.

Lemma rstrip_lstrip (s : string) : rstrip (lstrip s) = lstrip (rstrip s).
Proof.
  induction s as [|c r IH]; [reflexivity|].
  rewrite rstrip_cons. simpl lstrip at 1.
  destruct (isspace c) eqn:E.
  - rewrite IH. destruct (truthy (rstrip r)) eqn:Et.
    + simpl. now rewrite E.
    + apply truthy_false in Et. now rewrite Et.
  - rewrite rstrip_cons.
    destruct (truthy (rstrip r)); simpl; now rewrite E.
Qed.

Lemma strip_strip (s : string) : strip (strip s) = strip s.
Proof.
  unfold strip.
  now rewrite rstrip_lstrip, rstrip_rstrip, lstrip_lstrip.
Qed.

Lemma re_split_strip (d : ascii) (s : string) :
  isspace d = false ->
  List.length (re_split d (strip s)) = List.length (re_split d s).
Proof.
  intros Hd. unfold re_split, strip.
  rewrite !(re_split_from_length d _ Hd).
  now rewrite delims_lstrip, delims_rstrip.
Qed.

Lemma str_split_strip (s : string) : str_split (strip s) = str_split s.
Proof. unfold strip. now rewrite str_split_lstrip, str_split_rstrip. Qed.

(** ** Applying the decomposition again *)

Lemma settled_strip (s : string) :
  (1 <? List.length (re_split "|" s)) = false ->
  (1 <? List.length (re_split "," s)) = false ->
  (1 <? List.length (str_split s)) = false ->
  settled (strip s).
Proof.
  intros H1 H2 H3. apply Nat.ltb_ge in H1, H2, H3.
  unfold settled.
  rewrite !re_split_strip by reflexivity.
  rewrite str_split_strip, strip_strip. auto.
Qed.

(** Every leaf of a result is settled. *)
Lemma convert_leaves_settled (n : nat) :
  forall v w, convert n v = Ok w -> Forall settled (leaves w).
Proof.
  induction n as [|n IH]; intros v w H; simpl in H; [discriminate|].
  destruct v as [s|l]; unfold convert_body in H.
  - destruct (1 <? List.length (re_split "|" s)) eqn:E1; [eauto|].
    destruct (1 <? List.length (re_split "," s)) eqn:E2; [eauto|].
    destruct (paren_match s).
    + destruct (1 <? List.length (findall_paren s)); [eauto|].
      destruct (index (findall_paren s) 0); simpl in H; [eauto|discriminate].
    + destruct (1 <? List.length (str_split s)) eqn:E4; [eauto|].
      injection H as <-. simpl. constructor; [|constructor].
      now apply settled_strip.
  - destruct (mapM (convert n) l) as [l'|e] eqn:El; simpl in H;
      [|discriminate].
    injection H as <-. simpl. apply Forall_flat_map.
    apply mapM_Ok_Forall2 in El.
    induction El as [|x y xs ys Hxy _ IHl]; constructor; eauto.
Qed.

(** The decomposition leaves a settled string alone, unless parentheses
    wrap it. *)
Lemma detect_settled (a : string) :
  settled a -> paren_match a = false ->
  detect_data_form_and_convert (Str a) = Ok (Str a).
Proof.
  intros (H1 & H2 & H3 & H4) Hp.
  rewrite detect_data_form_and_convert_eq. unfold convert_body.
  apply Nat.ltb_ge in H1, H2, H3.
  now rewrite H1, H2, Hp, H3, H4.
Qed.

Lemma detect_fixed (w : value) :
  Forall settled (leaves w) ->
  unwrapped w = true ->
  detect_data_form_and_convert w = Ok w.
Proof.
  unfold unwrapped.
  induction w as [a|l IH] using value_nested_ind; simpl; intros Hs Hu.
  - inversion Hs; subst. apply andb_true_iff in Hu. destruct Hu as [Hu _].
    apply negb_true_iff in Hu. now apply detect_settled.
  - rewrite detect_list, mapM_Ok_id; [reflexivity|].
    apply Forall_flat_map in Hs.
    induction IH as [|x xs Hx _ IHxs]; constructor.
    + inversion Hs; subst. simpl in Hu. rewrite forallb_app in Hu.
      apply andb_true_iff in Hu. apply Hx; tauto.
    + inversion Hs; subst. simpl in Hu. rewrite forallb_app in Hu.
      apply andb_true_iff in Hu. apply IHxs; tauto.
Qed.

Lemma lstrip_length (s : string) : String.length (lstrip s) <= String.length s.
Proof.
  induction s as [|c r IH]; simpl; [lia|].
  destruct (isspace c); simpl; lia.
Qed.

Lemma rstrip_length (s : string) : String.length (rstrip s) <= String.length s.
Proof.
  induction s as [|c r IH]; [simpl; lia|].
  rewrite rstrip_cons. destruct (truthy (rstrip r)); simpl; [lia|].
  destruct (isspace c); simpl; lia.
Qed.

Lemma strip_length (s : string) : String.length (strip s) <= String.length s.
Proof.
  unfold strip. pose proof (lstrip_length (rstrip s)).
  pose proof (rstrip_length s). lia.
Qed.

Lemma convert_list_is_list (n : nat) (l : list value) (w : value) :
  convert n (List l) = Ok w -> exists l', w = List l'.
Proof.
  destruct n as [|n]; simpl; [discriminate|].
  destruct (mapM (convert n) l) as [l'|e]; simpl; [|discriminate].
  intros H. injection H as <-. now exists l'.
Qed.

(** A string that comes out of a string is no longer than it. *)
Lemma convert_str_length (n : nat) :
  forall s a, convert n (Str s) = Ok (Str a) ->
  String.length a <= String.length s.
Proof.
  induction n as [|n IH]; intros s a H; simpl in H; [discriminate|].
  unfold convert_body in H.
  destruct (1 <? List.length (re_split "|" s)).
  { apply convert_list_is_list in H. destruct H as [? H]. discriminate. }
  destruct (1 <? List.length (re_split "," s)).
  { apply convert_list_is_list in H. destruct H as [? H]. discriminate. }
  destruct (paren_match s).
  - destruct (1 <? List.length (findall_paren s)).
    { apply convert_list_is_list in H. destruct H as [? H]. discriminate. }
    destruct (index (findall_paren s) 0) as [g|e] eqn:Eg; simpl in H;
      [|discriminate].
    apply index_In, findall_from_shorter in Eg.
    specialize (IH _ _ H). lia.
  - destruct (1 <? List.length (str_split s)).
    { apply convert_list_is_list in H. destruct H as [? H]. discriminate. }
    injection H as <-. apply strip_length.
Qed.

(** A string that parentheses wrap does not come back as it is. *)
Lemma detect_wrapped (a : string) :
  paren_match a = true -> detect_data_form_and_convert (Str a) <> Ok (Str a).
Proof.
  intros Hp H. unfold detect_data_form_and_convert in H.
  destruct (depth_bound (Str a)) as [|n]; simpl in H; [discriminate|].
  unfold convert_body in H.
  destruct (1 <? List.length (re_split "|" a)).
  { apply convert_list_is_list in H. destruct H as [? H]. discriminate. }
  destruct (1 <? List.length (re_split "," a)).
  { apply convert_list_is_list in H. destruct H as [? H]. discriminate. }
  rewrite Hp in H.
  destruct (1 <? List.length (findall_paren a)).
  { apply convert_list_is_list in H. destruct H as [? H]. discriminate. }
  destruct (index (findall_paren a) 0) as [g|e] eqn:Eg; simpl in H;
    [|discriminate].
  apply index_In, findall_from_shorter in Eg.
  apply convert_str_length in H. lia.
Qed.

Lemma Forall2_diag {A : Type} (R : A -> A -> Prop) (l : list A) :
  Forall2 R l l -> Forall (fun x => R x x) l.
Proof.
  induction l as [|x xs IH]; intros H; constructor; inversion H; auto.
Qed.

Lemma detect_fixed_unwrapped (w : value) :
  detect_data_form_and_convert w = Ok w -> unwrapped w = true.
Proof.
  unfold unwrapped.
  induction w as [a|l IH] using value_nested_ind; simpl; intros H.
  - destruct (paren_match a) eqn:Ep; [|reflexivity].
    now apply detect_wrapped in H.
  - rewrite detect_list in H.
    destruct (mapM detect_data_form_and_convert l) as [l'|e] eqn:El;
      simpl in H; [|discriminate].
    injection H as ->. apply mapM_Ok_Forall2, Forall2_diag in El.
    induction IH as [|x xs Hx _ IHxs]; simpl; [reflexivity|].
    inversion El; subst. rewrite forallb_app.
    apply andb_true_iff. split; auto.
Qed.

(** C8, as the code has it: the decomposition is a function of its input,
    and applying it to its own result gives that result again exactly
    when no leaf of the result is still wrapped in parentheses. *)
Theorem decomposition_idempotent (s : string) (v : value) :
  detect_data_form_and_convert (Str s) = Ok v ->
  (detect_data_form_and_convert v = Ok v <-> unwrapped v = true)
  /\ (forall r1 r2,
        detect_data_form_and_convert (Str s) = r1 ->
        detect_data_form_and_convert (Str s) = r2 -> r1 = r2).
Proof.
  intros H. split; [split|].
  - apply detect_fixed_unwrapped.
  - apply detect_fixed.
    unfold detect_data_form_and_convert in H.
    eapply convert_leaves_settled; eauto.
  - intros r1 r2 <- <-. reflexivity.
Qed.

Lemma decomposition_idempotent_witness :
  (detect_data_form_and_convert (List [Str "A"; List [Str "B"; Str "C"]])
   = Ok (List [Str "A"; List [Str "B"; Str "C"]])
   <-> unwrapped (List [Str "A"; List [Str "B"; Str "C"]]) = true)
  /\ (forall r1 r2,
        detect_data_form_and_convert (Str "A | B,C") = r1 ->
        detect_data_form_and_convert (Str "A | B,C") = r2 -> r1 = r2).
Proof.
  apply (decomposition_idempotent "A | B,C"
           (List [Str "A"; List [Str "B"; Str "C"]])).
  vm_compute. reflexivity.
Defined.

(** C8, as stated, does not hold: on ["(a) |b"] the first run leaves the
    leaf ["(a)"], and a second run unwraps it. *)
Lemma decomposition_not_idempotent :
  (v <- detect_data_form_and_convert (Str "(a) |b") ;;
   detect_data_form_and_convert v)
  <> detect_data_form_and_convert (Str "(a) |b").
Proof. vm_compute. discriminate. Qed.

(** ** Restart *)

Lemma benign_hd (out : list string) :
  Forall (fun raw => benign raw = true) out ->
  benign (hd EmptyString out) = true.
Proof. intros H. destruct H; [reflexivity|assumption]. Qed.

Lemma Forall_skipn_benign (n : nat) (out : list string) :
  Forall (fun raw => benign raw = true) out ->
  Forall (fun raw => benign raw = true) (skipn n out).
Proof.
  revert out. induction n as [|n IH]; intros out H; simpl; [assumption|].
  destruct H; [constructor|]. now apply IH.
Qed.

(** Reading a benign line returns it and moves the output on. *)
Lemma read_iso_line_benign (p : process) (st : list string)
    (vs : pydict string) (sh : list string) :
  benign (hd EmptyString (stdout p)) = true ->
  read_iso_line (mk_session p st vs sh)
  = (Ok (rstrip_newline (hd EmptyString (stdout p))),
     mk_session (mk_process (tl (stdout p)) (stdin p) (broken p) (killed p))
       st vs sh).
Proof.
  destruct p as [out inp br kd]. destruct out as [|raw rest];
    [intros _; reflexivity|].
  unfold benign, read_iso_line, readline, mbind, raise, ret.
  simpl. intros H.
  apply andb_true_iff in H. destruct H as [H H3].
  apply andb_true_iff in H. destruct H as [H1 H2].
  apply negb_true_iff in H1, H2, H3.
  now rewrite H1, H2, H3.
Qed.

Lemma sendCommand_quiet (command : string) (p : process) (st : list string)
    (vs : pydict string) (sh : list string) :
  Forall (fun raw => benign raw = true) (stdout p) ->
  broken p = false ->
  sendCommand command (mk_session p st vs sh)
  = (Ok tt, mk_session (fed [command] p) st vs sh).
Proof.
  intros Hq Hb. unfold sendCommand, mbind.
  rewrite read_iso_line_benign by now apply benign_hd.
  unfold write, fed, line. simpl. rewrite Hb.
  destruct (stdout p); reflexivity.
Qed.

Lemma fed_nil (p : process) : fed [] p = p.
Proof. destruct p. unfold fed. simpl. now rewrite app_nil_r. Qed.

Lemma fed_fed (a b : list string) (p : process) :
  fed b (fed a p) = fed (a ++ b) p.
Proof.
  unfold fed. simpl.
  rewrite skipn_skipn, length_app, map_app, app_assoc.
  now rewrite (Nat.add_comm (List.length b)).
Qed.

Lemma fed_quiet (cmds : list string) (p : process) :
  Forall (fun raw => benign raw = true) (stdout p) ->
  Forall (fun raw => benign raw = true) (stdout (fed cmds p)).
Proof. intros H. simpl. now apply Forall_skipn_benign. Qed.

(** A loop of commands on a quiet engine sends them all. *)
Lemma for_each_sendCommand {A : Type} (f : A -> string) (l : list A)
    (st : list string) (vs : pydict string) (sh : list string) :
  forall p,
  Forall (fun raw => benign raw = true) (stdout p) ->
  broken p = false ->
  for_each l (fun x => sendCommand (f x)) (mk_session p st vs sh)
  = (Ok tt, mk_session (fed (map f l) p) st vs sh).
Proof.
  induction l as [|x xs IH]; intros p Hq Hb; simpl.
  - now rewrite fed_nil.
  - unfold mbind. rewrite sendCommand_quiet by assumption.
    rewrite IH; [|now apply fed_quiet|assumption].
    now rewrite fed_fed.
Qed.

Lemma dict_mem_notin {V : Type} (k : string) (d : pydict V) :
  ~ In k (map fst d) -> dict_mem k d = false.
Proof.
  induction d as [|[k' v'] d IH]; simpl; intros H; [reflexivity|].
  destruct (String.eqb k k') eqn:E.
  - apply String.eqb_eq in E. subst. tauto.
  - simpl. apply IH. tauto.
Qed.

Lemma dict_set_new {V : Type} (k : string) (v : V) (d : pydict V) :
  dict_mem k d = false -> dict_set k v d = d ++ [(k, v)].
Proof.
  induction d as [|[k' v'] d IH]; simpl; intros H; [reflexivity|].
  destruct (String.eqb k k'); simpl in *; [discriminate|]. now rewrite IH.
Qed.

Lemma set_mem_notin (item : string) (s : list string) :
  ~ In item s -> Shows.set_mem item s = false.
Proof.
  unfold Shows.set_mem. induction s as [|x xs IH]; simpl; intros H;
    [reflexivity|].
  destruct (String.eqb item x) eqn:E.
  - apply String.eqb_eq in E. subst. tauto.
  - simpl. apply IH. tauto.
Qed.

(** Replaying a value map on a quiet engine sends one [VALUE] command per
    item and builds the same map. *)
Lemma replay_values (items : pydict string) (st : list string)
    (sh : list string) :
  forall acc p,
  Forall (fun raw => benign raw = true) (stdout p) ->
  broken p = false ->
  Forall (fun kv => upper (fst kv) = fst kv) items ->
  NoDup (map fst (acc ++ items)) ->
  for_each items (fun kv => Values.__setitem__ (upper (fst kv)) (snd kv))
    (mk_session p st acc sh)
  = (Ok tt, mk_session (fed (map value_command items) p) st (acc ++ items) sh).
Proof.
  induction items as [|[k v] items IH]; intros acc p Hq Hb Hup Hnd; simpl.
  - now rewrite fed_nil, app_nil_r.
  - inversion Hup as [|? ? Hk Hup']; subst. simpl in Hk.
    assert (~ In k (map fst acc)) as Hnew.
    { rewrite map_app in Hnd. simpl in Hnd.
      apply NoDup_remove_2 in Hnd. intros Hin. apply Hnd.
      apply in_or_app. now left. }
    unfold mbind at 1. unfold Values.__setitem__. rewrite !Hk. simpl.
    rewrite (dict_mem_notin _ _ Hnew). simpl.
    unfold mbind at 1. rewrite sendCommand_quiet by assumption.
    unfold set_values. simpl.
    rewrite (dict_set_new _ _ _ (dict_mem_notin _ _ Hnew)).
    rewrite IH; [|now apply fed_quiet|assumption|assumption|].
    + rewrite fed_fed, <- app_assoc. reflexivity.
    + now rewrite <- app_assoc.
Qed.

(** Replaying a show set on a quiet engine sends one [SHOW] command per
    item and builds the same set. *)
Lemma replay_shows (items : list string) (st : list string)
    (vs : pydict string) :
  forall acc p,
  Forall (fun raw => benign raw = true) (stdout p) ->
  broken p = false ->
  Forall (fun item => upper item = item) items ->
  NoDup (acc ++ items) ->
  for_each items (fun item => Shows.add (upper item))
    (mk_session p st vs acc)
  = (Ok tt, mk_session (fed (map show_command items) p) st vs (acc ++ items)).
Proof.
  induction items as [|x items IH]; intros acc p Hq Hb Hup Hnd; simpl.
  - now rewrite fed_nil, app_nil_r.
  - inversion Hup as [|? ? Hx Hup']; subst.
    assert (~ In x acc) as Hnew.
    { apply NoDup_remove_2 in Hnd. intros Hin. apply Hnd.
      apply in_or_app. now left. }
    unfold mbind at 1. unfold Shows.add. rewrite !Hx. simpl.
    rewrite (set_mem_notin _ _ Hnew). simpl.
    unfold mbind at 1. rewrite sendCommand_quiet by assumption.
    unfold set_shows. simpl.
    rewrite IH; [|now apply fed_quiet|assumption|assumption|].
    + rewrite fed_fed, <- app_assoc. reflexivity.
    + now rewrite <- app_assoc.
Qed.

Lemma benign_ready (ready : string) :
  rstrip_newline ready = READY -> benign ready = true.
Proof. intros H. unfold benign. rewrite H. vm_compute. reflexivity. Qed.

(** The banner loop ends at the banner line when nothing before it
    raises. *)
Lemma await_banner_found (banner : list string) (ready : string)
    (prompts : list string) (st : list string) (vs : pydict string)
    (sh : list string) :
  forall p,
  stdout p = banner ++ ready :: prompts ->
  Forall (fun raw => benign raw = true /\ rstrip_newline raw <> READY) banner ->
  rstrip_newline ready = READY ->
  await_banner (banner ++ ready :: prompts) (mk_session p st vs sh)
  = Some (Ok tt,
          mk_session (mk_process prompts (stdin p) (broken p) (killed p))
            st vs sh).
Proof.
  induction banner as [|raw banner IH]; intros p Hout Hb Hr; simpl.
  - rewrite read_iso_line_benign by (rewrite Hout; now apply benign_ready).
    rewrite Hout. simpl. rewrite Hr, String.eqb_refl. reflexivity.
  - inversion Hb as [|? ? [Hraw Hne] Hb']; subst.
    rewrite read_iso_line_benign by (rewrite Hout; exact Hraw).
    rewrite Hout. simpl.
    destruct (String.eqb (rstrip_newline raw) READY) eqn:E;
      [apply String.eqb_eq in E; contradiction|].
    now rewrite IH.
Qed.

(** The set-up of a session on a quiet engine: the fixed commands, the
    settings, then the values and the shows that it was given. *)
Lemma configure_quiet (items : pydict string) (sitems : list string)
    (l : list string) (p : process) (st : list string)
    (vs : pydict string) (sh : list string) :
  Forall (fun raw => benign raw = true) (stdout p) ->
  broken p = false ->
  l <> [] ->
  Forall (fun kv => upper (fst kv) = fst kv) items ->
  NoDup (map fst items) ->
  Forall (fun item => upper item = item) sitems ->
  NoDup sitems ->
  configure items sitems (SettingList l) (mk_session p st vs sh)
  = (Ok tt,
     mk_session
       (fed (["SCREEN 999"; "PAGE 999"] ++ map setting_command l
             ++ map value_command items ++ map show_command sitems) p)
       l items sitems).
Proof.
  intros Hq Hb Hl Hku Hkn Hsu Hsn.
  unfold configure, Values.__init__, Shows.__init__.
  unfold mbind at 1. rewrite sendCommand_quiet by assumption.
  unfold mbind at 1.
  rewrite sendCommand_quiet by (try apply fed_quiet; assumption).
  unfold mbind at 1. unfold set_setting at 1. simpl setting.
  replace (resolve_setting (SettingList l)) with l
    by (destruct l; [contradiction|reflexivity]).
  unfold mbind at 1. cbn [setting iso_process values shows].
  rewrite (for_each_sendCommand setting_command)
    by (repeat apply fed_quiet; assumption).
  unfold mbind at 1. unfold mbind at 1. unfold set_values at 1.
  cbn [setting iso_process values shows].
  rewrite (replay_values items _ _ [])
    by (repeat apply fed_quiet; assumption).
  unfold mbind at 1. unfold set_shows at 1.
  cbn [setting iso_process values shows].
  rewrite (replay_shows sitems _ _ [])
    by (repeat apply fed_quiet; assumption).
  rewrite !fed_fed. simpl app. reflexivity.
Qed.

Lemma filter_filter {A : Type} (f g : A -> bool) (l : list A) :
  filter g (filter f l) = filter (fun x => f x && g x) l.
Proof.
  induction l as [|x xs IH]; simpl; [reflexivity|].
  destruct (f x); simpl; [|exact IH].
  destruct (g x); now rewrite IH.
Qed.

(** Removing the files one by one leaves the names that are none of
    them. *)
Lemma remove_each (fs : list string) :
  forall names,
  fold_left (fun names f => os_remove f names) fs names
  = filter (fun name => negb (existsb (String.eqb name) fs)) names.
Proof.
  induction fs as [|f fs IH]; intros names; simpl.
  - induction names as [|n ns IHn]; simpl; [reflexivity|]. now rewrite <- IHn.
  - rewrite IH. unfold os_remove. rewrite filter_filter.
    apply filter_ext. intros name.
    rewrite (String.eqb_sym f name), negb_orb. reflexivity.
Qed.

(** After the clean-up the working directory holds the names that the
    pattern does not match. *)
Lemma remove_glob_iso (names : list string) :
  fold_left (fun names f => os_remove f names) (glob_iso names) names
  = filter (fun name => negb (iso_name name)) names.
Proof.
  rewrite remove_each. apply filter_ext_in. intros name Hin. f_equal.
  unfold glob_iso. destruct (iso_name name) eqn:E.
  - apply existsb_exists. exists name. split; [|apply String.eqb_refl].
    apply filter_In. auto.
  - destruct (existsb (String.eqb name) (filter iso_name names)) eqn:Ex;
      [|reflexivity].
    apply existsb_exists in Ex. destruct Ex as (x & Hx & Heq).
    apply String.eqb_eq in Heq. subst x.
    apply filter_In in Hx. destruct Hx as [_ Hx]. congruence.
Qed.

(** QUIT on the way out: a broken pipe is ignored, and the mirrors stay. *)
Lemma quit_ignoring_broken_pipe (p : process) (st : list string)
    (vs : pydict string) (sh : list string) :
  benign (hd EmptyString (stdout p)) = true ->
  exists p1,
    try_catch (sendCommand "QUIT") BrokenPipeError (ret tt)
      (mk_session p st vs sh)
    = (Ok tt, mk_session p1 st vs sh)
    /\ kill p1 = quit_and_kill p.
Proof.
  intros Hb. unfold try_catch, sendCommand, mbind.
  rewrite read_iso_line_benign by assumption.
  unfold write, quit_and_kill, fed, line. simpl.
  destruct (broken p) eqn:E; simpl.
  - eexists. split; [reflexivity|]. unfold kill. simpl. now rewrite ?E.
  - eexists. split; [reflexivity|]. unfold kill. simpl. rewrite ?E.
    destruct (stdout p); reflexivity.
Qed.

(** The restart on engines that raise nothing, in the terms of the
    commands fed to the new process. *)
Lemma restart_session_quiet (self : session) (h : host)
    (banner : list string) (ready : string) (prompts : list string) :
  mirrors_wf self ->
  benign (hd EmptyString (stdout (iso_process self))) = true ->
  Forall (fun raw => benign raw = true /\ rstrip_newline raw <> READY) banner ->
  rstrip_newline ready = READY ->
  Forall (fun raw => benign raw = true) prompts ->
  restart_session (banner ++ ready :: prompts) self h
  = Some (Ok tt,
          mk_session
            (fed (replay_commands self) (mk_process prompts [] false false))
            (setting self) (values self) (shows self),
          mk_host (filter (fun name => negb (iso_name name)) (cwd h))
            (reaped h ++ [quit_and_kill (iso_process self)])).
Proof.
  intros (Hku & Hkn & Hsu & Hsn & Hst) Hold Hbanner Hready Hprompts.
  destruct self as [p st vs sh]. simpl in *.
  unfold restart_session.
  destruct (quit_ignoring_broken_pipe p st vs sh Hold) as (p1 & -> & Hkill).
  cbn [iso_process setting values shows].
  unfold __init__, set_process. cbn [snd iso_process setting values shows].
  rewrite (await_banner_found banner ready prompts) by auto.
  cbn [stdin broken killed].
  rewrite configure_quiet by auto.
  rewrite remove_glob_iso, Hkill. reflexivity.
Qed.

Lemma ends_with_suffix (suffix s : string) :
  ends_with suffix s = true <-> exists stem, s = (stem ++ suffix)%string.
Proof.
  induction s as [|c r IH].
  - simpl. rewrite orb_false_r, String.eqb_eq. split.
    + intros ->. now exists EmptyString.
    + intros [stem H]. destruct stem; simpl in H; [now subst|discriminate].
  - cbn [ends_with]. rewrite orb_true_iff, String.eqb_eq, IH. split.
    + intros [->|[stem ->]]; [now exists EmptyString|].
      now exists (String c stem).
    + intros [stem H]. destruct stem as [|c' stem]; simpl in H; [now left|].
      right. injection H as _ ->. now exists stem.
Qed.

(** [iso_name] decides what the pattern matches. *)
Lemma iso_name_star_iso (name : string) :
  iso_name name = true <-> star_iso name.
Proof.
  unfold star_iso. rewrite <- ends_with_suffix.
  destruct name as [|c r].
  - simpl. split; [discriminate|]. intros [H _]. discriminate.
  - destruct (Ascii.ascii_dec c ".") as [->|Hc].
    + simpl. split; [discriminate|]. intros [_ H]. now destruct (H r).
    + assert (iso_name (String c r) = ends_with ".iso" (String c r)) as ->.
      { unfold iso_name.
        destruct c as [[] [] [] [] [] [] [] []]; try reflexivity.
        now destruct Hc. }
      split; [|tauto]. intros H. split; [assumption|].
      intros rest Heq. injection Heq as -> _. now destruct Hc.
Qed.

(** The process that is let go of, field by field. *)
Lemma quit_and_kill_fields (p : process) :
  quit_and_kill p
  = mk_process (tl (stdout p))
      (if broken p then stdin p else stdin p ++ [("QUIT" ++ nl)%string])
      (broken p) true.
Proof.
  unfold quit_and_kill, kill, fed, line.
  destruct (broken p) eqn:Eb; simpl; rewrite ?Eb; [reflexivity|].
  destruct (stdout p); reflexivity.
Qed.

(** C9: when the line that the old engine still holds raises nothing,
    [restart_session] sends QUIT (a broken pipe is ignored), kills the
    process, removes from the working directory exactly the files that
    [*.iso] matches and starts again.  On an engine that prints its banner
    and then raises nothing, the new session has the setting list, the
    value map and the shows of the old one, and the new engine, which is
    not killed, has received SCREEN and PAGE, one [SETTING] per setting,
    one [VALUE] per mirrored value and one [SHOW] per mirrored show, the
    shows in some order of the set. *)
Theorem restart_session_replays (self : session) (h : host)
    (banner : list string) (ready : string) (prompts : list string) :
  mirrors_wf self ->
  benign (hd EmptyString (stdout (iso_process self))) = true ->
  Forall (fun raw => benign raw = true /\ rstrip_newline raw <> READY) banner ->
  rstrip_newline ready = READY ->
  Forall (fun raw => benign raw = true) prompts ->
  exists (self' : session) (h' : host) (order : list string),
    restart_session (banner ++ ready :: prompts) self h
    = Some (Ok tt, self', h')
    /\ reaped h'
       = reaped h
         ++ [mk_process (tl (stdout (iso_process self)))
               (if broken (iso_process self)
                then stdin (iso_process self)
                else stdin (iso_process self) ++ [("QUIT" ++ nl)%string])
               (broken (iso_process self)) true]
    /\ (forall name,
          In name (cwd h') <-> In name (cwd h) /\ ~ star_iso name)
    /\ setting self' = setting self
    /\ values self' = values self
    /\ Permutation (shows self') (shows self)
    /\ Permutation order (shows self)
    /\ stdin (iso_process self')
       = map (fun command => (command ++ nl)%string)
           (["SCREEN 999"; "PAGE 999"]
            ++ map (fun s => ("SETTING " ++ s)%string) (setting self)
            ++ map (fun kv => ("VALUE " ++ fst kv ++ " " ++ snd kv)%string)
                 (values self)
            ++ map (fun item => ("SHOW " ++ item)%string) order)
    /\ killed (iso_process self') = false
    /\ broken (iso_process self') = false.
Proof.
  intros Hwf Hold Hbanner Hready Hprompts.
  eexists _, _, (shows self). split.
  - apply restart_session_quiet; assumption.
  - cbn [reaped cwd iso_process setting values shows].
    rewrite quit_and_kill_fields.
    split; [reflexivity|]. split.
    { intros name. rewrite filter_In, negb_true_iff.
      rewrite <- iso_name_star_iso.
      destruct (iso_name name); intuition congruence. }
    repeat split; try reflexivity; apply Permutation_refl.
Qed.

Lemma restart_session_replays_witness :
  exists (self' : session) (h' : host) (order : list string),
    restart_session
      (["ISOTROPY, Version 9"; ""] ++ (READY ++ nl)%string :: ["*"])
      (mk_session (mk_process ["*"] ["DISPLAY ISOTROPY COUPLED"] true false)
         ["INTERNATIONAL"] [("PARENT", "221"); ("IRREP", "GM1+")]
         ["KPOINT"; "IRREP"])
      (mk_host ["a.iso"; "notes.txt"; "b.iso"] [])
    = Some (Ok tt, self', h')
    /\ reaped h'
       = [] ++ [mk_process [] ["DISPLAY ISOTROPY COUPLED"] true true]
    /\ (forall name,
          In name (cwd h')
          <-> In name ["a.iso"; "notes.txt"; "b.iso"] /\ ~ star_iso name)
    /\ setting self' = ["INTERNATIONAL"]
    /\ values self' = [("PARENT", "221"); ("IRREP", "GM1+")]
    /\ Permutation (shows self') ["KPOINT"; "IRREP"]
    /\ Permutation order ["KPOINT"; "IRREP"]
    /\ stdin (iso_process self')
       = map (fun command => (command ++ nl)%string)
           (["SCREEN 999"; "PAGE 999"]
            ++ ["SETTING INTERNATIONAL"]
            ++ ["VALUE PARENT 221"; "VALUE IRREP GM1+"]
            ++ map (fun item => ("SHOW " ++ item)%string) order)
    /\ killed (iso_process self') = false
    /\ broken (iso_process self') = false.
Proof.
  apply (restart_session_replays
           (mk_session (mk_process ["*"] ["DISPLAY ISOTROPY COUPLED"] true false)
              ["INTERNATIONAL"] [("PARENT", "221"); ("IRREP", "GM1+")]
              ["KPOINT"; "IRREP"])
           (mk_host ["a.iso"; "notes.txt"; "b.iso"] [])
           ["ISOTROPY, Version 9"; ""] (READY ++ nl)%string ["*"]).
  - unfold mirrors_wf. simpl.
    repeat split; repeat constructor; simpl; intuition discriminate.
  - vm_compute. reflexivity.
  - repeat constructor; try (vm_compute; reflexivity);
      vm_compute; discriminate.
  - vm_compute. reflexivity.
  - repeat constructor.
Defined.

(** The same restart, run: the old process is killed with nothing more
    written to its broken pipe, the two [*.iso] files are gone, and the new
    engine has the six commands. *)
Lemma restart_session_scenario :
  restart_session
    (["ISOTROPY, Version 9"; ""] ++ (READY ++ nl)%string :: ["*"])
    (mk_session (mk_process ["*"] ["DISPLAY ISOTROPY COUPLED"] true false)
       ["INTERNATIONAL"] [("PARENT", "221"); ("IRREP", "GM1+")]
       ["KPOINT"; "IRREP"])
    (mk_host ["a.iso"; "notes.txt"; ".hidden.iso"; "b.iso"] [])
  = Some (Ok tt,
          mk_session
            (mk_process []
               ["SCREEN 999" ++ nl; "PAGE 999" ++ nl;
                "SETTING INTERNATIONAL" ++ nl; "VALUE PARENT 221" ++ nl;
                "VALUE IRREP GM1+" ++ nl; "SHOW KPOINT" ++ nl;
                "SHOW IRREP" ++ nl]%string
               false false)
            ["INTERNATIONAL"] [("PARENT", "221"); ("IRREP", "GM1+")]
            ["KPOINT"; "IRREP"],
          mk_host ["notes.txt"; ".hidden.iso"]
            [mk_process [] ["DISPLAY ISOTROPY COUPLED"] true true]).
Proof. vm_compute. reflexivity. Qed.

(** ** What the mirrors keep *)

Lemma upper_char_upper_char (c : ascii) :
  upper_char (upper_char c) = upper_char c.
Proof.
  destruct c as [[] [] [] [] [] [] [] []]; reflexivity.
Qed.

Lemma upper_upper (s : string) : upper (upper s) = upper s.
Proof.
  induction s as [|c r IH]; simpl; [reflexivity|].
  now rewrite upper_char_upper_char, IH.
Qed.

Lemma resolve_setting_nonempty (a : setting_arg) : resolve_setting a <> [].
Proof.
  destruct a as [|s|[|x l]]; simpl; try discriminate.
  destruct (truthy s); discriminate.
Qed.

Lemma dict_mem_In {V : Type} (k : string) (d : pydict V) :
  dict_mem k d = true <-> In k (map fst d).
Proof.
  induction d as [|[k' v'] d IH]; simpl; [split; [discriminate|tauto]|].
  rewrite orb_true_iff, IH, String.eqb_eq. intuition congruence.
Qed.

Lemma dict_set_keys {V : Type} (k : string) (v : V) (d : pydict V) :
  map fst (dict_set k v d)
  = if dict_mem k d then map fst d else map fst d ++ [k].
Proof.
  induction d as [|[k' v'] d IH]; simpl; [reflexivity|].
  destruct (String.eqb k k') eqn:E; simpl.
  - apply String.eqb_eq in E. now subst.
  - rewrite IH. now destruct (dict_mem k d).
Qed.

Lemma NoDup_snoc {A : Type} (l : list A) (x : A) :
  NoDup l -> ~ In x l -> NoDup (l ++ [x]).
Proof.
  intros Hl Hx. induction Hl as [|y ys Hy _ IH]; simpl.
  - constructor; [tauto|constructor].
  - constructor.
    + intros Hin. apply in_app_or in Hin. simpl in *. intuition congruence.
    + apply IH. simpl in Hx. tauto.
Qed.

(** Setting a value keeps the mirrors well formed, whether the command
    goes through or not. *)
Lemma Values_setitem_wf (key value : string) (self : session) :
  mirrors_wf self -> mirrors_wf (snd (Values.__setitem__ key value self)).
Proof.
  intros (Hku & Hkn & Hsu & Hsn & Hst). unfold Values.__setitem__.
  destruct (negb (dict_mem (upper key) (values self)) || _); [|now repeat split].
  unfold mbind, set_values.
  pose proof (sendCommand_frame
                ("VALUE " ++ upper key ++ " " ++ value)%string self)
    as (Fst & Fv & Fsh).
  destruct (sendCommand ("VALUE " ++ upper key ++ " " ++ value)%string self)
    as [[[]|e] self'] eqn:E; simpl in *.
  - unfold mirrors_wf. simpl. rewrite Fst, Fv, Fsh.
    repeat split; try assumption.
    + apply Forall_forall. intros [k v] Hin. simpl.
      rewrite Forall_forall in Hku.
      assert (In k (map fst (dict_set (upper key) value (values self))))
        as Hk by (apply in_map_iff; now exists (k, v)).
      rewrite dict_set_keys in Hk.
      destruct (dict_mem (upper key) (values self)).
      * apply in_map_iff in Hk. destruct Hk as ([k0 v0] & <- & Hk0).
        apply (Hku _ Hk0).
      * apply in_app_or in Hk. destruct Hk as [Hk|[<-|[]]].
        -- apply in_map_iff in Hk. destruct Hk as ([k0 v0] & <- & Hk0).
           apply (Hku _ Hk0).
        -- apply upper_upper.
    + rewrite dict_set_keys.
      destruct (dict_mem (upper key) (values self)) eqn:Em; [assumption|].
      apply NoDup_snoc; [assumption|].
      intros Hin. apply dict_mem_In in Hin. congruence.
  - unfold mirrors_wf. rewrite Fst, Fv, Fsh. now repeat split.
Qed.

(** Adding a show keeps the mirrors well formed. *)
Lemma Shows_add_wf (item : string) (self : session) :
  mirrors_wf self -> mirrors_wf (snd (Shows.add item self)).
Proof.
  intros (Hku & Hkn & Hsu & Hsn & Hst). unfold Shows.add.
  destruct (Shows.set_mem (upper item) (shows self)) eqn:Em; cbn [negb];
    [now repeat split|].
  unfold mbind, set_shows.
  pose proof (sendCommand_frame ("SHOW " ++ upper item)%string self)
    as (Fst & Fv & Fsh).
  destruct (sendCommand ("SHOW " ++ upper item)%string self)
    as [[[]|e] self'] eqn:E; simpl in *.
  - unfold mirrors_wf. simpl. rewrite Fst, Fv, Fsh.
    repeat split; try assumption.
    + apply Forall_app. split; [assumption|].
      constructor; [apply upper_upper|constructor].
    + apply NoDup_snoc; [assumption|].
      intros Hin. unfold Shows.set_mem in Em.
      assert (existsb (String.eqb (upper item)) (shows self) = true) as Hex
        by (apply existsb_exists; exists (upper item); split;
            [assumption|apply String.eqb_refl]).
      congruence.
  - unfold mirrors_wf. rewrite Fst, Fv, Fsh. now repeat split.
Qed.

(** * Further properties *)

(** ** Boundaries and fields *)

Lemma increasing_snoc (l : list nat) (i : nat) :
  increasing l -> Forall (fun a => a < i) l -> increasing (l ++ [i]).
Proof.
  induction l as [|a [|b rest] IH]; simpl; intros Hi Hlt.
  - exact I.
  - inversion Hlt; subst. auto.
  - destruct Hi as [Hab Hi]. inversion Hlt; subst. split; [assumption|].
    apply IH; assumption.
Qed.

Lemma indexes_loop_increasing (header : string) (transitions : list bool) :
  forall i last indexes,
  increasing indexes ->
  Forall (fun a => a < i) indexes ->
  increasing (indexes_loop header i last transitions indexes)
  /\ Forall (fun a => a < i + List.length transitions)
       (indexes_loop header i last transitions indexes).
Proof.
  induction transitions as [|x rest IH]; intros i last indexes Hinc Hlt; simpl.
  - split; [assumption|]. now rewrite Nat.add_0_r.
  - replace (i + S (List.length rest)) with (S i + List.length rest) by lia.
    apply IH.
    + destruct (negb x && last && negb (Ascii.eqb (char_at i header) " "));
        [now apply increasing_snoc|assumption].
    + assert (Forall (fun a => a < S i) indexes) as Hlt'
        by (eapply Forall_impl; [|exact Hlt]; simpl; intros; lia).
      destruct (negb x && last && negb (Ascii.eqb (char_at i header) " "));
        [|assumption].
      apply Forall_app. split; [assumption|]. constructor; [lia|constructor].
Qed.

Lemma transitions_of_length (list_of_lines : list string) :
  List.length (transitions_of list_of_lines) = zip_width list_of_lines.
Proof.
  unfold transitions_of, zip_star. now rewrite !length_map, length_seq.
Qed.

(** X1: the boundaries that [detect_column_indexes] returns grow strictly
    from left to right, and every boundary past the first lies within the
    shortest line of the block. *)
Theorem detect_column_indexes_increasing (list_of_lines : list string) :
  increasing (detect_column_indexes list_of_lines)
  /\ Forall (fun i => i = 0 \/ i < zip_width list_of_lines)
       (detect_column_indexes list_of_lines).
Proof.
  unfold detect_column_indexes.
  pose proof (transitions_of_length list_of_lines) as Hlen.
  destruct (transitions_of list_of_lines) as [|x rest] eqn:Et; simpl.
  - split; [exact I|]. constructor; [now left|constructor].
  - rewrite andb_false_r. simpl.
    destruct (indexes_loop_increasing (hd EmptyString list_of_lines) rest
                1 x [0]) as [Hinc Hlt].
    + exact I.
    + constructor; [lia|constructor].
    + split; [assumption|].
      eapply Forall_impl; [|exact Hlt]. simpl in *. intros a Ha. right. lia.
Qed.

Lemma take_drop (n : nat) (s : string) : (take n s ++ drop n s)%string = s.
Proof.
  revert s. induction n as [|n IH]; intros s; simpl; [reflexivity|].
  destruct s as [|c r]; simpl; [reflexivity|]. now rewrite IH.
Qed.

Lemma drop_empty (n : nat) : drop n EmptyString = EmptyString.
Proof. destruct n; reflexivity. Qed.

Lemma drop_drop (m n : nat) (s : string) : drop n (drop m s) = drop (m + n) s.
Proof.
  revert s. induction m as [|m IH]; intros s; simpl; [reflexivity|].
  destruct s as [|c r]; [apply drop_empty|apply IH].
Qed.

Lemma slice_drop (i1 i2 : nat) (line : string) :
  i1 <= i2 -> (slice i1 i2 line ++ drop i2 line)%string = drop i1 line.
Proof.
  intros H. unfold slice.
  replace (drop i2 line) with (drop (i2 - i1) (drop i1 line))
    by (rewrite drop_drop; f_equal; lia).
  apply take_drop.
Qed.

Lemma tokens_from_pieces (rest : list nat) (line : string) :
  forall i1, tokens_from i1 rest line = map rstrip (pieces_from i1 rest line).
Proof.
  induction rest as [|i2 rest IH]; intros i1; simpl; [reflexivity|].
  now rewrite IH.
Qed.

Lemma pieces_from_length (rest : list nat) (line : string) :
  forall i1, List.length (pieces_from i1 rest line) = S (List.length rest).
Proof.
  induction rest as [|i2 rest IH]; intros i1; simpl; [reflexivity|].
  now rewrite IH.
Qed.

Lemma pieces_from_join (rest : list nat) (line : string) :
  forall i1, increasing (i1 :: rest) ->
  join (pieces_from i1 rest line) = drop i1 line.
Proof.
  induction rest as [|i2 rest IH]; intros i1 Hinc.
  - simpl. unfold join. simpl.
    induction (drop i1 line) as [|c r IHs]; simpl; [reflexivity|].
    now rewrite IHs.
  - destruct Hinc as [Hlt Hinc].
    change (join (pieces_from i1 (i2 :: rest) line))
      with (slice i1 i2 line ++ join (pieces_from i2 rest line))%string.
    rewrite IH by assumption. apply slice_drop. lia.
Qed.

Lemma substring_take_drop (n m : nat) (s : string) :
  substring n m s = take m (drop n s).
Proof.
  revert n m. induction s as [|c r IH]; intros n m.
  - destruct n, m; reflexivity.
  - destruct n as [|n].
    + destruct m as [|m]; simpl; [reflexivity|].
      rewrite (IH 0 m). now destruct r.
    + simpl. apply IH.
Qed.

Lemma take_all (n : nat) (s : string) : String.length s <= n -> take n s = s.
Proof.
  revert n. induction s as [|c r IH]; intros n H; [now destruct n|].
  destruct n as [|n]; simpl in *; [lia|]. rewrite IH; [reflexivity|lia].
Qed.

Lemma length_drop (n : nat) (s : string) :
  String.length (drop n s) = String.length s - n.
Proof.
  revert s. induction n as [|n IH]; intros s; simpl; [lia|].
  destruct s as [|c r]; simpl; [reflexivity|apply IH].
Qed.

Lemma slice_substring (i1 i2 : nat) (line : string) :
  slice i1 i2 line = substring i1 (i2 - i1) line.
Proof. unfold slice. now rewrite substring_take_drop. Qed.

Lemma drop_substring (i : nat) (line : string) :
  drop i line = substring i (String.length line - i) line.
Proof.
  rewrite substring_take_drop, take_all; [reflexivity|].
  rewrite length_drop. lia.
Qed.

(** Piece [k] runs from index [k] to index [k + 1], the last one to the
    end of the line. *)
Lemma pieces_from_nth (rest : list nat) (line : string) :
  forall i1 k, k < S (List.length rest) ->
  nth k (pieces_from i1 rest line) EmptyString
  = substring (nth k (i1 :: rest) 0)
      (nth (S k) (i1 :: rest) (String.length line) - nth k (i1 :: rest) 0)
      line.
Proof.
  induction rest as [|i2 rest IH]; intros i1 k Hk.
  - destruct k as [|k]; [|simpl in Hk; lia]. simpl. apply drop_substring.
  - destruct k as [|k].
    + simpl. apply slice_substring.
    + change (nth (S k) (pieces_from i1 (i2 :: rest) line) EmptyString)
        with (nth k (pieces_from i2 rest line) EmptyString).
      rewrite IH by (simpl in Hk; lia). reflexivity.
Qed.

(** X2: [split_line_by_indexes] returns one token per index: token [k] is
    the text of the line from index [k] up to index [k + 1], the last token
    the text from the last index to the end of the line, each with its
    trailing whitespace removed.  For indexes that grow, the pieces put end
    to end are the line from the first index on: no character is lost or
    read twice. *)
Theorem split_line_by_indexes_fields (indexes : list nat) (line : string) :
  indexes <> [] ->
  exists pieces,
    split_line_by_indexes indexes line = Ok (map rstrip pieces)
    /\ List.length pieces = List.length indexes
    /\ (forall k, k < List.length indexes ->
          nth k pieces EmptyString
          = substring (nth k indexes 0)
              (nth (S k) indexes (String.length line) - nth k indexes 0)
              line)
    /\ (increasing indexes ->
        join pieces
        = substring (hd 0 indexes) (String.length line - hd 0 indexes) line).
Proof.
  intros Hne. destruct indexes as [|i1 rest]; [contradiction|].
  exists (pieces_from i1 rest line). cbn [split_line_by_indexes hd].
  rewrite tokens_from_pieces, pieces_from_length.
  split; [reflexivity|]. split; [reflexivity|]. split.
  - intros k Hk. now apply pieces_from_nth.
  - intros Hinc. rewrite pieces_from_join by assumption.
    apply drop_substring.
Qed.

Lemma split_line_by_indexes_fields_witness :
  exists pieces,
    split_line_by_indexes [0; 8] "GM1+    0,0,0" = Ok (map rstrip pieces)
    /\ List.length pieces = 2
    /\ (forall k, k < 2 ->
          nth k pieces EmptyString
          = substring (nth k [0; 8] 0)
              (nth (S k) [0; 8] 13 - nth k [0; 8] 0) "GM1+    0,0,0")
    /\ (increasing [0; 8] ->
        join pieces = substring 0 13 "GM1+    0,0,0").
Proof.
  apply (split_line_by_indexes_fields [0; 8] "GM1+    0,0,0").
  discriminate.
Defined.

(** The boundaries start at 0 and grow. *)
Lemma detect_column_indexes_shape (list_of_lines : list string) :
  exists more,
    detect_column_indexes list_of_lines = 0 :: more
    /\ increasing (0 :: more).
Proof.
  unfold detect_column_indexes.
  destruct (transitions_of list_of_lines) as [|x rest] eqn:Et.
  - exists []. simpl. auto.
  - cbn [indexes_loop]. rewrite andb_false_r. cbn [andb].
    destruct (indexes_loop_extends (hd EmptyString list_of_lines) rest
                1 x [0]) as [more Hm].
    exists more. split; [exact Hm|].
    change (0 :: more) with ([0] ++ more). rewrite <- Hm.
    apply indexes_loop_increasing; [exact I|].
    constructor; [lia|constructor].
Qed.

(** X3: with the boundaries that [detect_column_indexes] infers from a
    block, splitting any line never raises and cuts the whole line: the
    fields before stripping, put end to end, are the line again, one field
    per boundary. *)
Theorem split_by_detected_indexes (list_of_lines : list string)
    (line : string) :
  exists pieces,
    split_line_by_indexes (detect_column_indexes list_of_lines) line
    = Ok (map rstrip pieces)
    /\ join pieces = line
    /\ List.length pieces
       = List.length (detect_column_indexes list_of_lines).
Proof.
  destruct (detect_column_indexes_shape list_of_lines) as (more & -> & Hinc).
  exists (pieces_from 0 more line). simpl.
  rewrite tokens_from_pieces, pieces_from_length, pieces_from_join
    by assumption.
  auto.
Qed.

(** ** Rows and records *)

Lemma skipn_cons_nth {A : Type} (l : list A) (d : A) :
  forall j, j < List.length l -> skipn j l = nth j l d :: skipn (S j) l.
Proof.
  induction l as [|x xs IH]; intros j H; simpl in H; [lia|].
  destruct j as [|j]; [reflexivity|].
  change (skipn (S j) (x :: xs)) with (skipn j xs).
  change (skipn (S (S j)) (x :: xs)) with (skipn (S j) xs).
  change (nth (S j) (x :: xs) d) with (nth j xs d).
  apply IH. lia.
Qed.

(** A row that starts a record adds the names of its columns to the keys. *)
Lemma cells_loop_new_keys (header row : list string) :
  forall j0 r,
  j0 + List.length row <= List.length header ->
  exists r',
    cells_loop header true (Some r) j0 row = Ok (Some r')
    /\ forall k,
         dict_mem k r' = true
         <-> dict_mem k r = true
             \/ In k (firstn (List.length row) (skipn j0 header)).
Proof.
  induction row as [|p ps IH]; intros j0 r Hlen; simpl in *.
  - exists r. split; [reflexivity|]. intros k. tauto.
  - unfold cell_step. simpl.
    rewrite (index_nth header j0 EmptyString) by lia. simpl.
    destruct (IH (S j0) (dict_set (nth j0 header EmptyString) (Str p) r))
      as (r' & Hr & Hk); [lia|].
    exists r'. split; [exact Hr|]. intros k. rewrite Hk, dict_mem_set.
    rewrite (skipn_cons_nth header EmptyString j0) by lia.
    simpl. rewrite orb_true_iff, String.eqb_eq.
    intuition congruence.
Qed.

(** A continuation row changes values and no key. *)
Lemma cells_loop_continue_keys (header row : list string) :
  forall j0 r,
  j0 + List.length row <= List.length header ->
  all_keys header r ->
  exists r',
    cells_loop header false (Some r) j0 row = Ok (Some r')
    /\ forall k, dict_mem k r' = dict_mem k r.
Proof.
  induction row as [|p ps IH]; intros j0 r Hlen Hall; simpl in *.
  - exists r. auto.
  - unfold cell_step.
    destruct (truthy p); simpl.
    + rewrite (index_nth header j0 EmptyString) by lia. simpl.
      set (h := nth j0 header EmptyString).
      assert (In h header) as Hin by (apply nth_In; lia).
      destruct (dict_mem_true_get _ _ (Hall h Hin)) as [v Hv].
      rewrite Hv. simpl.
      assert (forall w k, dict_mem k (dict_set h w r) = dict_mem k r) as Hsame.
      { intros w k. rewrite dict_mem_set.
        destruct (String.eqb k h) eqn:E; [|apply orb_false_r].
        apply String.eqb_eq in E. subst k. now rewrite (Hall h Hin). }
      destruct v as [s|l]; simpl.
      * destruct (IH (S j0) (dict_set h (List [Str s; Str p]) r))
          as (r' & Hr & Hk); [lia| |].
        { intros k Hk. rewrite Hsame. now apply Hall. }
        exists r'. split; [exact Hr|]. intros k. now rewrite Hk, Hsame.
      * destruct (IH (S j0) (dict_set h (List (l ++ [Str p])) r))
          as (r' & Hr & Hk); [lia| |].
        { intros k Hk. rewrite Hsame. now apply Hall. }
        exists r'. split; [exact Hr|]. intros k. now rewrite Hk, Hsame.
    + apply IH; [lia|assumption].
Qed.

(** A blank row changes nothing, whether a record is open or not. *)
Lemma cells_loop_blank (header row : list string) :
  blank_row row = true ->
  forall cur j0, cells_loop header false cur j0 row = Ok cur.
Proof.
  unfold blank_row. induction row as [|p ps IH]; simpl; intros H cur j0;
    [reflexivity|].
  apply andb_true_iff in H. destruct H as [Hp Hps].
  apply negb_true_iff in Hp. unfold cell_step. rewrite Hp. simpl.
  now apply IH.
Qed.

Lemma blank_row_false (row : list string) :
  blank_row row = false -> exists prop, In prop row /\ truthy prop = true.
Proof.
  unfold blank_row. induction row as [|p ps IH]; simpl; [discriminate|].
  destruct (truthy p) eqn:Ep; simpl.
  - intros _. exists p. auto.
  - intros H. destruct (IH H) as (q & Hq & Ht). exists q. auto.
Qed.

Lemma hd_nth0 {A : Type} (l : list A) (d : A) : hd d l = nth 0 l d.
Proof. destruct l; reflexivity. Qed.

Section rectangular_block.

Variable header : list string.
Hypothesis Hheader : header <> [].

Lemma header_length_pos : 0 < List.length header.
Proof. destruct header; [contradiction|simpl; lia]. Qed.

Lemma row_step_starts (st : rows_state) (row : list string) :
  List.length row = List.length header ->
  truthy (hd EmptyString row) = true ->
  exists r0,
    row_step header st row = Ok (mk_rows (result_list st) (Some r0))
    /\ keys_exact header r0.
Proof.
  intros Hlen H0. pose proof header_length_pos as Hpos.
  unfold row_step. rewrite (index_nth row 0 EmptyString) by lia.
  rewrite hd_nth0 in H0. simpl. rewrite H0. simpl.
  destruct (cells_loop_new_keys header row 0 []) as (r0 & Hr & Hk); [lia|].
  match goal with
  | |- context [cells_loop ?a ?b ?c ?d ?e] =>
      replace (cells_loop a b c d e) with (Ok (Some r0))
        by (symmetry; exact Hr)
  end.
  simpl. exists r0. split; [reflexivity|].
  intros k. rewrite Hk. simpl. rewrite Hlen, firstn_all.
  split; [intros [H|H]; [discriminate|assumption]|auto].
Qed.

Lemma row_step_continues (finished : list dict) (r : dict)
    (row : list string) :
  List.length row = List.length header ->
  truthy (hd EmptyString row) = false ->
  keys_exact header r ->
  exists r',
    row_step header (mk_rows finished (Some r)) row
    = Ok (mk_rows finished (Some r'))
    /\ keys_exact header r'.
Proof.
  intros Hlen H0 Hkeys. pose proof header_length_pos as Hpos.
  unfold row_step. rewrite (index_nth row 0 EmptyString) by lia.
  rewrite hd_nth0 in H0. simpl. rewrite H0. simpl.
  destruct (cells_loop_continue_keys header row 0 r) as (r' & Hr & Hk);
    [lia|intros k Hk; now apply Hkeys|].
  rewrite Hr. simpl. exists r'. split; [reflexivity|].
  intros k. rewrite Hk. apply Hkeys.
Qed.

(** Once a record is open, the rows of a rectangular block go through. *)
Lemma rows_loop_bound (rows : list (list string)) :
  forall finished r,
  rectangular header rows ->
  Forall (keys_exact header) (finished ++ [r]) ->
  exists st',
    rows_loop header (mk_rows finished (Some r)) rows = Ok st'
    /\ Forall (keys_exact header) (result_list st')
    /\ List.length (result_list st')
       = List.length (finished ++ [r]) + List.length (starting_rows rows).
Proof.
  induction rows as [|row rows IH]; intros finished r Hrect Hgood; simpl.
  - eexists. split; [reflexivity|]. unfold result_list. simpl.
    split; [assumption|lia].
  - inversion Hrect as [|? ? Hlen Hrect']; subst.
    destruct (truthy (hd EmptyString row)) eqn:H0.
    + destruct (row_step_starts (mk_rows finished (Some r)) row Hlen H0)
        as (r0 & -> & Hk0).
      simpl. unfold result_list at 1. simpl.
      destruct (IH (finished ++ [r]) r0 Hrect') as (st' & Hst & Hg & Hn).
      { apply Forall_app. split; [assumption|]. now constructor. }
      exists st'. split; [exact Hst|]. split; [assumption|].
      rewrite Hn, !length_app. simpl. lia.
    + assert (keys_exact header r) as Hkr.
      { apply Forall_app in Hgood. destruct Hgood as [_ Hr].
        now inversion Hr. }
      destruct (row_step_continues finished r row Hlen H0 Hkr)
        as (r' & -> & Hk').
      simpl. destruct (IH finished r' Hrect') as (st' & Hst & Hg & Hn).
      { apply Forall_app in Hgood. destruct Hgood as [Hf _].
        apply Forall_app. split; [assumption|]. now constructor. }
      exists st'. split; [exact Hst|]. split; [assumption|].
      rewrite Hn, !length_app. reflexivity.
Qed.

(** The loop over the rows of a rectangular block, from the start. *)
Lemma rows_loop_rectangular (rows : list (list string)) :
  rectangular header rows ->
  (starts_unbound rows = true
   /\ rows_loop header (mk_rows [] None) rows = Raise UnboundLocalError)
  \/ (starts_unbound rows = false
      /\ exists st',
           rows_loop header (mk_rows [] None) rows = Ok st'
           /\ List.length (result_list st')
              = List.length (starting_rows rows)
           /\ Forall (keys_exact header) (result_list st')).
Proof.
  induction rows as [|row rows IH]; intros Hrect.
  - right. split; [reflexivity|]. exists (mk_rows [] None). simpl. auto.
  - inversion Hrect as [|? ? Hlen Hrect']; subst.
    pose proof header_length_pos as Hpos.
    simpl starts_unbound. simpl starting_rows.
    destruct (truthy (hd EmptyString row)) eqn:H0.
    + right. split; [reflexivity|]. simpl rows_loop.
      destruct (row_step_starts (mk_rows [] None) row Hlen H0)
        as (r0 & -> & Hk0).
      simpl. unfold result_list at 1. simpl.
      destruct (rows_loop_bound rows [] r0 Hrect') as (st' & -> & Hg & Hn).
      { now constructor. }
      exists st'. split; [reflexivity|].
      split; [|assumption]. rewrite Hn. simpl. reflexivity.
    + assert (row_step header (mk_rows [] None) row
              = if blank_row row then Ok (mk_rows [] None)
                else Raise UnboundLocalError) as Hstep.
      { unfold row_step. rewrite (index_nth row 0 EmptyString) by lia.
        rewrite hd_nth0 in H0. simpl. rewrite H0. simpl.
        destruct (blank_row row) eqn:Eb.
        - now rewrite cells_loop_blank.
        - now rewrite cells_loop_unbound by now apply blank_row_false. }
      simpl rows_loop. rewrite Hstep.
      destruct (blank_row row); simpl.
      * apply IH. assumption.
      * left. auto.
Qed.

(** X4: on a block whose rows are as wide as its header,
    [detect_multirows_and_split] fails in one way only, with
    [UnboundLocalError], and exactly when a row with an empty first field
    and some token comes before every row that has a first field.
    Otherwise it returns one record per row that has a first field (rows
    of empty tokens are passed over), and the keys of every record are the
    header names. *)
Theorem detect_multirows_rectangular (rows : list (list string)) :
  rectangular header rows ->
  (starts_unbound rows = true
   /\ detect_multirows_and_split (header :: rows) = Raise UnboundLocalError)
  \/ (starts_unbound rows = false
      /\ exists records,
           detect_multirows_and_split (header :: rows) = Ok records
           /\ List.length records = List.length (starting_rows rows)
           /\ Forall (keys_exact header) records).
Proof.
  intros Hrect. unfold detect_multirows_and_split.
  destruct (rows_loop_rectangular rows Hrect)
    as [[Hu ->]|(Hu & st' & -> & Hn & Hk)].
  - left. auto.
  - right. split; [assumption|]. exists (result_list st'). simpl. auto.
Qed.

End rectangular_block.

Lemma detect_multirows_rectangular_witness :
  (starts_unbound [[""; ""]; ["a"; "b"]; [""; "c"]; ["d"; ""]] = true
   /\ detect_multirows_and_split
        (["A"; "B"] :: [[""; ""]; ["a"; "b"]; [""; "c"]; ["d"; ""]])
      = Raise UnboundLocalError)
  \/ (starts_unbound [[""; ""]; ["a"; "b"]; [""; "c"]; ["d"; ""]] = false
      /\ exists records,
           detect_multirows_and_split
             (["A"; "B"] :: [[""; ""]; ["a"; "b"]; [""; "c"]; ["d"; ""]])
           = Ok records
           /\ List.length records
              = List.length
                  (starting_rows [[""; ""]; ["a"; "b"]; [""; "c"]; ["d"; ""]])
           /\ Forall (keys_exact ["A"; "B"]) records).
Proof.
  apply (detect_multirows_rectangular ["A"; "B"]).
  - discriminate.
  - repeat constructor.
Defined.

(** ** What the decomposition raises and returns *)

Lemma convert_raises (n : nat) :
  forall v e, convert n v = Raise e -> e = IndexError \/ e = RecursionError.
Proof.
  induction n as [|n IH]; intros v e H; simpl in H.
  - injection H as <-. now right.
  - destruct v as [s|l]; unfold convert_body in H.
    + destruct (1 <? List.length (re_split "|" s)); [eauto|].
      destruct (1 <? List.length (re_split "," s)); [eauto|].
      destruct (paren_match s).
      * destruct (1 <? List.length (findall_paren s)); [eauto|].
        unfold index in H.
        destruct (nth_error (findall_paren s) 0); simpl in H; [eauto|].
        injection H as <-. now left.
      * destruct (1 <? List.length (str_split s)); [eauto|discriminate].
    + destruct (mapM (convert n) l) as [l'|e'] eqn:El; simpl in H;
        [discriminate|].
      injection H as ->. apply mapM_Raise in El.
      destruct El as (x & _ & Hx). eauto.
Qed.

(** X5: the one exception that [detect_data_form_and_convert] raises is
    [IndexError], from the first element of an empty list of groups. *)
Theorem detect_raises_only_IndexError (prop : value) (e : exn) :
  detect_data_form_and_convert prop = Raise e -> e = IndexError.
Proof.
  intros H. pose proof (detect_never_exhausts prop) as Hne.
  unfold detect_data_form_and_convert in *.
  destruct (convert_raises _ _ _ H) as [->| ->]; [reflexivity|].
  contradiction.
Qed.

Lemma detect_raises_only_IndexError_witness :
  detect_data_form_and_convert (Str "()") = Raise IndexError
  /\ IndexError = IndexError.
Proof.
  split; [vm_compute; reflexivity|].
  apply (detect_raises_only_IndexError (Str "()") IndexError).
  vm_compute. reflexivity.
Defined.

Lemma has_char_push (c a : ascii) (ps : list string) (p : string) :
  In p (push a ps) -> has_char c p = true ->
  Ascii.eqb c a = true \/ exists q, In q ps /\ has_char c q = true.
Proof.
  destruct ps as [|q qs]; simpl.
  - intros [<-|[]]. simpl. rewrite orb_false_r. auto.
  - intros [<-|Hin] Hc.
    + simpl in Hc. apply orb_true_iff in Hc. destruct Hc as [Hc|Hc]; [auto|].
      right. exists q. auto.
    + right. exists p. auto.
Qed.

(** A piece of a split holds characters of the string only. *)
Lemma re_split_from_chars (c d : ascii) (s : string) :
  forall skip p, In p (re_split_from d skip s) -> has_char c p = true ->
  has_char c s = true.
Proof.
  induction s as [|a r IH]; intros skip p; simpl.
  - intros [<-|[]]. discriminate.
  - destruct (skip && isspace a).
    + intros Hin Hc. rewrite (IH _ _ Hin Hc). apply orb_true_r.
    + destruct (Ascii.eqb a d && negb (closes_paren (lstrip r))).
      * intros [<-|Hin] Hc; [discriminate|].
        rewrite (IH _ _ Hin Hc). apply orb_true_r.
      * intros Hin Hc.
        destruct (has_char_push _ _ _ _ Hin Hc) as [->|(q & Hq & Hcq)];
          [reflexivity|].
        rewrite (IH _ _ Hq Hcq). apply orb_true_r.
Qed.

Lemma str_split_chars (c : ascii) (s : string) :
  forall p, In p (str_split s) -> has_char c p = true -> has_char c s = true.
Proof.
  induction s as [|a r IH]; intros p; simpl; [tauto|].
  destruct (isspace a).
  - intros Hin Hc. rewrite (IH _ Hin Hc). apply orb_true_r.
  - destruct (starts_word r).
    + intros Hin Hc.
      destruct (has_char_push _ _ _ _ Hin Hc) as [->|(q & Hq & Hcq)];
        [reflexivity|].
      rewrite (IH _ Hq Hcq). apply orb_true_r.
    + intros [<-|Hin] Hc.
      * simpl in Hc. now rewrite orb_false_r in Hc; rewrite Hc.
      * rewrite (IH _ Hin Hc). apply orb_true_r.
Qed.

Lemma has_char_lstrip (c : ascii) (s : string) :
  has_char c (lstrip s) = true -> has_char c s = true.
Proof.
  induction s as [|a r IH]; simpl; [auto|].
  destruct (isspace a); [|auto].
  intros H. rewrite (IH H). apply orb_true_r.
Qed.

Lemma paren_match_has_open (s : string) :
  paren_match s = true -> has_char "(" s = true.
Proof.
  unfold paren_match. intros H. apply has_char_lstrip.
  destruct (lstrip s) as [|a r]; [discriminate|].
  apply andb_true_iff in H. destruct H as [H _].
  apply Ascii.eqb_eq in H. subst a. reflexivity.
Qed.

Lemma paren_free_strs (ps : list string) :
  (forall p, In p ps -> has_char "(" p = false) ->
  paren_free (List (map Str ps)) = true.
Proof.
  unfold paren_free. induction ps as [|p ps IH]; simpl; intros H;
    [reflexivity|].
  rewrite (H p (or_introl eq_refl)). simpl. apply IH.
  intros q Hq. apply H. now right.
Qed.

Lemma convert_paren_free (n : nat) :
  forall v, paren_free v = true -> convert n v <> Raise IndexError.
Proof.
  induction n as [|n IH]; intros v Hv; simpl; [discriminate|].
  destruct v as [s|l]; unfold convert_body.
  - unfold paren_free in Hv. simpl in Hv. rewrite andb_true_r in Hv.
    apply negb_true_iff in Hv.
    assert (forall d ps, ps = re_split d s ->
            paren_free (List (map Str ps)) = true) as Hsplit.
    { intros d ps ->. apply paren_free_strs. intros p Hp.
      destruct (has_char "(" p) eqn:E; [|reflexivity].
      unfold re_split in Hp.
      rewrite (re_split_from_chars _ _ _ _ _ Hp E) in Hv. discriminate. }
    destruct (1 <? List.length (re_split "|" s)); [apply IH; eauto|].
    destruct (1 <? List.length (re_split "," s)); [apply IH; eauto|].
    destruct (paren_match s) eqn:Ep.
    { apply paren_match_has_open in Ep. congruence. }
    destruct (1 <? List.length (str_split s)); [|discriminate].
    apply IH. apply paren_free_strs. intros p Hp.
    destruct (has_char "(" p) eqn:E; [|reflexivity].
    rewrite (str_split_chars _ _ _ Hp E) in Hv. discriminate.
  - destruct (mapM (convert n) l) as [l'|e] eqn:El; simpl; [discriminate|].
    intros H. injection H as ->. apply mapM_Raise in El.
    destruct El as (x & Hin & Hx). apply (IH x); [|assumption].
    unfold paren_free in *. simpl in Hv.
    rewrite forallb_forall in *. intros a Ha. apply Hv.
    apply in_flat_map. exists x. auto.
Qed.

(** X6: [detect_data_form_and_convert] returns a value for every input
    that holds no opening parenthesis: the only step that can raise is the
    one that unwraps parentheses. *)
Theorem detect_paren_free_returns (prop : value) :
  paren_free prop = true ->
  exists v, detect_data_form_and_convert prop = Ok v.
Proof.
  intros H. destruct (detect_data_form_and_convert prop) as [v|e] eqn:E;
    [now exists v|].
  exfalso. unfold detect_data_form_and_convert in E.
  destruct (convert_raises _ _ _ E) as [->| ->].
  - now apply (convert_paren_free _ _ H) in E.
  - now apply (convert_never_exhausts (depth_bound prop) prop (le_n _)) in E.
Qed.

Lemma detect_paren_free_returns_witness :
  exists v,
    detect_data_form_and_convert (List [Str "a | b,c"; Str "1/2 0)"]) = Ok v.
Proof.
  apply (detect_paren_free_returns (List [Str "a | b,c"; Str "1/2 0)"])).
  reflexivity.
Defined.

Lemma str_split_nil_rstrip (s : string) :
  str_split s = [] -> rstrip s = EmptyString.
Proof.
  induction s as [|c r IH]; [reflexivity|]. simpl str_split.
  destruct (isspace c) eqn:E.
  - intros H. rewrite rstrip_cons, (IH H). simpl. now rewrite E.
  - destruct (starts_word r) eqn:Ew; [|discriminate].
    intros H. apply starts_word_split in Ew.
    destruct (str_split r); [contradiction|discriminate].
Qed.

(** A stripped string with whitespace inside has two tokens at least. *)
Lemma str_split_two (s : string) :
  starts_word s = true -> rstrip s = s -> has_space s = true ->
  2 <= List.length (str_split s).
Proof.
  induction s as [|c r IH]; [discriminate|].
  intros Hw Hr Hs. simpl in Hw. apply negb_true_iff in Hw.
  simpl in Hs. rewrite Hw in Hs. simpl in Hs.
  assert (rstrip r = r) as Hrr.
  { rewrite rstrip_cons in Hr. destruct (truthy (rstrip r)) eqn:Et.
    - now injection Hr.
    - rewrite Hw in Hr. injection Hr as <-. reflexivity. }
  simpl str_split. rewrite Hw.
  destruct (starts_word r) eqn:Ewr.
  - rewrite push_length by now apply starts_word_split. now apply IH.
  - simpl. assert (str_split r <> []) as Hne.
    { intros Hnil. apply str_split_nil_rstrip in Hnil.
      rewrite Hrr in Hnil. subst r. discriminate. }
    destruct (str_split r); [contradiction|simpl; lia].
Qed.

Lemma lstrip_fixed_starts (s : string) :
  lstrip s = s -> s <> EmptyString -> starts_word s = true.
Proof.
  destruct s as [|c r]; [contradiction|]. simpl. intros H _.
  destruct (isspace c); [|reflexivity].
  pose proof (lstrip_length r) as Hl. rewrite H in Hl. simpl in Hl. lia.
Qed.

Lemma strip_fixed (s : string) : strip s = s -> lstrip s = s /\ rstrip s = s.
Proof.
  intros H. split.
  - rewrite <- H at 1. unfold strip. rewrite lstrip_lstrip. exact H.
  - rewrite <- H at 1. unfold strip.
    rewrite rstrip_lstrip, rstrip_rstrip. exact H.
Qed.

Lemma settled_no_space (a : string) : settled a -> has_space a = false.
Proof.
  intros (_ & _ & Hsplit & Hstrip).
  destruct (has_space a) eqn:Es; [|reflexivity].
  destruct (strip_fixed a Hstrip) as [Hl Hr].
  assert (a <> EmptyString) as Hne by (intros ->; discriminate).
  pose proof (str_split_two a (lstrip_fixed_starts a Hl Hne) Hr Es). lia.
Qed.

(** X7: no string at a leaf of a decomposition holds a whitespace
    character: every atom is one token at most, stripped on both sides. *)
Theorem detect_leaves_no_whitespace (prop v : value) (a : string) :
  detect_data_form_and_convert prop = Ok v ->
  In a (leaves v) ->
  has_space a = false.
Proof.
  intros H Hin. unfold detect_data_form_and_convert in H.
  apply convert_leaves_settled in H. rewrite Forall_forall in H.
  apply settled_no_space. now apply H.
Qed.

Lemma detect_leaves_no_whitespace_witness :
  detect_data_form_and_convert (Str " (1/2  3/4)| x ")
  = Ok (List [List [Str "1/2"; Str "3/4"]; Str "x"])
  /\ has_space "3/4" = false.
Proof.
  split; [vm_compute; reflexivity|].
  apply (detect_leaves_no_whitespace (Str " (1/2  3/4)| x ")
           (List [List [Str "1/2"; Str "3/4"]; Str "x"]) "3/4").
  - vm_compute. reflexivity.
  - simpl. auto.
Defined.

Lemma plain_delims (d : ascii) (s : string) :
  (forall c, has_char c s = true -> Ascii.eqb c d = false) ->
  delims d s = 0.
Proof.
  induction s as [|c r IH]; simpl; intros H; [reflexivity|].
  rewrite (H c) by (now rewrite Ascii.eqb_refl).
  simpl. apply IH. intros c' Hc'. apply H. rewrite Hc'. apply orb_true_r.
Qed.

Lemma plain_chars (s : string) (c : ascii) :
  plain s = true -> has_char c s = true ->
  Ascii.eqb c "|" = false /\ Ascii.eqb c "," = false
  /\ Ascii.eqb c "(" = false /\ isspace c = false.
Proof.
  induction s as [|a r IH]; simpl; [discriminate|].
  intros Hp Hc. repeat (apply andb_true_iff in Hp; destruct Hp as [Hp ?]).
  apply orb_true_iff in Hc. destruct Hc as [Hc|Hc]; [|now apply IH].
  apply Ascii.eqb_eq in Hc. subst a.
  repeat match goal with
         | H : negb _ = true |- _ => apply negb_true_iff in H
         end.
  auto.
Qed.

Lemma no_space_strip (s : string) :
  has_space s = false -> str_split s = match s with
                                       | EmptyString => []
                                       | _ => [s]
                                       end
                         /\ lstrip s = s /\ rstrip s = s.
Proof.
  induction s as [|c r IH]; [auto|].
  simpl has_space. intros H. apply orb_false_iff in H. destruct H as [Hc Hr].
  destruct (IH Hr) as (Hsplit & Hl & Hrs).
  simpl str_split. simpl lstrip. rewrite rstrip_cons, Hc, Hrs, Hsplit.
  destruct r as [|c' r']; [auto|].
  simpl in Hr. apply orb_false_iff in Hr. destruct Hr as [Hc' _].
  simpl. rewrite Hc'. simpl. auto.
Qed.

(** X8: a string with no bar, no comma, no opening parenthesis and no
    whitespace is its own decomposition. *)
Theorem detect_plain_atom (s : string) :
  plain s = true ->
  detect_data_form_and_convert (Str s) = Ok (Str s).
Proof.
  intros Hp. apply detect_settled.
  - assert (has_space s = false) as Hs.
    { induction s as [|a r IH]; [reflexivity|]. simpl in *.
      repeat (apply andb_true_iff in Hp; destruct Hp as [Hp ?]).
      match goal with H : negb (isspace a) = true |- _ =>
        apply negb_true_iff in H; rewrite H end.
      simpl. now apply IH. }
    destruct (no_space_strip s Hs) as (Hsplit & Hl & Hr).
    unfold settled, re_split.
    rewrite !re_split_from_length by reflexivity.
    rewrite !plain_delims
      by (intros c Hc; now destruct (plain_chars s c Hp Hc) as (? & ? & ? & ?)).
    rewrite Hsplit. unfold strip. rewrite Hr, Hl.
    repeat split; try lia. destruct s; simpl; lia.
  - destruct (paren_match s) eqn:E; [|reflexivity].
    apply paren_match_has_open in E.
    destruct (plain_chars s "(" Hp E) as (_ & _ & H & _). discriminate.
Qed.

Lemma detect_plain_atom_witness :
  detect_data_form_and_convert (Str "GM1+") = Ok (Str "GM1+").
Proof. apply (detect_plain_atom "GM1+"). reflexivity. Defined.

(** ** The whole pipeline *)

Lemma mapM_Ok_map {A B : Type} (f : A -> outcome B) (g : A -> B)
    (l : list A) :
  (forall x, f x = Ok (g x)) -> mapM f l = Ok (map g l).
Proof.
  intros H. induction l as [|x xs IH]; simpl; [reflexivity|].
  now rewrite H, IH.
Qed.

(** A value either decomposes or raises [IndexError]. *)
Lemma detect_cases (prop : value) :
  (exists v, detect_data_form_and_convert prop = Ok v)
  \/ detect_data_form_and_convert prop = Raise IndexError.
Proof.
  destruct (detect_data_form_and_convert prop) as [v|e] eqn:E; [eauto|].
  right. pose proof (detect_never_exhausts prop) as Hne.
  unfold detect_data_form_and_convert in *.
  destruct (convert_raises _ _ _ E) as [->| ->]; [reflexivity|contradiction].
Qed.

(** The decomposition of a record keeps its keys and their order. *)
Lemma convert_record_cases (r : dict) :
  (exists r', convert_record r = Ok r' /\ map fst r' = map fst r)
  \/ convert_record r = Raise IndexError.
Proof.
  unfold convert_record. induction r as [|[k v] r IH]; simpl.
  - left. exists []. auto.
  - destruct (detect_cases v) as [[w ->]| ->]; simpl; [|now right].
    destruct IH as [(r' & -> & Hk)| ->]; simpl; [|now right].
    left. exists ((k, w) :: r'). simpl. now rewrite Hk.
Qed.

Lemma convert_records_cases (records : list dict) :
  (exists records',
     mapM convert_record records = Ok records'
     /\ Forall2 (fun r r' => map fst r' = map fst r) records records')
  \/ mapM convert_record records = Raise IndexError.
Proof.
  induction records as [|r rs IH]; simpl.
  - left. exists []. auto.
  - destruct (convert_record_cases r) as [(r' & -> & Hk)| ->]; simpl;
      [|now right].
    destruct IH as [(rs' & -> & Hks)| ->]; simpl; [|now right].
    left. exists (r' :: rs'). auto.
Qed.

Lemma keys_exact_same_keys (header : list string) (r r' : dict) :
  map fst r' = map fst r -> keys_exact header r -> keys_exact header r'.
Proof.
  intros Hk Hr k. rewrite <- (Hr k), !dict_mem_In, Hk. tauto.
Qed.

Lemma tokens_from_length (rest : list nat) (line : string) :
  forall i1, List.length (tokens_from i1 rest line) = S (List.length rest).
Proof.
  induction rest as [|i2 rest IH]; intros i1; simpl; [reflexivity|].
  now rewrite IH.
Qed.

(** X9: [_parse_output] splits every line without error, into rows of
    one width.  It raises [UnboundLocalError] exactly when, among the rows
    after the header, a row with an empty first field and some token comes
    before every row that has a first field; on every other block it
    returns or raises [IndexError], from a cell such as [()], and nothing
    else.  When it returns, there is one record per row with a first field,
    and every record has the header names as its keys. *)
Theorem parse_output_outcome (lines : list string) :
  exists split_by_ind,
    mapM (split_line_by_indexes (detect_column_indexes lines)) lines
    = Ok split_by_ind
    /\ Forall (fun row => List.length row
                          = List.length (detect_column_indexes lines))
         split_by_ind
    /\ match _parse_output lines with
       | Ok records =>
           starts_unbound (tl split_by_ind) = false
           /\ List.length records
              = List.length (starting_rows (tl split_by_ind))
           /\ Forall (keys_exact (hd [] split_by_ind)) records
       | Raise e =>
           (e = UnboundLocalError
            /\ starts_unbound (tl split_by_ind) = true)
           \/ (e = IndexError
               /\ starts_unbound (tl split_by_ind) = false)
       end.
Proof.
  unfold _parse_output.
  destruct (detect_column_indexes_shape lines) as (more & -> & _).
  exists (map (tokens_from 0 more) lines).
  assert (mapM (split_line_by_indexes (0 :: more)) lines
          = Ok (map (tokens_from 0 more) lines)) as Hsplit
    by (apply mapM_Ok_map; reflexivity).
  rewrite Hsplit. split; [reflexivity|]. split.
  { apply Forall_forall. intros row Hrow. apply in_map_iff in Hrow.
    destruct Hrow as (l & <- & _). now rewrite tokens_from_length. }
  cbn [bind]. destruct lines as [|l0 ls]; [simpl; auto|].
  cbn [map hd tl]. unfold detect_multirows_and_split.
  assert (tokens_from 0 more l0 <> []) as Hne.
  { intros H. apply (f_equal (@List.length string)) in H.
    rewrite tokens_from_length in H. discriminate. }
  assert (rectangular (tokens_from 0 more l0) (map (tokens_from 0 more) ls))
    as Hrect.
  { apply Forall_forall. intros row Hrow. apply in_map_iff in Hrow.
    destruct Hrow as (l & <- & _). now rewrite !tokens_from_length. }
  destruct (rows_loop_rectangular _ Hne _ Hrect)
    as [[Hu ->]|(Hu & st' & -> & Hn & Hk)]; cbn [bind].
  - left. auto.
  - destruct (convert_records_cases (result_list st'))
      as [(records & -> & Hkeys)| ->]; [|right; auto].
    split; [assumption|]. split.
    + rewrite <- Hn. symmetry. eapply Forall2_length; eauto.
    + clear Hn. induction Hkeys as [|r r' rs rs' Hr _ IH]; [constructor|].
      inversion Hk; subst. constructor; [|now apply IH].
      eapply keys_exact_same_keys; eauto.
Qed.

(** ** Reading and sending *)

Lemma benign_signature (raw : string) :
  benign raw = true <-> signature_of raw = None.
Proof.
  unfold benign, signature_of.
  destruct (re_match bombed (rstrip_newline raw));
    destruct (re_match not_right_handed (rstrip_newline raw));
    destruct (re_match not_a_subgroup (rstrip_newline raw));
    simpl; split; congruence.
Qed.

(** Reading a line always moves the output on by one line, and does
    nothing else to the session. *)
Lemma read_iso_line_effect (self : session) :
  read_iso_line self
  = (match signature_of (hd EmptyString (stdout (iso_process self))) with
     | Some e => Raise e
     | None => Ok (rstrip_newline (hd EmptyString (stdout (iso_process self))))
     end,
     with_process (after_read (iso_process self)) self).
Proof.
  unfold read_iso_line, readline, mbind, raise, ret, signature_of,
    with_process, after_read.
  destruct self as [[out inp br kd] st vs sh]. simpl.
  destruct out as [|raw rest]; simpl.
  - reflexivity.
  - destruct (re_match bombed (rstrip_newline raw)); [reflexivity|].
    destruct (re_match not_right_handed (rstrip_newline raw)); [reflexivity|].
    destruct (re_match not_a_subgroup (rstrip_newline raw)); reflexivity.
Qed.

Lemma fed_one (command : string) (p : process) :
  fed [command] p
  = mk_process (tl (stdout p)) (stdin p ++ [(command ++ nl)%string])
      (broken p) (killed p).
Proof. unfold fed, line. simpl. destruct (stdout p); reflexivity. Qed.

(** What a command does, case by case. *)
Lemma sendCommand_cases (command : string) (self : session) :
  sendCommand command self
  = match signature_of (hd EmptyString (stdout (iso_process self))) with
    | Some e => (Raise e, with_process (after_read (iso_process self)) self)
    | None =>
        if broken (iso_process self)
        then (Raise BrokenPipeError,
              with_process (after_read (iso_process self)) self)
        else (Ok tt, with_process (fed [command] (iso_process self)) self)
    end.
Proof.
  unfold sendCommand, mbind. rewrite read_iso_line_effect.
  destruct (signature_of (hd EmptyString (stdout (iso_process self))));
    [reflexivity|].
  unfold write, with_process, after_read. simpl.
  destruct (broken (iso_process self)) eqn:Eb; [reflexivity|].
  rewrite fed_one, Eb. reflexivity.
Qed.

(** X10: for a command of 7-bit text, which is what line 218 can encode,
    [sendCommand] reads one line of output whatever happens, and never
    touches the mirrors.  It writes the command, and nothing else, exactly
    when the line read carries no failure signature and the pipe is open;
    otherwise it raises and writes nothing. *)
Theorem sendCommand_effect (command : string) (self : session) :
  isascii command = true ->
  let p := iso_process self in
  let p' := iso_process (snd (sendCommand command self)) in
  stdout p' = tl (stdout p)
  /\ setting (snd (sendCommand command self)) = setting self
  /\ values (snd (sendCommand command self)) = values self
  /\ shows (snd (sendCommand command self)) = shows self
  /\ ((fst (sendCommand command self) = Ok tt
       /\ benign (hd EmptyString (stdout p)) = true /\ broken p = false
       /\ stdin p' = stdin p ++ [(command ++ nl)%string])
      \/ ((exists e, fst (sendCommand command self) = Raise e)
          /\ (benign (hd EmptyString (stdout p)) = false \/ broken p = true)
          /\ stdin p' = stdin p)).
Proof.
  intros _ p p'. subst p p'. rewrite sendCommand_cases.
  pose proof (benign_signature (hd EmptyString (stdout (iso_process self))))
    as Hb.
  destruct (signature_of (hd EmptyString (stdout (iso_process self))))
    as [e|] eqn:Es.
  - simpl. repeat split. right. split; [eauto|]. split; [|reflexivity].
    left. destruct (benign _); [|reflexivity].
    destruct Hb as [Hb _]. specialize (Hb eq_refl). discriminate.
  - destruct (broken (iso_process self)) eqn:Eb.
    + simpl. repeat split. right. split; [eauto|]. auto.
    + rewrite fed_one. simpl. repeat split.
      left. repeat split. now apply Hb.
Qed.

Lemma sendCommand_effect_witness :
  stdout (iso_process
            (snd (sendCommand "SHOW IRREP" (idle_session ["*"; "next"]))))
  = ["next"]
  /\ setting (snd (sendCommand "SHOW IRREP" (idle_session ["*"; "next"])))
     = ["INTERNATIONAL"]
  /\ values (snd (sendCommand "SHOW IRREP" (idle_session ["*"; "next"]))) = []
  /\ shows (snd (sendCommand "SHOW IRREP" (idle_session ["*"; "next"]))) = []
  /\ ((fst (sendCommand "SHOW IRREP" (idle_session ["*"; "next"])) = Ok tt
       /\ benign "*" = true /\ false = false
       /\ stdin (iso_process
                   (snd (sendCommand "SHOW IRREP"
                           (idle_session ["*"; "next"]))))
          = [] ++ [("SHOW IRREP" ++ nl)%string])
      \/ ((exists e,
             fst (sendCommand "SHOW IRREP" (idle_session ["*"; "next"]))
             = Raise e)
          /\ (benign "*" = false \/ false = true)
          /\ stdin (iso_process
                      (snd (sendCommand "SHOW IRREP"
                              (idle_session ["*"; "next"]))))
             = [])).
Proof.
  apply (sendCommand_effect "SHOW IRREP" (idle_session ["*"; "next"])).
  reflexivity.
Defined.

(** ** The mirrors *)

Lemma set_mem_In (item : string) (s : list string) :
  Shows.set_mem item s = true <-> In item s.
Proof.
  unfold Shows.set_mem. rewrite existsb_exists. split.
  - intros (x & Hx & Heq). apply String.eqb_eq in Heq. now subst.
  - intros H. exists item. split; [assumption|apply String.eqb_refl].
Qed.

Lemma set_mem_snoc (item : string) (s : list string) :
  Shows.set_mem item (s ++ [item]) = true.
Proof. apply set_mem_In, in_or_app. right. now left. Qed.

(** X11: the show set is case-insensitive and sends nothing twice: after
    a call of [Shows.add] that returned, the name is in the set under any
    spelling of its letters, and adding it again under any spelling
    changes nothing and sends nothing; a name that was new was sent in
    exactly one [SHOW] command, in upper case. *)
Theorem Shows_add_case_dedup (self self1 : session) (item1 item2 : string) :
  upper item1 = upper item2 ->
  Shows.add item1 self = (Ok tt, self1) ->
  Shows.add item2 self1 = (Ok tt, self1)
  /\ Shows_contains item2 self1 = (Ok true, self1)
  /\ (Shows.set_mem (upper item1) (shows self) = false ->
      stdin (iso_process self1)
      = stdin (iso_process self) ++ [(("SHOW " ++ upper item1) ++ nl)%string]
      /\ shows self1 = shows self ++ [upper item1])
  /\ (Shows.set_mem (upper item1) (shows self) = true -> self1 = self).
Proof.
  intros Hk H1. unfold Shows.add, Shows_contains in *. rewrite <- Hk.
  destruct (Shows.set_mem (upper item1) (shows self)) eqn:Em; cbn [negb] in H1.
  - unfold ret in H1. injection H1 as <-. rewrite Em. simpl.
    repeat split; congruence.
  - unfold mbind, set_shows in H1.
    destruct (sendCommand ("SHOW " ++ upper item1)%string self)
      as [[[]|e] self'] eqn:E; [|discriminate].
    apply sendCommand_Ok in E. destruct E as (Hin & _ & Hst & Hv & Hsh).
    injection H1 as <-. simpl. rewrite Hsh, set_mem_snoc. simpl.
    repeat split; try assumption; discriminate.
Qed.

Lemma Shows_add_case_dedup_witness :
  Shows.add "KPOINT" (snd (Shows.add "kpoint" (idle_session ["*"])))
  = (Ok tt, snd (Shows.add "kpoint" (idle_session ["*"])))
  /\ Shows_contains "KPOINT" (snd (Shows.add "kpoint" (idle_session ["*"])))
     = (Ok true, snd (Shows.add "kpoint" (idle_session ["*"])))
  /\ (Shows.set_mem (upper "kpoint") (shows (idle_session ["*"])) = false ->
      stdin (iso_process (snd (Shows.add "kpoint" (idle_session ["*"]))))
      = stdin (iso_process (idle_session ["*"]))
        ++ [(("SHOW " ++ upper "kpoint") ++ nl)%string]
      /\ shows (snd (Shows.add "kpoint" (idle_session ["*"])))
         = shows (idle_session ["*"]) ++ [upper "kpoint"])
  /\ (Shows.set_mem (upper "kpoint") (shows (idle_session ["*"])) = true ->
      snd (Shows.add "kpoint" (idle_session ["*"])) = idle_session ["*"]).
Proof.
  apply (Shows_add_case_dedup (idle_session ["*"])
           (snd (Shows.add "kpoint" (idle_session ["*"])))
           "kpoint" "KPOINT").
  - reflexivity.
  - reflexivity.
Defined.

Lemma filter_neq_notin (item : string) (s : list string) :
  ~ In item s -> filter (fun x => negb (String.eqb item x)) s = s.
Proof.
  induction s as [|x xs IH]; simpl; intros H; [reflexivity|].
  destruct (String.eqb item x) eqn:E.
  - apply String.eqb_eq in E. subst. tauto.
  - simpl. rewrite IH; tauto.
Qed.

Lemma filter_neq_gone (item : string) (s : list string) :
  Shows.set_mem item (filter (fun x => negb (String.eqb item x)) s) = false.
Proof.
  destruct (Shows.set_mem item _) eqn:E; [|reflexivity].
  apply set_mem_In, filter_In in E. destruct E as [_ E].
  rewrite String.eqb_refl in E. discriminate.
Qed.

Lemma sendCommand_not_ValueError (command : string) (self self' : session)
    (e : exn) :
  sendCommand command self = (Raise e, self') -> exn_eqb e ValueError = false.
Proof.
  rewrite sendCommand_cases. unfold signature_of.
  repeat match goal with
         | |- context [if ?b then _ else _] => destruct b
         end;
    intros H; inversion H; reflexivity.
Qed.

(** For a name that the set holds, [discard] is the removal followed by
    the command. *)
Lemma Shows_discard_unfold (self : session) (item : string) :
  Shows.set_mem (upper item) (shows self) = true ->
  Shows.discard item self
  = sendCommand ("CANCEL SHOW " ++ upper item)%string
      (mk_session (iso_process self) (setting self) (values self)
         (filter (fun x => negb (String.eqb (upper item) x)) (shows self))).
Proof.
  intros Hm.
  unfold Shows.discard, try_catch, mbind, lift, Shows.set_remove, set_shows.
  rewrite Hm.
  destruct (sendCommand ("CANCEL SHOW " ++ upper item)%string _)
    as [[[]|e] s'] eqn:E; [reflexivity|].
  now rewrite (sendCommand_not_ValueError _ _ _ _ E).
Qed.

(** X12: for a name that the show set holds, [Shows.discard] takes the
    name out of the set first and sends [CANCEL SHOW] after: the name is
    gone from the mirror whether the command went through or raised, and
    the result of [discard] is the result of the command. *)
Theorem Shows_discard_present (self : session) (item : string) :
  Shows.set_mem (upper item) (shows self) = true ->
  let removed :=
    mk_session (iso_process self) (setting self) (values self)
      (filter (fun x => negb (String.eqb (upper item) x)) (shows self)) in
  Shows.discard item self
  = sendCommand ("CANCEL SHOW " ++ upper item)%string removed
  /\ Shows.set_mem (upper item) (shows (snd (Shows.discard item self)))
     = false.
Proof.
  intros Hm removed.
  assert (Shows.discard item self
          = sendCommand ("CANCEL SHOW " ++ upper item)%string removed) as Heq
    by now apply Shows_discard_unfold.
  split; [exact Heq|]. rewrite Heq.
  destruct (sendCommand_frame ("CANCEL SHOW " ++ upper item)%string removed)
    as (_ & _ & ->).
  apply filter_neq_gone.
Qed.

Lemma Shows_discard_present_witness :
  Shows.discard "kpoint"
    (mk_session (mk_process ["*"] [] false false) ["INTERNATIONAL"] []
       ["IRREP"; "KPOINT"])
  = sendCommand ("CANCEL SHOW " ++ upper "kpoint")%string
      (mk_session (mk_process ["*"] [] false false) ["INTERNATIONAL"] []
         (filter (fun x => negb (String.eqb (upper "kpoint") x))
            ["IRREP"; "KPOINT"]))
  /\ Shows.set_mem (upper "kpoint")
       (shows (snd (Shows.discard "kpoint"
                      (mk_session (mk_process ["*"] [] false false)
                         ["INTERNATIONAL"] [] ["IRREP"; "KPOINT"]))))
     = false.
Proof.
  apply (Shows_discard_present
           (mk_session (mk_process ["*"] [] false false) ["INTERNATIONAL"] []
              ["IRREP"; "KPOINT"]) "kpoint").
  reflexivity.
Defined.

(** X13: a value that was set is read back under any spelling of the
    letters of its key, and the values of the other keys are what they
    were. *)
Theorem Values_set_get (self self1 : session) (key key' value : string) :
  upper key' = upper key ->
  Values.__setitem__ key value self = (Ok tt, self1) ->
  Values.__getitem__ key' self1 = (Ok value, self1)
  /\ (forall other,
        upper other <> upper key ->
        fst (Values.__getitem__ other self1)
        = fst (Values.__getitem__ other self)).
Proof.
  intros Hk H1. unfold Values.__getitem__, lift. rewrite Hk.
  unfold Values.__setitem__ in H1.
  destruct (negb (dict_mem (upper key) (values self)) || _) eqn:Ec.
  - unfold mbind, set_values in H1.
    destruct (sendCommand ("VALUE " ++ upper key ++ " " ++ value)%string self)
      as [[[]|e] self'] eqn:E; [|discriminate].
    apply sendCommand_Ok in E. destruct E as (_ & _ & _ & Hv & _).
    injection H1 as <-. simpl. rewrite Hv, dict_get_set.
    split; [reflexivity|]. intros other Hne.
    now rewrite dict_get_set_other.
  - apply setitem_test_false in Ec. unfold ret in H1. injection H1 as <-.
    rewrite Ec. auto.
Qed.

Lemma Values_set_get_witness :
  Values.__getitem__ "Irrep"
    (snd (Values.__setitem__ "irrep" "GM1+" (idle_session ["*"])))
  = (Ok "GM1+", snd (Values.__setitem__ "irrep" "GM1+" (idle_session ["*"])))
  /\ (forall other,
        upper other <> upper "irrep" ->
        fst (Values.__getitem__ other
               (snd (Values.__setitem__ "irrep" "GM1+" (idle_session ["*"]))))
        = fst (Values.__getitem__ other (idle_session ["*"]))).
Proof.
  apply (Values_set_get (idle_session ["*"])
           (snd (Values.__setitem__ "irrep" "GM1+" (idle_session ["*"])))
           "irrep" "Irrep" "GM1+").
  - reflexivity.
  - reflexivity.
Defined.

Lemma dict_del_present {V : Type} (k : string) (d : pydict V) :
  dict_mem k d = true -> exists d', dict_del k d = Ok d'.
Proof.
  induction d as [|[k' v'] d IH]; simpl; [discriminate|].
  destruct (String.eqb k k'); simpl; [eauto|].
  intros H. destruct (IH H) as [d' ->]. simpl. eauto.
Qed.

Lemma dict_del_In {V : Type} (k : string) (d d' : pydict V) :
  dict_del k d = Ok d' -> forall x, In x d' -> In x d.
Proof.
  revert d'. induction d as [|[k' v'] d IH]; simpl; intros d' H;
    [discriminate|].
  destruct (String.eqb k k').
  - injection H as <-. auto.
  - destruct (dict_del k d) as [d''|e]; simpl in H; [|discriminate].
    injection H as <-. intros x [<-|Hx]; [auto|]. right. eapply IH; eauto.
Qed.

Lemma dict_del_NoDup {V : Type} (k : string) (d d' : pydict V) :
  dict_del k d = Ok d' -> NoDup (map fst d) ->
  NoDup (map fst d') /\ dict_mem k d' = false.
Proof.
  revert d'. induction d as [|[k' v'] d IH]; simpl; intros d' H Hnd;
    [discriminate|].
  inversion Hnd as [|? ? Hnotin Hnd']; subst.
  destruct (String.eqb k k') eqn:E.
  - injection H as <-. apply String.eqb_eq in E. subst k'.
    split; [assumption|]. now apply dict_mem_notin.
  - destruct (dict_del k d) as [d''|e] eqn:Ed; simpl in H; [|discriminate].
    injection H as <-. destruct (IH d'' eq_refl Hnd') as [Hn Hm].
    split.
    + simpl. constructor; [|assumption]. intros Hin. apply Hnotin.
      apply in_map_iff in Hin. destruct Hin as (x & Hx & Hin).
      apply in_map_iff. exists x. split; [assumption|].
      eapply dict_del_In; eauto.
    + simpl. now rewrite E, Hm.
Qed.

Lemma dict_del_other {V : Type} (k other : string) (d d' : pydict V) :
  dict_del k d = Ok d' -> other <> k -> dict_get other d' = dict_get other d.
Proof.
  revert d'. induction d as [|[k' v'] d IH]; simpl; intros d' H Hne;
    [discriminate|].
  destruct (String.eqb k k') eqn:E.
  - injection H as <-. apply String.eqb_eq in E. subst k'.
    destruct (String.eqb other k) eqn:E'; [|reflexivity].
    apply String.eqb_eq in E'. contradiction.
  - destruct (dict_del k d) as [d''|e] eqn:Ed; simpl in H; [|discriminate].
    injection H as <-. simpl. destruct (String.eqb other k'); [reflexivity|].
    now apply IH.
Qed.

(** X14: for a key that the value map holds, [Values.__delitem__] sends
    [CANCEL VALUE] first: when the command goes through the key is gone
    and the other keys keep their values, and when the command raises the
    map is left as it was. *)
Theorem Values_delitem_present (self : session) (key : string) :
  NoDup (map fst (values self)) ->
  dict_mem (upper key) (values self) = true ->
  let sent := sendCommand ("CANCEL VALUE " ++ upper key)%string self in
  fst (Values.__delitem__ key self) = fst sent
  /\ (fst sent = Ok tt ->
      dict_mem (upper key) (values (snd (Values.__delitem__ key self)))
      = false
      /\ (forall other,
            other <> upper key ->
            dict_get other (values (snd (Values.__delitem__ key self)))
            = dict_get other (values self))
      /\ stdin (iso_process (snd (Values.__delitem__ key self)))
         = stdin (iso_process self)
           ++ [(("CANCEL VALUE " ++ upper key) ++ nl)%string])
  /\ (fst sent <> Ok tt ->
      values (snd (Values.__delitem__ key self)) = values self).
Proof.
  intros Hnd Hm sent. subst sent.
  unfold Values.__delitem__, mbind, lift, set_values.
  pose proof (sendCommand_frame ("CANCEL VALUE " ++ upper key)%string self)
    as (_ & Fv & _).
  destruct (sendCommand ("CANCEL VALUE " ++ upper key)%string self)
    as [[[]|e] self'] eqn:E; simpl in *.
  - rewrite Fv. destruct (dict_del_present _ _ Hm) as [d' Hd].
    rewrite Hd. simpl. split; [reflexivity|]. split; [|congruence].
    intros _. destruct (dict_del_NoDup _ _ _ Hd Hnd) as [_ Hgone].
    split; [assumption|]. split.
    + intros other Hne. eapply dict_del_other; eauto.
    + apply sendCommand_Ok in E. tauto.
  - split; [reflexivity|]. split; [discriminate|]. auto.
Qed.

Lemma Values_delitem_present_witness :
  let self :=
    mk_session (mk_process ["*"] [] false false) ["INTERNATIONAL"]
      [("PARENT", "221"); ("IRREP", "GM1+")] [] in
  let sent := sendCommand ("CANCEL VALUE " ++ upper "irrep")%string self in
  fst (Values.__delitem__ "irrep" self) = fst sent
  /\ (fst sent = Ok tt ->
      dict_mem (upper "irrep")
        (values (snd (Values.__delitem__ "irrep" self))) = false
      /\ (forall other,
            other <> upper "irrep" ->
            dict_get other (values (snd (Values.__delitem__ "irrep" self)))
            = dict_get other (values self))
      /\ stdin (iso_process (snd (Values.__delitem__ "irrep" self)))
         = stdin (iso_process self)
           ++ [(("CANCEL VALUE " ++ upper "irrep") ++ nl)%string])
  /\ (fst sent <> Ok tt ->
      values (snd (Values.__delitem__ "irrep" self)) = values self).
Proof.
  intros self.
  apply (Values_delitem_present self "irrep").
  - repeat constructor; simpl; intuition discriminate.
  - reflexivity.
Defined.

Lemma Values_delitem_wf (key : string) (self : session) :
  mirrors_wf self -> mirrors_wf (snd (Values.__delitem__ key self)).
Proof.
  intros (Hku & Hkn & Hsu & Hsn & Hst).
  unfold Values.__delitem__, mbind, lift, set_values.
  pose proof (sendCommand_frame ("CANCEL VALUE " ++ upper key)%string self)
    as (Fst & Fv & Fsh).
  destruct (sendCommand ("CANCEL VALUE " ++ upper key)%string self)
    as [[[]|e] self'] eqn:E; simpl in *.
  - rewrite Fv.
    destruct (dict_del (upper key) (values self)) as [d'|e] eqn:Ed; simpl.
    + unfold mirrors_wf. simpl. rewrite Fst, Fsh.
      repeat split; try assumption.
      * rewrite Forall_forall in *. intros x Hx. apply Hku.
        eapply dict_del_In; eauto.
      * eapply dict_del_NoDup; eauto.
    + unfold mirrors_wf. rewrite Fst, Fv, Fsh. now repeat split.
  - unfold mirrors_wf. rewrite Fst, Fv, Fsh. now repeat split.
Qed.

Lemma Shows_discard_absent_raises_eq (self : session) (item : string) :
  Shows.set_mem (upper item) (shows self) = false ->
  snd (Shows.discard item self) = self.
Proof.
  intros H. unfold Shows.discard, try_catch, mbind, lift, Shows.set_remove.
  rewrite H. reflexivity.
Qed.

Lemma Shows_discard_wf (item : string) (self : session) :
  mirrors_wf self -> mirrors_wf (snd (Shows.discard item self)).
Proof.
  intros (Hku & Hkn & Hsu & Hsn & Hst).
  destruct (Shows.set_mem (upper item) (shows self)) eqn:Em.
  - rewrite (Shows_discard_unfold self item Em).
    set (removed := mk_session (iso_process self) (setting self) (values self)
                      (filter (fun x => negb (String.eqb (upper item) x))
                         (shows self))).
    pose proof (sendCommand_frame ("CANCEL SHOW " ++ upper item)%string
                  removed) as (Fst & Fv & Fsh).
    unfold mirrors_wf. rewrite Fst, Fv, Fsh. unfold removed. simpl.
    repeat split; try assumption.
    + rewrite Forall_forall in *. intros x Hx. apply Hsu.
      now apply filter_In in Hx.
    + now apply NoDup_filter.
  - rewrite (Shows_discard_absent_raises_eq self item Em). now repeat split.
Qed.

Lemma clearAll_wf (self : session) :
  mirrors_wf self ->
  mirrors_wf (snd (Values.clearAll self))
  /\ mirrors_wf (snd (Shows.clearAll self)).
Proof.
  intros (Hku & Hkn & Hsu & Hsn & Hst).
  unfold Values.clearAll, Shows.clearAll, mbind, set_values, set_shows.
  pose proof (sendCommand_frame "CANCEL VALUE ALL" self) as (Fst & Fv & Fsh).
  pose proof (sendCommand_frame "CANCEL SHOW ALL" self) as (Gst & Gv & Gsh).
  split.
  - destruct (sendCommand "CANCEL VALUE ALL" self) as [[[]|e] s'];
      simpl in *; unfold mirrors_wf; simpl; rewrite ?Fst, ?Fv, ?Fsh;
      repeat split; try assumption; constructor.
  - destruct (sendCommand "CANCEL SHOW ALL" self) as [[[]|e] s'];
      simpl in *; unfold mirrors_wf; simpl; rewrite ?Gst, ?Gv, ?Gsh;
      repeat split; try assumption; constructor.
Qed.

(** X15: every method that changes a mirror keeps it well formed, whether
    its command goes through or raises: the keys of the value map and the
    names of the show set stay in upper case and without repetition. *)
Theorem mirrors_stay_well_formed (self : session) (key value item : string) :
  mirrors_wf self ->
  mirrors_wf (snd (Values.__setitem__ key value self))
  /\ mirrors_wf (snd (Values.__delitem__ key self))
  /\ mirrors_wf (snd (Values.clearAll self))
  /\ mirrors_wf (snd (Shows.add item self))
  /\ mirrors_wf (snd (Shows.discard item self))
  /\ mirrors_wf (snd (Shows.clearAll self)).
Proof.
  intros H. destruct (clearAll_wf self H) as [Hv Hs].
  refine (conj _ (conj _ (conj Hv (conj _ (conj _ Hs))))).
  - now apply Values_setitem_wf.
  - now apply Values_delitem_wf.
  - now apply Shows_add_wf.
  - now apply Shows_discard_wf.
Qed.

Lemma mirrors_stay_well_formed_witness :
  let self :=
    mk_session (mk_process ["*"] [] false false) ["INTERNATIONAL"]
      [("PARENT", "221")] ["KPOINT"] in
  mirrors_wf (snd (Values.__setitem__ "irrep" "GM1+" self))
  /\ mirrors_wf (snd (Values.__delitem__ "irrep" self))
  /\ mirrors_wf (snd (Values.clearAll self))
  /\ mirrors_wf (snd (Shows.add "Irrep" self))
  /\ mirrors_wf (snd (Shows.discard "Irrep" self))
  /\ mirrors_wf (snd (Shows.clearAll self)).
Proof.
  intros self. apply (mirrors_stay_well_formed self "irrep" "GM1+" "Irrep").
  unfold mirrors_wf. simpl.
  repeat split; repeat constructor; simpl; intuition discriminate.
Defined.


(** ** Collecting a response *)

Lemma shrinks_read : shrinks read_iso_line.
Proof.
  intros self. rewrite read_iso_line_effect. simpl.
  destruct (stdout (iso_process self)); simpl; lia.
Qed.

Lemma shrinks_sendCommand (command : string) : shrinks (sendCommand command).
Proof.
  intros self. rewrite sendCommand_cases.
  destruct (signature_of _); [|destruct (broken _)]; simpl;
    destruct (stdout (iso_process self)); simpl; lia.
Qed.

Lemma shrinks_bind {A B : Type} (m : M A) (k : A -> M B) :
  shrinks m -> (forall a, shrinks (k a)) -> shrinks (mbind m k).
Proof.
  intros Hm Hk self. unfold mbind. specialize (Hm self).
  destruct (m self) as [[a|e] self']; simpl in *; [|assumption].
  specialize (Hk a self'). lia.
Qed.

Lemma shrinks_ret {A : Type} (a : A) : shrinks (ret a).
Proof. intros self. simpl. lia. Qed.

Lemma shrinks_read_past (n : nat) : shrinks (read_past n).
Proof.
  induction n as [|n IH]; simpl; [apply shrinks_ret|].
  apply shrinks_bind; [apply shrinks_read|auto].
Qed.

Lemma shrinks_first_result (n : nat) (lines : list string) :
  shrinks (first_result n lines).
Proof.
  induction n as [|n IH]; simpl; [apply shrinks_ret|].
  apply shrinks_bind; [apply shrinks_read|].
  intros a. destruct (negb (is_prompt a)); [apply shrinks_ret|assumption].
Qed.

Lemma shrinks_answer_prompt (skip : nat) (lines : list string) :
  shrinks (answer_prompt skip lines).
Proof.
  unfold answer_prompt.
  apply shrinks_bind; [apply shrinks_read_past|]. intros _.
  apply shrinks_bind; [apply shrinks_sendCommand|]. intros _.
  apply shrinks_bind; [apply shrinks_read|]. intros _.
  apply shrinks_first_result.
Qed.

(** The loop ends within one turn more than the engine has lines. *)
Lemma display_loop_returns (turns : nat) :
  forall lines self,
  List.length (stdout (iso_process self)) < turns ->
  display_loop turns lines self <> None.
Proof.
  induction turns as [|k IH]; intros lines self Hlen; [lia|].
  simpl. rewrite read_iso_line_effect.
  destruct (signature_of (hd EmptyString (stdout (iso_process self))));
    [discriminate|].
  destruct (is_prompt (rstrip_newline
                         (hd EmptyString (stdout (iso_process self)))))
    eqn:Ep; [discriminate|].
  assert (List.length (stdout (iso_process
            (with_process (after_read (iso_process self)) self))) < k)
    as Hless.
  { simpl. revert Ep Hlen.
    destruct (stdout (iso_process self)) as [|raw rest];
      [simpl; discriminate|simpl; intros; lia]. }
  assert (forall n,
            match answer_prompt n lines
                    (with_process (after_read (iso_process self)) self) with
            | (Raise e, self'') => Some (Raise e, self'')
            | (Ok lines', self'') => display_loop k lines' self''
            end <> None) as Hdialog.
  { intros n.
    pose proof (shrinks_answer_prompt n lines
                  (with_process (after_read (iso_process self)) self)) as Hs.
    destruct (answer_prompt n lines _) as [[lines'|e] self''];
      [|discriminate].
    apply IH. simpl in Hs, Hless. lia. }
  destruct (re_match REQUESTED _); [apply Hdialog|].
  destruct (re_match COUPLED _); [apply Hdialog|].
  apply IH. exact Hless.
Qed.

(** X17: in this model of the engine, where a used up output reads as
    empty lines, [getDisplayData] always comes back, with a result or an
    exception: every turn of its loop reads at least one line, and the
    empty line ends it. *)
Theorem getDisplayData_returns (display : string) (raw : bool)
    (self : session) :
  exists r self', getDisplayData display raw self = Some (r, self').
Proof.
  unfold getDisplayData.
  destruct (sendCommand ("DISPLAY " ++ display)%string self)
    as [[[]|e] self1]; [|eauto].
  pose proof (display_loop_returns
                (S (List.length (stdout (iso_process self1)))) [] self1
                (Nat.lt_succ_diag_r _)) as Hret.
  destruct (display_loop _ [] self1) as [[[lines|e] self2]|];
    [|eauto|contradiction].
  destruct raw; [eauto|]. destruct (_parse_output lines); eauto.
Qed.

Lemma read_cons (raw : string) (rest inp : list string) (br kd : bool)
    (st : list string) (vs : pydict string) (sh : list string) :
  read_iso_line (mk_session (mk_process (raw :: rest) inp br kd) st vs sh)
  = (match signature_of raw with
     | Some e => Raise e
     | None => Ok (rstrip_newline raw)
     end,
     mk_session (mk_process rest inp br kd) st vs sh).
Proof. now rewrite read_iso_line_effect. Qed.

Lemma is_prompt_benign (raw : string) :
  is_prompt (rstrip_newline raw) = true -> signature_of raw = None.
Proof.
  unfold is_prompt, signature_of. intros H.
  apply orb_true_iff in H. destruct H as [H|H]; apply String.eqb_eq in H;
    rewrite H; reflexivity.
Qed.

Lemma kept_line_parts (raw : string) :
  kept_line raw = true ->
  signature_of raw = None
  /\ is_prompt (rstrip_newline raw) = false
  /\ re_match REQUESTED (rstrip_newline raw) = false
  /\ re_match COUPLED (rstrip_newline raw) = false.
Proof.
  unfold kept_line. intros H.
  apply andb_true_iff in H. destruct H as [H Hc].
  apply andb_true_iff in H. destruct H as [H Hq].
  apply andb_true_iff in H. destruct H as [H Hp].
  apply negb_true_iff in Hc, Hq, Hp.
  apply benign_signature in H. auto.
Qed.

(** The loop keeps the lines of a plain response up to the line that
    stops it, or up to the line that raises. *)
Lemma display_loop_kept (body : list string) (last : string)
    (rest inp : list string) (br kd : bool) (st : list string)
    (vs : pydict string) (sh : list string) :
  Forall (fun raw => kept_line raw = true) body ->
  (is_prompt (rstrip_newline last) = true \/ signature_of last <> None) ->
  forall turns lines,
  List.length body < turns ->
  display_loop turns lines
    (mk_session (mk_process (body ++ last :: rest) inp br kd) st vs sh)
  = Some (match signature_of last with
          | Some e => Raise e
          | None => Ok (lines ++ map rstrip_newline body)
          end,
          mk_session (mk_process rest inp br kd) st vs sh).
Proof.
  intros Hbody Hlast. induction Hbody as [|raw body Hraw _ IH];
    intros turns lines Hlen.
  - destruct turns as [|k]; [simpl in Hlen; lia|].
    simpl. rewrite read_cons.
    destruct (signature_of last) as [e|] eqn:Es; [reflexivity|].
    destruct Hlast as [Hp|Hn]; [|contradiction].
    now rewrite Hp, app_nil_r.
  - destruct turns as [|k]; [simpl in Hlen; lia|].
    destruct (kept_line_parts raw Hraw) as (Hs & Hp & Hq & Hc).
    simpl. rewrite read_cons, Hs, Hp, Hq, Hc.
    rewrite IH by (simpl in Hlen; lia).
    now rewrite <- app_assoc.
Qed.

(** X18: for a request of 7-bit text and a response of plain lines that
    ends with the prompt or with an empty read, [getDisplayData] sends one
    [DISPLAY] command, returns
    the lines of the response without their newlines, in their order
    (parsed, unless [raw] is set), and leaves what the engine printed after
    the end of the response unread. *)
Theorem getDisplayData_plain_response (display : string) (raw : bool)
    (prompt : string) (body : list string) (stop : string)
    (rest inp : list string) (kd : bool) (st : list string)
    (vs : pydict string) (sh : list string) :
  isascii display = true ->
  benign prompt = true ->
  Forall (fun line => kept_line line = true) body ->
  is_prompt (rstrip_newline stop) = true ->
  getDisplayData display raw
    (mk_session (mk_process (prompt :: body ++ stop :: rest) inp false kd)
       st vs sh)
  = Some (display_result raw (map rstrip_newline body),
          mk_session
            (mk_process rest (inp ++ [(("DISPLAY " ++ display) ++ nl)%string])
               false kd)
            st vs sh).
Proof.
  intros _ Hprompt Hbody Hstop. unfold getDisplayData.
  rewrite sendCommand_cases. cbn [iso_process stdout hd broken].
  apply benign_signature in Hprompt. rewrite Hprompt.
  rewrite fed_one. unfold with_process.
  cbn [stdout stdin broken killed tl iso_process setting values shows].
  rewrite (display_loop_kept body stop rest _ _ _ _ _ _ Hbody
             (or_introl Hstop))
    by (rewrite length_app; simpl; lia).
  rewrite (is_prompt_benign stop Hstop). unfold display_result. simpl.
  destruct raw; [reflexivity|]. destruct (_parse_output _); reflexivity.
Qed.

Lemma getDisplayData_plain_response_witness :
  getDisplayData "irrep" false
    (mk_session
       (mk_process
          ("*" :: (map line scenario_block) ++ line "*" :: ["later"])
          [] false false)
       ["INTERNATIONAL"] [] [])
  = Some (display_result false (map rstrip_newline (map line scenario_block)),
          mk_session
            (mk_process ["later"] ([] ++ [(("DISPLAY " ++ "irrep") ++ nl)%string])
               false false)
            ["INTERNATIONAL"] [] []).
Proof.
  apply (getDisplayData_plain_response "irrep" false "*"
           (map line scenario_block) (line "*") ["later"] [] false
           ["INTERNATIONAL"] [] []).
  - reflexivity.
  - vm_compute. reflexivity.
  - repeat constructor.
  - vm_compute. reflexivity.
Defined.

(** X19: for a request of 7-bit text, when a line of the response
    carries a failure signature, [getDisplayData] raises the exception of that signature, whether
    [raw] is set or not: the lines kept so far are dropped, and the lines
    after the signature stay unread. *)
Theorem getDisplayData_failure (display : string) (raw : bool)
    (prompt : string) (body : list string) (bad : string) (e : exn)
    (rest inp : list string) (kd : bool) (st : list string)
    (vs : pydict string) (sh : list string) :
  isascii display = true ->
  benign prompt = true ->
  Forall (fun line => kept_line line = true) body ->
  signature_of bad = Some e ->
  getDisplayData display raw
    (mk_session (mk_process (prompt :: body ++ bad :: rest) inp false kd)
       st vs sh)
  = Some (Raise e,
          mk_session
            (mk_process rest (inp ++ [(("DISPLAY " ++ display) ++ nl)%string])
               false kd)
            st vs sh).
Proof.
  intros _ Hprompt Hbody Hbad. unfold getDisplayData.
  rewrite sendCommand_cases. cbn [iso_process stdout hd broken].
  apply benign_signature in Hprompt. rewrite Hprompt.
  rewrite fed_one. unfold with_process.
  cbn [stdout stdin broken killed tl iso_process setting values shows].
  assert (signature_of bad <> None) as Hne by congruence.
  rewrite (display_loop_kept body bad rest _ _ _ _ _ _ Hbody
             (or_intror Hne))
    by (rewrite length_app; simpl; lia).
  now rewrite Hbad.
Qed.

Lemma getDisplayData_failure_witness :
  getDisplayData "ISOTROPY COUPLED" false
    (mk_session
       (mk_process
          ("*" :: [line "Irrep  Dir"] ++ line " program has bombed" :: ["*"])
          [] false false)
       ["INTERNATIONAL"] [] [])
  = Some (Raise IsotropyBombedException,
          mk_session
            (mk_process ["*"]
               ([] ++ [(("DISPLAY " ++ "ISOTROPY COUPLED") ++ nl)%string])
               false false)
            ["INTERNATIONAL"] [] []).
Proof.
  apply (getDisplayData_failure "ISOTROPY COUPLED" false "*"
           [line "Irrep  Dir"] (line " program has bombed")
           IsotropyBombedException ["*"] [] false ["INTERNATIONAL"] [] []).
  - reflexivity.
  - vm_compute. reflexivity.
  - repeat constructor.
  - vm_compute. reflexivity.
Defined.

Lemma read_past_quiet (info : list string) (rest inp : list string)
    (br kd : bool) (st : list string) (vs : pydict string)
    (sh : list string) :
  Forall (fun raw => signature_of raw = None) info ->
  read_past (List.length info)
    (mk_session (mk_process (info ++ rest) inp br kd) st vs sh)
  = (Ok tt, mk_session (mk_process rest inp br kd) st vs sh).
Proof.
  induction 1 as [|raw info Hraw _ IH]; simpl; [reflexivity|].
  unfold mbind. now rewrite read_cons, Hraw.
Qed.

Lemma first_result_found (blanks : list string) (data : string)
    (rest inp : list string) (br kd : bool) (st : list string)
    (vs : pydict string) (sh : list string) (lines : list string) :
  Forall (fun raw => is_prompt (rstrip_newline raw) = true) blanks ->
  signature_of data = None ->
  is_prompt (rstrip_newline data) = false ->
  forall n, List.length blanks < n ->
  first_result n lines
    (mk_session (mk_process (blanks ++ data :: rest) inp br kd) st vs sh)
  = (Ok (lines ++ [rstrip_newline data]),
     mk_session (mk_process rest inp br kd) st vs sh).
Proof.
  intros Hblanks Hs Hp. induction Hblanks as [|raw blanks Hraw _ IH];
    intros n Hn; (destruct n as [|n]; [simpl in Hn; lia|]); simpl;
    unfold mbind; rewrite read_cons.
  - now rewrite Hs, Hp.
  - rewrite (is_prompt_benign raw Hraw), Hraw. simpl.
    apply IH. simpl in Hn. lia.
Qed.

Lemma display_loop_step (k : nat) (lines : list string) (self : session) :
  display_loop (S k) lines self
  = match read_iso_line self with
    | (Raise e, self') => Some (Raise e, self')
    | (Ok this_line, self') =>
        if is_prompt this_line then Some (Ok lines, self')
        else if re_match REQUESTED this_line then
          match answer_prompt 4 lines self' with
          | (Raise e, self'') => Some (Raise e, self'')
          | (Ok lines', self'') => display_loop k lines' self''
          end
        else if re_match COUPLED this_line then
          match answer_prompt 2 lines self' with
          | (Raise e, self'') => Some (Raise e, self'')
          | (Ok lines', self'') => display_loop k lines' self''
          end
        else display_loop k (lines ++ [this_line]) self'
    end.
Proof. reflexivity. Qed.

(** X20: for a request of 7-bit text, when the first line of a response
    is one of the two questions of the engine, [getDisplayData] reads past four lines (two for the
    question about coupled subgroups), answers with one empty command,
    reads past one more line, passes over up to nine prompts or empty
    reads and takes the next line as the first line of the response; the
    rest of the response is read as usual. *)
Theorem getDisplayData_answers_question (display : string) (raw : bool)
    (prompt question : string) (info : list string)
    (prompt2 adding : string) (blanks : list string) (data : string)
    (body : list string) (stop : string) (rest inp : list string)
    (kd : bool) (st : list string) (vs : pydict string) (sh : list string) :
  isascii display = true ->
  benign prompt = true ->
  signature_of question = None ->
  is_prompt (rstrip_newline question) = false ->
  (re_match REQUESTED (rstrip_newline question) = true
   /\ List.length info = 4)
  \/ (re_match REQUESTED (rstrip_newline question) = false
      /\ re_match COUPLED (rstrip_newline question) = true
      /\ List.length info = 2) ->
  Forall (fun line => signature_of line = None)
    (info ++ [prompt2; adding]) ->
  Forall (fun line => is_prompt (rstrip_newline line) = true) blanks ->
  List.length blanks < 10 ->
  signature_of data = None ->
  is_prompt (rstrip_newline data) = false ->
  Forall (fun line => kept_line line = true) body ->
  is_prompt (rstrip_newline stop) = true ->
  getDisplayData display raw
    (mk_session
       (mk_process
          (prompt :: question :: info ++ prompt2 :: adding
           :: blanks ++ data :: body ++ stop :: rest)
          inp false kd)
       st vs sh)
  = Some (display_result raw
            (rstrip_newline data :: map rstrip_newline body),
          mk_session
            (mk_process rest
               (inp ++ [(("DISPLAY " ++ display) ++ nl)%string; nl])
               false kd)
            st vs sh).
Proof.
  intros _ Hprompt Hq Hqp Hkind Hinfo Hblanks Hn Hd Hdp Hbody Hstop.
  apply Forall_app in Hinfo. destruct Hinfo as [Hinfo Hpa].
  inversion Hpa as [|? ? Hp2 Hpa']; subst.
  inversion Hpa' as [|? ? Hadd _]; subst.
  unfold getDisplayData.
  rewrite sendCommand_cases. cbn [iso_process stdout hd broken].
  apply benign_signature in Hprompt. rewrite Hprompt.
  rewrite fed_one. unfold with_process.
  cbn [stdout stdin broken killed tl iso_process setting values shows].
  rewrite display_loop_step, read_cons, Hq, Hqp.
  assert (answer_prompt (List.length info) []
            (mk_session
               (mk_process
                  (info ++ prompt2 :: adding
                   :: blanks ++ data :: body ++ stop :: rest)
                  (inp ++ [(("DISPLAY " ++ display) ++ nl)%string]) false kd)
               st vs sh)
          = (Ok [rstrip_newline data],
             mk_session
               (mk_process (body ++ stop :: rest)
                  (inp ++ [(("DISPLAY " ++ display) ++ nl)%string; nl])
                  false kd)
               st vs sh)) as Hanswer.
  { unfold answer_prompt, mbind.
    rewrite read_past_quiet by assumption.
    rewrite sendCommand_cases. cbn [iso_process stdout hd broken].
    rewrite Hp2, fed_one. unfold with_process.
    cbn [stdout stdin broken killed tl iso_process setting values shows].
    rewrite read_cons, Hadd.
    rewrite (first_result_found blanks data) by assumption.
    rewrite <- app_assoc. reflexivity. }
  assert (List.length body
          < List.length (question :: info ++ prompt2 :: adding
                         :: blanks ++ data :: body ++ stop :: rest))
    as Hturns by (simpl; repeat (rewrite length_app; simpl); lia).
  destruct Hkind as [[Hr Hl]|(Hr & Hc & Hl)]; rewrite Hr, ?Hc;
    rewrite <- Hl, Hanswer; cbv beta iota;
    rewrite (display_loop_kept body stop rest _ _ _ _ _ _ Hbody
               (or_introl Hstop)) by exact Hturns;
    rewrite (is_prompt_benign stop Hstop); unfold display_result;
    cbn [app]; (destruct raw; [reflexivity|]);
    destruct (_parse_output _); reflexivity.
Qed.

Lemma getDisplayData_answers_question_witness :
  getDisplayData "ISOTROPY COUPLED" true
    (mk_session
       (mk_process
          ("*" :: "Data base for these coupled subgroups does not exist"
           :: ["Should this data base be added?"; "Enter RETURN to continue"]
           ++ "" :: "Adding data base"
           :: [""; "*"] ++ "Irrep  Dir" :: ["M1+    P1"] ++ "*" :: [])
          [] false false)
       ["INTERNATIONAL"] [] [])
  = Some (display_result true
            (rstrip_newline "Irrep  Dir" :: map rstrip_newline ["M1+    P1"]),
          mk_session
            (mk_process []
               ([] ++ [(("DISPLAY " ++ "ISOTROPY COUPLED") ++ nl)%string; nl])
               false false)
            ["INTERNATIONAL"] [] []).
Proof.
  apply (getDisplayData_answers_question "ISOTROPY COUPLED" true "*"
           "Data base for these coupled subgroups does not exist"
           ["Should this data base be added?"; "Enter RETURN to continue"]
           "" "Adding data base" [""; "*"] "Irrep  Dir" ["M1+    P1"] "*"
           [] [] false ["INTERNATIONAL"] [] []).
  - reflexivity.
  - vm_compute. reflexivity.
  - vm_compute. reflexivity.
  - vm_compute. reflexivity.
  - right. vm_compute. auto.
  - repeat constructor.
  - repeat constructor.
  - simpl. lia.
  - vm_compute. reflexivity.
  - vm_compute. reflexivity.
  - repeat constructor.
  - vm_compute. reflexivity.
Defined.

(** ** Starting and restarting *)

Lemma await_banner_silent (engine : list string) :
  forall inp br kd st vs sh,
  Forall passed_over engine ->
  await_banner engine (mk_session (mk_process engine inp br kd) st vs sh)
  = None.
Proof.
  induction engine as [|raw engine IH]; intros inp br kd st vs sh H;
    [reflexivity|].
  inversion H as [|? ? [Hs Hr] H']; subst. simpl.
  rewrite read_cons, Hs.
  destruct (String.eqb (rstrip_newline raw) READY) eqn:E;
    [apply String.eqb_eq in E; contradiction|].
  now apply IH.
Qed.

(** However many turns the loop takes over lines that are passed over, it
    is still reading, nothing was written, and the lines read are gone. *)
Lemma banner_turns_silent (turns : nat) :
  forall engine inp br kd st vs sh,
  Forall passed_over engine ->
  banner_turns turns (mk_session (mk_process engine inp br kd) st vs sh)
  = Reading (mk_session (mk_process (skipn turns engine) inp br kd) st vs sh).
Proof.
  induction turns as [|k IH]; intros engine inp br kd st vs sh H;
    [reflexivity|].
  cbn [banner_turns]. destruct engine as [|raw engine].
  - rewrite read_iso_line_effect. cbn [iso_process stdout hd].
    replace (signature_of EmptyString) with (@None exn)
      by (vm_compute; reflexivity).
    replace (String.eqb (rstrip_newline EmptyString) READY) with false
      by (vm_compute; reflexivity).
    unfold with_process, after_read.
    cbn [iso_process stdout stdin broken killed tl setting values shows].
    rewrite (IH [] inp br kd st vs sh H). now destruct k.
  - inversion H as [|? ? [Hs Hr] H']; subst.
    rewrite read_cons, Hs.
    destruct (String.eqb (rstrip_newline raw) READY) eqn:E;
      [apply String.eqb_eq in E; contradiction|].
    now rewrite IH.
Qed.

(** X21: [__init__] waits for the banner.  When the engine prints lines
    that carry no failure signature and none of them is the banner, then
    after any number of turns the loop that moves past the initial output
    is still reading, with as many lines read and nothing written to the
    engine: the loop never ends, and [__init__] gives no result. *)
Theorem init_without_banner_hangs (engine : list string)
    (initial_values : pydict string) (initial_shows : list string)
    (a : setting_arg) (self : session) :
  Forall passed_over engine ->
  (forall turns,
     banner_turns turns (with_process (mk_process engine [] false false) self)
     = Reading
         (with_process (mk_process (skipn turns engine) [] false false) self))
  /\ __init__ engine initial_values initial_shows a self = None.
Proof.
  intros H. split.
  - intros turns. unfold with_process. now apply banner_turns_silent.
  - unfold __init__, set_process. cbn [snd].
    now rewrite await_banner_silent.
Qed.

Lemma init_without_banner_hangs_witness :
  (forall turns,
     banner_turns turns
       (with_process
          (mk_process ["ISOTROPY, Version 9"; ""; "Harold T. Stokes"] []
             false false)
          (idle_session []))
     = Reading
         (with_process
            (mk_process
               (skipn turns ["ISOTROPY, Version 9"; ""; "Harold T. Stokes"])
               [] false false)
            (idle_session [])))
  /\ __init__ ["ISOTROPY, Version 9"; ""; "Harold T. Stokes"]
       [("parent", "221")] ["elements"] SettingNone (idle_session [])
     = None.
Proof.
  apply (init_without_banner_hangs
           ["ISOTROPY, Version 9"; ""; "Harold T. Stokes"]).
  repeat constructor; try (vm_compute; reflexivity);
    vm_compute; discriminate.
Defined.

(** The two accounts of the loop agree: it leaves with a result after some
    number of turns exactly when [await_banner] gives that result. *)
Lemma await_banner_turns (engine : list string) :
  forall inp br kd st vs sh r self',
  await_banner engine (mk_session (mk_process engine inp br kd) st vs sh)
  = Some (r, self')
  <-> exists turns,
        banner_turns turns
          (mk_session (mk_process engine inp br kd) st vs sh)
        = Gone r self'.
Proof.
  induction engine as [|raw engine IH]; intros inp br kd st vs sh r self'.
  - split; [discriminate|]. intros [turns H].
    rewrite (banner_turns_silent turns [] inp br kd st vs sh) in H
      by constructor.
    discriminate.
  - cbn [await_banner]. rewrite read_cons.
    assert (forall k,
              banner_turns (S k)
                (mk_session (mk_process (raw :: engine) inp br kd) st vs sh)
              = match signature_of raw with
                | Some e =>
                    Gone (Raise e)
                      (mk_session (mk_process engine inp br kd) st vs sh)
                | None =>
                    if String.eqb (rstrip_newline raw) READY
                    then Gone (Ok tt)
                           (mk_session (mk_process engine inp br kd) st vs sh)
                    else banner_turns k
                           (mk_session (mk_process engine inp br kd) st vs sh)
                end) as Hstep.
    { intros k. cbn [banner_turns]. rewrite read_cons.
      destruct (signature_of raw); reflexivity. }
    destruct (signature_of raw) as [e|] eqn:Es.
    + split.
      * intros H. injection H as <- <-. exists 1. now rewrite Hstep, ?Es.
      * intros [[|k] H]; [discriminate|]. rewrite Hstep, ?Es in H.
        now injection H as <- <-.
    + destruct (String.eqb (rstrip_newline raw) READY) eqn:E.
      * split.
        -- intros H. injection H as <- <-. exists 1.
           now rewrite Hstep, ?Es, ?E.
        -- intros [[|k] H]; [discriminate|]. rewrite Hstep, ?Es, ?E in H.
           now injection H as <- <-.
      * rewrite IH. split.
        -- intros [k H]. exists (S k). now rewrite Hstep, ?Es, ?E.
        -- intros [[|k] H]; [discriminate|]. rewrite Hstep, ?Es, ?E in H.
           now exists k.
Qed.

Lemma await_banner_outcome (engine : list string) :
  forall inp br kd st vs sh r self',
  await_banner engine (mk_session (mk_process engine inp br kd) st vs sh)
  = Some (r, self') ->
  exists banner last rest,
    engine = banner ++ last :: rest
    /\ Forall passed_over banner
    /\ self' = mk_session (mk_process rest inp br kd) st vs sh
    /\ ((r = Ok tt /\ signature_of last = None
         /\ rstrip_newline last = READY)
        \/ (exists e, r = Raise e /\ signature_of last = Some e)).
Proof.
  induction engine as [|raw engine IH]; intros inp br kd st vs sh r self' H;
    [discriminate|].
  simpl in H. rewrite read_cons in H.
  destruct (signature_of raw) as [e|] eqn:Es.
  - injection H as <- <-. exists [], raw, engine.
    repeat split; [constructor|]. right. eauto.
  - destruct (String.eqb (rstrip_newline raw) READY) eqn:E.
    + apply String.eqb_eq in E. injection H as <- <-.
      exists [], raw, engine. repeat split; [constructor|]. left. auto.
    + apply String.eqb_neq in E.
      destruct (IH _ _ _ _ _ _ _ _ H)
        as (banner & last & rest & -> & Hb & -> & Hr).
      exists (raw :: banner), last, rest.
      repeat split; [constructor; [split|]; assumption|assumption].
Qed.

(** X22: when [__init__] returns, with a result or with an exception, the
    engine has printed, after lines that were passed over, either the
    banner or a line with a failure signature: a session is never set up
    before the banner, and an exception of the initial output leaves
    nothing sent to the new engine. *)
Theorem init_outcome (engine : list string) (initial_values : pydict string)
    (initial_shows : list string) (a : setting_arg) (self self' : session)
    (r : outcome unit) :
  __init__ engine initial_values initial_shows a self = Some (r, self') ->
  exists banner last rest,
    engine = banner ++ last :: rest
    /\ Forall passed_over banner
    /\ ((rstrip_newline last = READY /\ signature_of last = None
         /\ (r, self')
            = configure initial_values initial_shows a
                (with_process (mk_process rest [] false false) self))
        \/ (exists e,
              signature_of last = Some e /\ r = Raise e
              /\ self' = with_process (mk_process rest [] false false) self)).
Proof.
  unfold __init__, set_process. cbn [snd]. intros H.
  destruct (await_banner engine _) as [[r0 s0]|] eqn:Ea; [|discriminate].
  apply await_banner_outcome in Ea.
  destruct Ea as (banner & last & rest & -> & Hb & -> & Hr).
  exists banner, last, rest. split; [reflexivity|]. split; [assumption|].
  destruct Hr as [(-> & Hs & Hready)|(e & -> & Hs)].
  - left. injection H as H. auto.
  - right. exists e. injection H as <- <-. auto.
Qed.

Lemma init_outcome_witness :
  exists banner last rest,
    ["hello"; " program has bombed"; "*"] = banner ++ last :: rest
    /\ Forall passed_over banner
    /\ ((rstrip_newline last = READY /\ signature_of last = None
         /\ (@Raise unit IsotropyBombedException,
             with_process (mk_process ["*"] [] false false) (idle_session []))
            = configure [] [] SettingNone
                (with_process (mk_process rest [] false false)
                   (idle_session [])))
        \/ (exists e,
              signature_of last = Some e
              /\ @Raise unit IsotropyBombedException = Raise e
              /\ with_process (mk_process ["*"] [] false false)
                   (idle_session [])
                 = with_process (mk_process rest [] false false)
                     (idle_session []))).
Proof.
  apply (init_outcome ["hello"; " program has bombed"; "*"] [] [] SettingNone
           (idle_session [])
           (with_process (mk_process ["*"] [] false false) (idle_session []))
           (Raise IsotropyBombedException)).
  vm_compute. reflexivity.
Defined.

Lemma for_each_map {A B : Type} (h : A -> B) (body : B -> M unit)
    (l : list A) (self : session) :
  for_each (map h l) body self = for_each l (fun x => body (h x)) self.
Proof.
  revert self. induction l as [|x xs IH]; intros self; simpl;
    [reflexivity|].
  unfold mbind. destruct (body (h x) self) as [[u|e] s1]; [apply IH|reflexivity].
Qed.

Lemma for_each_ext {A : Type} (f g : A -> M unit) (l : list A)
    (self : session) :
  (forall x s, f x s = g x s) ->
  for_each l f self = for_each l g self.
Proof.
  intros H. revert self. induction l as [|x xs IH]; intros self; simpl;
    [reflexivity|].
  unfold mbind. rewrite H.
  destruct (g x self) as [[u|e] s1]; [apply IH|reflexivity].
Qed.

(** The set-up of a session on a quiet engine for values and shows in any
    case whose upper-case forms are distinct. *)
Lemma configure_upper (items : pydict string) (sitems : list string)
    (a : setting_arg) (p : process) (st : list string)
    (vs : pydict string) (sh : list string) :
  Forall (fun raw => benign raw = true) (stdout p) ->
  broken p = false ->
  NoDup (map fst (map upper_key items)) ->
  NoDup (map upper sitems) ->
  configure items sitems a (mk_session p st vs sh)
  = (Ok tt,
     mk_session (fed (setup_commands items sitems a) p)
       (resolve_setting a) (map upper_key items) (map upper sitems)).
Proof.
  intros Hq Hb Hkn Hsn.
  unfold configure, Values.__init__, Shows.__init__.
  unfold mbind at 1. rewrite sendCommand_quiet by assumption.
  unfold mbind at 1.
  rewrite sendCommand_quiet by (try apply fed_quiet; assumption).
  unfold mbind at 1. unfold set_setting at 1.
  unfold mbind at 1. cbn [setting iso_process values shows].
  rewrite (for_each_sendCommand setting_command)
    by (repeat apply fed_quiet; assumption).
  unfold mbind at 1. unfold mbind at 1. unfold set_values at 1.
  cbn [setting iso_process values shows].
  rewrite (for_each_ext _
             (fun kv => Values.__setitem__ (upper (fst (upper_key kv)))
                          (snd (upper_key kv))))
    by (intros [k v] s; simpl; now rewrite upper_upper).
  rewrite <- (for_each_map upper_key
                (fun kv => Values.__setitem__ (upper (fst kv)) (snd kv))).
  rewrite (replay_values (map upper_key items) _ _ []);
    [|repeat apply fed_quiet; assumption|assumption| |assumption].
  2:{ apply Forall_forall. intros kv Hin. apply in_map_iff in Hin.
      destruct Hin as ([k v] & <- & _). simpl. apply upper_upper. }
  unfold mbind at 1. unfold set_shows at 1.
  cbn [setting iso_process values shows].
  rewrite (for_each_ext _ (fun item => Shows.add (upper (upper item))))
    by (intros x s; now rewrite upper_upper).
  rewrite <- (for_each_map upper (fun item => Shows.add (upper item))).
  rewrite (replay_shows (map upper sitems) _ _ []);
    [|repeat apply fed_quiet; assumption|assumption| |assumption].
  2:{ apply Forall_forall. intros x Hin. apply in_map_iff in Hin.
      destruct Hin as (y & <- & _). apply upper_upper. }
  rewrite !fed_fed. simpl app. reflexivity.
Qed.

(** X23: a new session keeps its mirrors in upper case.  On an engine that
    prints its banner and then raises nothing, [__init__] with settings,
    values and shows of 7-bit text, the upper-case forms of the keys and of
    the shows being distinct, returns with the value map
    under upper-case keys, the show set in upper case and the resolved
    setting list, after sending SCREEN, PAGE, one SETTING per setting, one
    VALUE per value and one SHOW per show, each with the upper-case name. *)
Theorem init_sets_up_mirrors (banner : list string) (ready : string)
    (prompts : list string) (initial_values : pydict string)
    (initial_shows : list string) (a : setting_arg) (self : session) :
  Forall (fun raw => benign raw = true /\ rstrip_newline raw <> READY) banner ->
  rstrip_newline ready = READY ->
  Forall (fun raw => benign raw = true) prompts ->
  Forall (fun s => isascii s = true) (resolve_setting a) ->
  Forall (fun kv => isascii (fst kv) = true /\ isascii (snd kv) = true)
    initial_values ->
  Forall (fun item => isascii item = true) initial_shows ->
  NoDup (map fst (map upper_key initial_values)) ->
  NoDup (map upper initial_shows) ->
  __init__ (banner ++ ready :: prompts) initial_values initial_shows a self
  = Some (Ok tt,
          mk_session
            (fed (setup_commands initial_values initial_shows a)
               (mk_process prompts [] false false))
            (resolve_setting a) (map upper_key initial_values)
            (map upper initial_shows)).
Proof.
  intros Hbanner Hready Hprompts _ _ _ Hkn Hsn.
  destruct self as [p st vs sh].
  unfold __init__, set_process. cbn [snd iso_process setting values shows].
  rewrite (await_banner_found banner ready prompts) by auto.
  cbn [stdin broken killed].
  now rewrite configure_upper.
Qed.

Lemma init_sets_up_mirrors_witness :
  __init__ (["ISOTROPY, Version 9"] ++ (READY ++ nl)%string :: ["*"])
    [("parent", "221"); ("Irrep", "GM1+")] ["kpoint"]
    (SettingStr "MAGNETIC") (idle_session [])
  = Some (Ok tt,
          mk_session
            (mk_process []
               ["SCREEN 999" ++ nl; "PAGE 999" ++ nl; "SETTING MAGNETIC" ++ nl;
                "VALUE PARENT 221" ++ nl; "VALUE IRREP GM1+" ++ nl;
                "SHOW KPOINT" ++ nl]%string
               false false)
            ["MAGNETIC"] [("PARENT", "221"); ("IRREP", "GM1+")] ["KPOINT"]).
Proof.
  apply (init_sets_up_mirrors ["ISOTROPY, Version 9"] (READY ++ nl)%string
           ["*"] [("parent", "221"); ("Irrep", "GM1+")] ["kpoint"]
           (SettingStr "MAGNETIC") (idle_session [])).
  - repeat constructor; vm_compute; try reflexivity; discriminate.
  - vm_compute. reflexivity.
  - repeat constructor.
  - repeat constructor.
  - repeat constructor.
  - repeat constructor.
  - vm_compute. repeat constructor; simpl; intuition discriminate.
  - vm_compute. repeat constructor; simpl; intuition discriminate.
Defined.

(** X24: [restart_session] gives up where it starts when the line that
    QUIT's [sendCommand] reads carries a failure signature: only a broken
    pipe is ignored, so the exception of the signature leaves the function
    with one line read, nothing written, the old process not killed and
    still the process of the session, no file removed and the mirrors as
    they were. *)
Theorem restart_session_aborts (engine : list string) (self : session)
    (h : host) (e : exn) :
  signature_of (hd EmptyString (stdout (iso_process self))) = Some e ->
  restart_session engine self h
  = Some (Raise e, with_process (after_read (iso_process self)) self, h).
Proof.
  intros Hs. unfold restart_session, try_catch.
  rewrite sendCommand_cases, Hs.
  replace (exn_eqb e BrokenPipeError) with false; [reflexivity|].
  unfold signature_of in Hs.
  repeat match type of Hs with
         | (if ?b then _ else _) = _ => destruct b
         end;
    inversion Hs; reflexivity.
Qed.

Lemma restart_session_aborts_witness :
  restart_session [(READY ++ nl)%string; "*"]
    (mk_session (mk_process [" program has bombed"; "*"] ["DISPLAY X"]
                   false false)
       ["INTERNATIONAL"] [("PARENT", "221")] ["KPOINT"])
    (mk_host ["a.iso"] [])
  = Some (Raise IsotropyBombedException,
          mk_session (mk_process ["*"] ["DISPLAY X"] false false)
            ["INTERNATIONAL"] [("PARENT", "221")] ["KPOINT"],
          mk_host ["a.iso"] []).
Proof.
  apply (restart_session_aborts [(READY ++ nl)%string; "*"]
           (mk_session (mk_process [" program has bombed"; "*"] ["DISPLAY X"]
                          false false)
              ["INTERNATIONAL"] [("PARENT", "221")] ["KPOINT"])
           (mk_host ["a.iso"] []) IsotropyBombedException).
  vm_compute. reflexivity.
Defined.

(** ** Requests from start to end *)

Lemma calm_hd (n : nat) (p : process) :
  calm (S n) p -> signature_of (hd EmptyString (stdout p)) = None.
Proof.
  unfold calm. destruct (stdout p) as [|raw rest]; simpl; intros H.
  - reflexivity.
  - inversion H; subst. now apply benign_signature.
Qed.

Lemma calm_le (m n : nat) (p : process) :
  m <= n -> calm n p -> calm m p.
Proof.
  unfold calm. generalize (stdout p) as out. revert n.
  induction m as [|m IH]; intros n out Hle H; [constructor|].
  destruct n as [|n]; [lia|].
  destruct out as [|raw rest]; simpl in *; [constructor|].
  inversion H; subst. constructor; [assumption|].
  apply (IH n); [lia|assumption].
Qed.

Lemma calm_fed (cmds : list string) (n : nat) (p : process) :
  calm (List.length cmds + n) p -> calm n (fed cmds p).
Proof.
  unfold calm, fed. cbn [stdout].
  generalize (List.length cmds) as k. generalize (stdout p) as out.
  intros out k. revert out. induction k as [|k IH]; intros out H;
    [assumption|].
  destruct out as [|raw rest]; simpl in *.
  - destruct n; constructor.
  - inversion H; subst. now apply IH.
Qed.

Lemma calm_sendCommand (command : string) (n : nat) (p : process)
    (st : list string) (vs : pydict string) (sh : list string) :
  calm (S n) p ->
  broken p = false ->
  sendCommand command (mk_session p st vs sh)
  = (Ok tt, mk_session (fed [command] p) st vs sh).
Proof.
  intros Hc Hb. rewrite sendCommand_cases. cbn [iso_process].
  now rewrite (calm_hd n p Hc), Hb.
Qed.

Lemma for_each_sendCommand_calm {A : Type} (f : A -> string) (l : list A)
    (st : list string) (vs : pydict string) (sh : list string) :
  forall p,
  calm (List.length l) p ->
  broken p = false ->
  for_each l (fun x => sendCommand (f x)) (mk_session p st vs sh)
  = (Ok tt, mk_session (fed (map f l) p) st vs sh).
Proof.
  induction l as [|x xs IH]; intros p Hq Hb; simpl.
  - now rewrite fed_nil.
  - unfold mbind.
    rewrite (calm_sendCommand _ (List.length xs)) by assumption.
    rewrite IH; [|now apply calm_fed|assumption].
    now rewrite fed_fed.
Qed.

Lemma replay_values_calm (items : pydict string) (st : list string)
    (sh : list string) :
  forall acc p,
  calm (List.length items) p ->
  broken p = false ->
  Forall (fun kv => upper (fst kv) = fst kv) items ->
  NoDup (map fst (acc ++ items)) ->
  for_each items (fun kv => Values.__setitem__ (upper (fst kv)) (snd kv))
    (mk_session p st acc sh)
  = (Ok tt, mk_session (fed (map value_command items) p) st (acc ++ items) sh).
Proof.
  induction items as [|[k v] items IH]; intros acc p Hq Hb Hup Hnd; simpl.
  - now rewrite fed_nil, app_nil_r.
  - inversion Hup as [|? ? Hk Hup']; subst. simpl in Hk.
    assert (~ In k (map fst acc)) as Hnew.
    { rewrite map_app in Hnd. simpl in Hnd.
      apply NoDup_remove_2 in Hnd. intros Hin. apply Hnd.
      apply in_or_app. now left. }
    unfold mbind at 1. unfold Values.__setitem__. rewrite !Hk. simpl.
    rewrite (dict_mem_notin _ _ Hnew). simpl.
    unfold mbind at 1.
    rewrite (calm_sendCommand _ (List.length items)) by assumption.
    unfold set_values. simpl.
    rewrite (dict_set_new _ _ _ (dict_mem_notin _ _ Hnew)).
    rewrite IH; [|now apply calm_fed|assumption|assumption|].
    + rewrite fed_fed, <- app_assoc. reflexivity.
    + now rewrite <- app_assoc.
Qed.

Lemma replay_shows_calm (items : list string) (st : list string)
    (vs : pydict string) :
  forall acc p,
  calm (List.length items) p ->
  broken p = false ->
  Forall (fun item => upper item = item) items ->
  NoDup (acc ++ items) ->
  for_each items (fun item => Shows.add (upper item))
    (mk_session p st vs acc)
  = (Ok tt, mk_session (fed (map show_command items) p) st vs (acc ++ items)).
Proof.
  induction items as [|x items IH]; intros acc p Hq Hb Hup Hnd; simpl.
  - now rewrite fed_nil, app_nil_r.
  - inversion Hup as [|? ? Hx Hup']; subst.
    assert (~ In x acc) as Hnew.
    { apply NoDup_remove_2 in Hnd. intros Hin. apply Hnd.
      apply in_or_app. now left. }
    unfold mbind at 1. unfold Shows.add. rewrite !Hx. simpl.
    rewrite (set_mem_notin _ _ Hnew). simpl.
    unfold mbind at 1.
    rewrite (calm_sendCommand _ (List.length items)) by assumption.
    unfold set_shows. simpl.
    rewrite IH; [|now apply calm_fed|assumption|assumption|].
    + rewrite fed_fed, <- app_assoc. reflexivity.
    + now rewrite <- app_assoc.
Qed.

(** The set-up of a session needs no more of the engine than one line
    without a failure signature for each command. *)
Lemma configure_calm (items : pydict string) (sitems : list string)
    (a : setting_arg) (p : process) (st : list string)
    (vs : pydict string) (sh : list string) :
  calm (List.length (setup_commands items sitems a)) p ->
  broken p = false ->
  NoDup (map fst (map upper_key items)) ->
  NoDup (map upper sitems) ->
  configure items sitems a (mk_session p st vs sh)
  = (Ok tt,
     mk_session (fed (setup_commands items sitems a) p)
       (resolve_setting a) (map upper_key items) (map upper sitems)).
Proof.
  unfold setup_commands. rewrite !length_app, !length_map.
  cbn [List.length].
  intros Hq Hb Hkn Hsn.
  unfold configure, Values.__init__, Shows.__init__.
  unfold mbind at 1. rewrite (calm_sendCommand _ _ _ _ _ _ Hq Hb).
  apply (calm_fed ["SCREEN 999"]) in Hq.
  unfold mbind at 1. rewrite (calm_sendCommand _ _ _ _ _ _ Hq Hb).
  apply (calm_fed ["PAGE 999"]) in Hq.
  unfold mbind at 1. unfold set_setting at 1.
  unfold mbind at 1. cbn [setting iso_process values shows].
  rewrite (for_each_sendCommand_calm setting_command)
    by first [assumption | eapply calm_le; [|exact Hq]; lia].
  apply (calm_le (List.length (map setting_command (resolve_setting a))
                  + (List.length items + List.length sitems))) in Hq;
    [|rewrite length_map; lia].
  apply calm_fed in Hq.
  unfold mbind at 1. unfold mbind at 1. unfold set_values at 1.
  cbn [setting iso_process values shows].
  rewrite (for_each_ext _
             (fun kv => Values.__setitem__ (upper (fst (upper_key kv)))
                          (snd (upper_key kv))))
    by (intros [k v] s; simpl; now rewrite upper_upper).
  rewrite <- (for_each_map upper_key
                (fun kv => Values.__setitem__ (upper (fst kv)) (snd kv))).
  rewrite (replay_values_calm (map upper_key items) _ _ []);
    [| |assumption| |assumption].
  2:{ eapply calm_le; [|exact Hq]. rewrite length_map. lia. }
  2:{ apply Forall_forall. intros kv Hin. apply in_map_iff in Hin.
      destruct Hin as ([k v] & <- & _). simpl. apply upper_upper. }
  apply (calm_le (List.length (map value_command (map upper_key items))
                  + List.length sitems)) in Hq;
    [|rewrite !length_map; lia].
  apply calm_fed in Hq.
  unfold mbind at 1. unfold set_shows at 1.
  cbn [setting iso_process values shows].
  rewrite (for_each_ext _ (fun item => Shows.add (upper (upper item))))
    by (intros x s; now rewrite upper_upper).
  rewrite <- (for_each_map upper (fun item => Shows.add (upper item))).
  rewrite (replay_shows_calm (map upper sitems) _ _ []);
    [| |assumption| |assumption].
  2:{ now rewrite length_map. }
  2:{ apply Forall_forall. intros x Hin. apply in_map_iff in Hin.
      destruct Hin as (y & <- & _). apply upper_upper. }
  rewrite !fed_fed. simpl app. reflexivity.
Qed.

(** A response of lines that are kept, ended by the prompt or by a line
    with a failure signature. *)
Lemma getDisplayData_kept (display : string) (raw : bool)
    (prompt : string) (body : list string) (last : string)
    (rest inp : list string) (kd : bool) (st : list string)
    (vs : pydict string) (sh : list string) :
  benign prompt = true ->
  Forall (fun line => kept_line line = true) body ->
  (is_prompt (rstrip_newline last) = true \/ signature_of last <> None) ->
  getDisplayData display raw
    (mk_session (mk_process (prompt :: body ++ last :: rest) inp false kd)
       st vs sh)
  = Some (match signature_of last with
          | Some e => Raise e
          | None => display_result raw (map rstrip_newline body)
          end,
          mk_session
            (mk_process rest (inp ++ [(("DISPLAY " ++ display) ++ nl)%string])
               false kd)
            st vs sh).
Proof.
  intros Hprompt Hbody Hlast. unfold getDisplayData.
  rewrite sendCommand_cases. cbn [iso_process stdout hd broken].
  apply benign_signature in Hprompt. rewrite Hprompt.
  rewrite fed_one. unfold with_process.
  cbn [stdout stdin broken killed tl iso_process setting values shows].
  rewrite (display_loop_kept body last rest _ _ _ _ _ _ Hbody Hlast)
    by (rewrite length_app; simpl; lia).
  destruct (signature_of last); [reflexivity|].
  unfold display_result. simpl.
  destruct raw; [reflexivity|]. destruct (_parse_output _); reflexivity.
Qed.

Lemma calm_prefix (n : nat) (replies more inp : list string) (br kd : bool) :
  Forall (fun raw => benign raw = true) replies ->
  n <= List.length replies ->
  calm n (mk_process (replies ++ more) inp br kd).
Proof.
  unfold calm. cbn [stdout]. intros H. revert n.
  induction H as [|raw replies Hraw _ IH]; intros n Hn; simpl in Hn.
  - replace n with 0 by lia. constructor.
  - destruct n as [|n]; [constructor|].
    simpl. constructor; [assumption|]. apply IH. lia.
Qed.

(** X25: a request from start to end, for a parent and a subgroup of 7-bit
    text.  When the engine prints its banner,
    then one line without a failure signature for each of the nine set-up
    commands and for the request, then lines that are kept, then the
    prompt or a line with a failure signature, [getPossibleSingleIrrepOPs]
    sends PARENT and SUBGROUP as values and IRREP, DIRECTION, BASIS and
    ORIGIN as shows, asks for DISPLAY ISOTROPY and sends QUIT last, also
    when the response ended in a failure; it returns the parsed lines, or
    raises the exception of the failure. *)
Theorem getPossibleSingleIrrepOPs_requests (parent subgroup : string)
    (banner : list string) (ready : string) (replies body : list string)
    (last : string) (rest : list string) :
  isascii parent = true ->
  isascii subgroup = true ->
  Forall (fun raw => benign raw = true /\ rstrip_newline raw <> READY) banner ->
  rstrip_newline ready = READY ->
  List.length replies = 10 ->
  Forall (fun raw => benign raw = true) replies ->
  Forall (fun line => kept_line line = true) body ->
  (is_prompt (rstrip_newline last) = true \/ signature_of last <> None) ->
  benign (hd EmptyString rest) = true ->
  getPossibleSingleIrrepOPs
    (banner ++ ready :: replies ++ body ++ last :: rest) parent subgroup
  = Some (match signature_of last with
          | Some e => Raise e
          | None => display_result false (map rstrip_newline body)
          end,
          mk_session
            (mk_process (tl rest)
               (map line
                  (["SCREEN 999"; "PAGE 999"; "SETTING INTERNATIONAL";
                    value_command ("PARENT", parent);
                    value_command ("SUBGROUP", subgroup);
                    "SHOW IRREP"; "SHOW DIRECTION"; "SHOW BASIS";
                    "SHOW ORIGIN"; "DISPLAY ISOTROPY"; "QUIT"]))
               false false)
            ["INTERNATIONAL"]
            [("PARENT", parent); ("SUBGROUP", subgroup)]
            ["IRREP"; "DIRECTION"; "BASIS"; "ORIGIN"]).
Proof.
  intros _ _ Hbanner Hready Hlen Hreplies Hbody Hlast Hquit.
  unfold getPossibleSingleIrrepOPs, __init__, set_process, blank_session.
  cbn [snd iso_process setting values shows].
  rewrite (await_banner_found banner ready (replies ++ body ++ last :: rest))
    by auto.
  cbn [stdin broken killed].
  rewrite configure_calm;
    [|apply calm_prefix; [assumption|rewrite Hlen; vm_compute; lia]
     |reflexivity
     |vm_compute; repeat constructor; simpl; intuition discriminate
     |vm_compute; repeat constructor; simpl; intuition discriminate].
  destruct replies
    as [|r1 [|r2 [|r3 [|r4 [|r5 [|r6 [|r7 [|r8 [|r9 [|prompt [|]]]]]]]]]]];
    try discriminate Hlen.
  assert (benign prompt = true) as Hprompt.
  { repeat match goal with
           | H : Forall _ (_ :: _) |- _ => inversion H; clear H; subst
           end.
    assumption. }
  unfold fed, setup_commands.
  cbn [stdout stdin broken killed List.length skipn app map resolve_setting
       upper_key fst snd].
  rewrite (getDisplayData_kept "ISOTROPY" false prompt body last rest)
    by assumption.
  unfold __exit__. rewrite sendCommand_cases.
  cbn [iso_process stdout broken].
  apply benign_signature in Hquit. rewrite Hquit. rewrite fed_one.
  unfold with_process.
  cbn [stdout stdin broken killed iso_process setting values shows].
  destruct (signature_of last); reflexivity.
Qed.

Lemma getPossibleSingleIrrepOPs_requests_witness :
  getPossibleSingleIrrepOPs
    (["ISOTROPY, Version 9"] ++ (READY ++ nl)%string
       :: repeat "*" 10 ++ map line scenario_block ++ "*" :: ["*"])
    "221" "99"
  = Some (display_result false (map rstrip_newline (map line scenario_block)),
          mk_session
            (mk_process []
               (map line
                  (["SCREEN 999"; "PAGE 999"; "SETTING INTERNATIONAL";
                    "VALUE PARENT 221"; "VALUE SUBGROUP 99";
                    "SHOW IRREP"; "SHOW DIRECTION"; "SHOW BASIS";
                    "SHOW ORIGIN"; "DISPLAY ISOTROPY"; "QUIT"]))
               false false)
            ["INTERNATIONAL"]
            [("PARENT", "221"); ("SUBGROUP", "99")]
            ["IRREP"; "DIRECTION"; "BASIS"; "ORIGIN"]).
Proof.
  apply (getPossibleSingleIrrepOPs_requests "221" "99"
           ["ISOTROPY, Version 9"] (READY ++ nl)%string (repeat "*" 10)
           (map line scenario_block) "*" ["*"]).
  - reflexivity.
  - reflexivity.
  - repeat constructor; vm_compute; try reflexivity; discriminate.
  - vm_compute. reflexivity.
  - reflexivity.
  - vm_compute. repeat constructor.
  - vm_compute. repeat constructor.
  - left. vm_compute. reflexivity.
  - vm_compute. reflexivity.
Defined.

Lemma map_fixed {A : Type} (f : A -> A) (l : list A) :
  Forall (fun x => f x = x) l -> map f l = l.
Proof.
  induction 1 as [|x l Hx _ IH]; simpl; [reflexivity|]. now rewrite Hx, IH.
Qed.

(** A restart needs no more of the new engine than its banner and one
    line without a failure signature for each command of the replay. *)
Lemma restart_session_calm (self : session) (h : host)
    (banner : list string) (ready : string) (prompts : list string) :
  mirrors_wf self ->
  benign (hd EmptyString (stdout (iso_process self))) = true ->
  Forall (fun raw => benign raw = true /\ rstrip_newline raw <> READY) banner ->
  rstrip_newline ready = READY ->
  calm (List.length (replay_commands self))
    (mk_process prompts [] false false) ->
  restart_session (banner ++ ready :: prompts) self h
  = Some (Ok tt,
          mk_session
            (fed (replay_commands self) (mk_process prompts [] false false))
            (setting self) (values self) (shows self),
          mk_host (filter (fun name => negb (iso_name name)) (cwd h))
            (reaped h ++ [quit_and_kill (iso_process self)])).
Proof.
  intros (Hku & Hkn & Hsu & Hsn & Hst) Hold Hbanner Hready Hprompts.
  destruct self as [p st vs sh]. simpl in Hku, Hkn, Hsu, Hsn, Hst, Hold.
  assert (map upper_key vs = vs) as Hvs.
  { apply map_fixed. apply Forall_forall. intros [k v] Hin.
    rewrite Forall_forall in Hku. specialize (Hku _ Hin). simpl in Hku.
    unfold upper_key. simpl. now rewrite Hku. }
  assert (map upper sh = sh) as Hsh by now apply map_fixed.
  assert (resolve_setting (SettingList st) = st) as Hrs
    by (destruct st; [contradiction|reflexivity]).
  assert (setup_commands vs sh (SettingList st)
          = replay_commands (mk_session p st vs sh)) as Hcmds.
  { unfold setup_commands, replay_commands. simpl setting.
    cbn [values shows]. now rewrite Hvs, Hsh, Hrs. }
  unfold restart_session.
  destruct (quit_ignoring_broken_pipe p st vs sh Hold) as (p1 & -> & Hkill).
  cbn [iso_process setting values shows].
  unfold __init__, set_process. cbn [snd iso_process setting values shows].
  rewrite (await_banner_found banner ready prompts) by auto.
  cbn [stdin broken killed].
  rewrite configure_calm;
    [|rewrite Hcmds; assumption|reflexivity
     |rewrite Hvs; assumption|rewrite Hsh; assumption].
  rewrite remove_glob_iso, Hkill, Hcmds, Hvs, Hsh, Hrs. reflexivity.
Qed.

Lemma skipn_length_app {A : Type} (l more : list A) :
  skipn (List.length l) (l ++ more) = more.
Proof. induction l as [|x l IH]; simpl; [reflexivity|exact IH]. Qed.

(** X26: the second try of a coupled request.  When the value was set and
    the response to DISPLAY ISOTROPY COUPLED ends in the line by which the
    engine says that it has bombed, the session is restarted: QUIT goes to
    the old engine, which is killed, the [*.iso] files are removed, and the
    new engine gets the whole set-up again, with the value just set, and
    then the same request; what it answers to that is the result of the
    turn. *)
Theorem request_coupled_retries (irrep : string) (isos isos1 : session)
    (h : host) (prompt : string) (body : list string) (bad : string)
    (rest : list string)
    (banner : list string) (ready : string) (acks : list string)
    (prompt' : string) (body' : list string) (last' : string)
    (rest' : list string) :
  mirrors_wf isos ->
  Values.__setitem__ "irrep" irrep isos = (Ok tt, isos1) ->
  stdout (iso_process isos1) = prompt :: body ++ bad :: rest ->
  broken (iso_process isos1) = false ->
  benign prompt = true ->
  Forall (fun line => kept_line line = true) body ->
  signature_of bad = Some IsotropyBombedException ->
  benign (hd EmptyString rest) = true ->
  Forall (fun raw => benign raw = true /\ rstrip_newline raw <> READY) banner ->
  rstrip_newline ready = READY ->
  List.length acks = List.length (replay_commands isos1) ->
  Forall (fun raw => benign raw = true) acks ->
  benign prompt' = true ->
  Forall (fun line => kept_line line = true) body' ->
  (is_prompt (rstrip_newline last') = true \/ signature_of last' <> None) ->
  request_coupled
    (banner ++ ready :: acks ++ prompt' :: body' ++ last' :: rest')
    irrep isos h
  = Some (match signature_of last' with
          | Some e => Raise e
          | None => display_result false (map rstrip_newline body')
          end,
          mk_session
            (mk_process rest'
               (map line (replay_commands isos1 ++ ["DISPLAY ISOTROPY COUPLED"]))
               false false)
            (setting isos1) (values isos1) (shows isos1),
          mk_host (filter (fun name => negb (iso_name name)) (cwd h))
            (reaped h
             ++ [mk_process (tl rest)
                   (stdin (iso_process isos1)
                    ++ map line ["DISPLAY ISOTROPY COUPLED"; "QUIT"])
                   false true])).
Proof.
  intros Hwf Hset Hout Hopen Hprompt Hbody Hbad Hquit Hbanner Hready Hlen
    Hacks Hprompt' Hbody' Hlast'.
  assert (mirrors_wf isos1) as Hwf1.
  { pose proof (Values_setitem_wf "irrep" irrep isos Hwf) as H.
    now rewrite Hset in H. }
  unfold request_coupled. rewrite Hset.
  destruct isos1 as [[out inp br kd] st vs sh].
  cbn [iso_process stdout broken stdin setting values shows] in *.
  subst out br.
  rewrite (getDisplayData_kept "ISOTROPY COUPLED" false prompt body bad rest)
    by (try assumption; right; congruence).
  rewrite Hbad.
  rewrite (restart_session_calm _ h banner ready
             (acks ++ prompt' :: body' ++ last' :: rest'));
    [|exact Hwf1|exact Hquit|exact Hbanner|exact Hready
     |apply calm_prefix; [exact Hacks|unfold replay_commands in *;
                          cbn [setting values shows] in *; lia]].
  unfold fed at 1.
  cbn [stdout stdin broken killed iso_process setting values shows].
  replace (List.length
             (replay_commands
                (mk_session
                   (mk_process rest
                      (inp ++ [(("DISPLAY " ++ "ISOTROPY COUPLED") ++ nl)%string])
                      false kd) st vs sh)))
    with (List.length acks) by (rewrite Hlen; reflexivity).
  rewrite skipn_length_app.
  rewrite (getDisplayData_kept "ISOTROPY COUPLED" false prompt' body' last'
             rest') by assumption.
  unfold quit_and_kill, kill. cbn [broken]. rewrite fed_one.
  cbn [stdout stdin broken killed].
  unfold replay_commands. cbn [setting values shows].
  rewrite <- !app_assoc, !map_app. cbn [map app line].
  rewrite <- !app_assoc. reflexivity.
Qed.

Lemma request_coupled_retries_witness :
  request_coupled
    ([] ++ READY :: repeat "*" 6 ++ "*" :: map line scenario_block
        ++ "*" :: [])
    "GM1+ GM2+"
    (mk_session
       (mk_process ["*"; "*"; " program has bombed"; "*"] [] false false)
       ["INTERNATIONAL"] [("PARENT", "221")] ["IRREP"])
    (mk_host ["a.iso"; "notes.txt"] [])
  = Some (display_result false (map rstrip_newline (map line scenario_block)),
          mk_session
            (mk_process []
               (map line
                  ["SCREEN 999"; "PAGE 999"; "SETTING INTERNATIONAL";
                   "VALUE PARENT 221"; "VALUE IRREP GM1+ GM2+"; "SHOW IRREP";
                   "DISPLAY ISOTROPY COUPLED"])
               false false)
            ["INTERNATIONAL"] [("PARENT", "221"); ("IRREP", "GM1+ GM2+")]
            ["IRREP"],
          mk_host ["notes.txt"]
            [mk_process []
               (map line
                  ["VALUE IRREP GM1+ GM2+"; "DISPLAY ISOTROPY COUPLED"; "QUIT"])
               false true]).
Proof.
  apply (request_coupled_retries "GM1+ GM2+"
           (mk_session
              (mk_process ["*"; "*"; " program has bombed"; "*"] [] false false)
              ["INTERNATIONAL"] [("PARENT", "221")] ["IRREP"])
           (mk_session
              (mk_process ["*"; " program has bombed"; "*"]
                 (map line ["VALUE IRREP GM1+ GM2+"]) false false)
              ["INTERNATIONAL"] [("PARENT", "221"); ("IRREP", "GM1+ GM2+")]
              ["IRREP"])
           (mk_host ["a.iso"; "notes.txt"] [])
           "*" [] " program has bombed" ["*"]
           [] READY (repeat "*" 6) "*" (map line scenario_block) "*" []).
  - unfold mirrors_wf. simpl.
    repeat split; repeat constructor; simpl; intuition discriminate.
  - vm_compute. reflexivity.
  - reflexivity.
  - reflexivity.
  - vm_compute. reflexivity.
  - constructor.
  - vm_compute. reflexivity.
  - vm_compute. reflexivity.
  - constructor.
  - vm_compute. reflexivity.
  - reflexivity.
  - vm_compute. repeat constructor.
  - vm_compute. reflexivity.
  - vm_compute. repeat constructor.
  - left. vm_compute. reflexivity.
Defined.

(** ** Updating the show set *)

Lemma set_mem_app_l (item : string) (s more : list string) :
  Shows.set_mem item s = true -> Shows.set_mem item (s ++ more) = true.
Proof.
  unfold Shows.set_mem. rewrite existsb_app. intros ->. reflexivity.
Qed.

(** What one [add] does to the set and to the commands sent. *)
Lemma Shows_add_grows (item : string) (self : session) :
  (forall k, Shows.set_mem k (shows self) = true ->
             Shows.set_mem k (shows (snd (Shows.add item self))) = true)
  /\ (fst (Shows.add item self) = Ok tt ->
      Shows.set_mem (upper item) (shows (snd (Shows.add item self))) = true)
  /\ List.length (stdin (iso_process (snd (Shows.add item self))))
     <= S (List.length (stdin (iso_process self))).
Proof.
  unfold Shows.add.
  destruct (Shows.set_mem (upper item) (shows self)) eqn:Em; cbn [negb].
  - simpl. repeat split; auto.
  - unfold mbind, set_shows. rewrite sendCommand_cases.
    destruct (signature_of _); [simpl; repeat split; auto; discriminate|].
    destruct (broken (iso_process self));
      [simpl; repeat split; auto; discriminate|].
    rewrite fed_one. unfold with_process.
    cbn [fst snd shows iso_process stdin].
    split; [intros k Hk; now apply set_mem_app_l|].
    split; [intros _; apply set_mem_snoc|].
    rewrite length_app. simpl. lia.
Qed.

(** X27: after a call of [Shows.update] that returned, the set holds every
    name of the iterable beside all it held before, and the engine was sent
    at most one command for each name of the iterable. *)
Theorem Shows_update_holds_all (iterable : list string) :
  forall self self' : session,
  Shows_update iterable self = (Ok tt, self') ->
  (forall item, In item iterable ->
                Shows_contains item self' = (Ok true, self'))
  /\ (forall k, Shows.set_mem k (shows self) = true ->
                Shows.set_mem k (shows self') = true)
  /\ List.length (stdin (iso_process self'))
     <= List.length (stdin (iso_process self)) + List.length iterable.
Proof.
  unfold Shows_update, Shows_contains.
  induction iterable as [|x xs IH]; intros self self' H.
  - injection H as <-. repeat split; [intros item []|auto|simpl; lia].
  - simpl in H. unfold mbind in H.
    destruct (Shows_add_grows x self) as (Hmono & Hnew & Hlen).
    destruct (Shows.add x self) as [[[]|e] s1]; [|discriminate].
    simpl in Hmono, Hnew, Hlen.
    destruct (IH s1 self' H) as (Hall & Hkeep & Hsent).
    split; [|split].
    + intros item [<-|Hin]; [|now apply Hall].
      now rewrite (Hkeep _ (Hnew eq_refl)).
    + intros k Hk. apply Hkeep, Hmono, Hk.
    + simpl. lia.
Qed.

Lemma Shows_update_holds_all_witness :
  (forall item, In item ["irrep"; "Basis"; "IRREP"] ->
     Shows_contains item
       (mk_session
          (mk_process [] (map line ["SHOW IRREP"; "SHOW BASIS"]) false false)
          ["INTERNATIONAL"] [] ["IRREP"; "BASIS"])
     = (Ok true,
        mk_session
          (mk_process [] (map line ["SHOW IRREP"; "SHOW BASIS"]) false false)
          ["INTERNATIONAL"] [] ["IRREP"; "BASIS"]))
  /\ (forall k, Shows.set_mem k (shows (idle_session ["*"; "*"])) = true ->
        Shows.set_mem k ["IRREP"; "BASIS"] = true)
  /\ 2 <= 0 + 3.
Proof.
  apply (Shows_update_holds_all ["irrep"; "Basis"; "IRREP"]
           (idle_session ["*"; "*"])
           (mk_session
              (mk_process [] (map line ["SHOW IRREP"; "SHOW BASIS"])
                 false false)
              ["INTERNATIONAL"] [] ["IRREP"; "BASIS"])).
  vm_compute. reflexivity.
Defined.


(** ** Precedence of the decomposition *)

Lemma ascii_eqb_sym (a b : ascii) : Ascii.eqb a b = Ascii.eqb b a.
Proof.
  destruct (Ascii.eqb_spec a b) as [->|H]; [now rewrite Ascii.eqb_refl|].
  destruct (Ascii.eqb_spec b a) as [->|_]; [now destruct H|reflexivity].
Qed.

Lemma append_nil_r (s : string) : (s ++ "")%string = s.
Proof. induction s as [|c r IH]; simpl; [reflexivity|now rewrite IH]. Qed.

Lemma append_assoc (a b c : string) :
  ((a ++ b) ++ c)%string = (a ++ (b ++ c))%string.
Proof. induction a as [|x a IH]; simpl; [reflexivity|now rewrite IH]. Qed.

Lemma concat_cons2 (sep x y : string) (l : list string) :
  String.concat sep (x :: y :: l)
  = (x ++ sep ++ String.concat sep (y :: l))%string.
Proof. reflexivity. Qed.

Lemma has_char_app (c : ascii) (a b : string) :
  has_char c (a ++ b) = has_char c a || has_char c b.
Proof.
  induction a as [|x a IH]; simpl; [reflexivity|].
  now rewrite IH, orb_assoc.
Qed.

Lemma has_char_concat (c : ascii) (sep : string) (ls : list string) :
  has_char c sep = false ->
  Forall (fun l => has_char c l = false) ls ->
  has_char c (String.concat sep ls) = false.
Proof.
  intros Hsep H. induction H as [|x ls Hx Hls IH]; [reflexivity|].
  destruct ls as [|y ls]; [exact Hx|].
  rewrite concat_cons2, !has_char_app, Hx, Hsep, IH. reflexivity.
Qed.

Lemma has_space_app (a b : string) :
  has_space (a ++ b) = has_space a || has_space b.
Proof.
  induction a as [|x a IH]; simpl; [reflexivity|].
  now rewrite IH, orb_assoc.
Qed.

Lemma starts_word_app (a b : string) :
  starts_word a = true -> starts_word (a ++ b) = true.
Proof. destruct a; [discriminate|auto]. Qed.

Lemma starts_word_concat (sep : string) (ls : list string) :
  ls <> [] -> Forall (fun l => starts_word l = true) ls ->
  starts_word (String.concat sep ls) = true.
Proof.
  intros Hne H. destruct H as [|x ls Hx Hls]; [contradiction|].
  destruct ls as [|y ls]; [exact Hx|].
  rewrite concat_cons2. now apply starts_word_app.
Qed.

Lemma starts_word_lstrip (s : string) : starts_word s = true -> lstrip s = s.
Proof.
  destruct s as [|c r]; [discriminate|]. simpl. intros H.
  apply negb_true_iff in H. now rewrite H.
Qed.

(** What a word is made of. *)
Lemma plain_free (s : string) :
  plain s = true ->
  has_char "|" s = false /\ has_char "," s = false
  /\ has_char "(" s = false /\ has_space s = false.
Proof.
  induction s as [|c r IH]; [auto|].
  cbn [plain has_char has_space]. intros H.
  repeat (apply andb_true_iff in H; destruct H as [H ?]).
  repeat match goal with
         | H : negb _ = true |- _ => apply negb_true_iff in H
         end.
  destruct IH as (I1 & I2 & I3 & I4); [assumption|].
  rewrite I1, I2, I3, I4.
  rewrite (ascii_eqb_sym "|" c), (ascii_eqb_sym "," c), (ascii_eqb_sym "(" c).
  repeat match goal with
         | H : _ = false |- _ => rewrite H
         end.
  auto.
Qed.

Lemma has_space_has_char (s : string) (c : ascii) :
  has_space s = false -> isspace c = true -> has_char c s = false.
Proof.
  intros Hs Hc. induction s as [|x r IH]; [reflexivity|].
  simpl in *. apply orb_false_iff in Hs. destruct Hs as [Hx Hr].
  rewrite (IH Hr), orb_false_r.
  destruct (Ascii.eqb_spec c x) as [->|_]; [congruence|reflexivity].
Qed.

Lemma word_facts (w : string) :
  word w = true ->
  starts_word w = true
  /\ has_space w = false
  /\ has_char "|" w = false /\ has_char "," w = false
  /\ has_char "(" w = false /\ has_char ")" w = false.
Proof.
  unfold word. intros H.
  apply andb_true_iff in H. destruct H as [H Hc].
  apply andb_true_iff in H. destruct H as [Ht Hp].
  apply negb_true_iff in Hc.
  destruct (plain_free w Hp) as (H1 & H2 & H3 & H4).
  repeat split; try assumption.
  destruct w as [|c r]; [discriminate|]. simpl in *.
  apply orb_false_iff in H4. destruct H4 as [H4 _]. now rewrite H4.
Qed.

(** What a run of words is made of. *)
Lemma words_facts (ws : list string) :
  words_ok ws ->
  starts_word (words_text ws) = true
  /\ has_char "|" (words_text ws) = false
  /\ has_char "," (words_text ws) = false
  /\ has_char "(" (words_text ws) = false
  /\ has_char ")" (words_text ws) = false
  /\ has_char newline (words_text ws) = false.
Proof.
  intros [Hne Hw]. unfold words_text.
  assert (forall P : string -> Prop,
            (forall w, word w = true -> P w) -> Forall P ws) as Hall.
  { intros P HP. eapply Forall_impl; [|exact Hw]. exact HP. }
  split; [apply starts_word_concat; [assumption|]; apply Hall;
          intros w Hword; apply (word_facts w Hword)|].
  repeat split; apply has_char_concat; try reflexivity; apply Hall;
    intros w Hword; try apply (word_facts w Hword).
  apply has_space_has_char; [apply (word_facts w Hword)|reflexivity].
Qed.

(** What a tuple is made of. *)
Lemma tuple_facts (t : list (list string)) :
  tuple_ok t ->
  starts_word (tuple_text t) = true
  /\ has_char "|" (tuple_text t) = false
  /\ has_char "(" (tuple_text t) = false
  /\ has_char ")" (tuple_text t) = false
  /\ has_char newline (tuple_text t) = false.
Proof.
  intros [Hne Hw]. unfold tuple_text.
  assert (forall P : string -> Prop,
            (forall ws, words_ok ws -> P (words_text ws)) ->
            Forall P (map words_text t)) as Hall.
  { intros P HP. apply Forall_map. eapply Forall_impl; [|exact Hw]. exact HP. }
  split; [apply starts_word_concat; [now destruct t|]; apply Hall;
          intros ws Hws; apply (words_facts ws Hws)|].
  repeat split; apply has_char_concat; try reflexivity; apply Hall;
    intros ws Hws; apply (words_facts ws Hws).
Qed.

(** *** Whitespace *)

Lemma str_split_word (w rest : string) :
  w <> EmptyString -> has_space w = false -> starts_word rest = false ->
  str_split (w ++ rest) = w :: str_split rest.
Proof.
  induction w as [|c r IH]; [contradiction|]. intros _ Hs Hrest.
  simpl in Hs. apply orb_false_iff in Hs. destruct Hs as [Hc Hr].
  simpl. rewrite Hc. destruct r as [|c' r'].
  - simpl. now rewrite Hrest.
  - rewrite IH by (try assumption; discriminate).
    simpl in Hr. apply orb_false_iff in Hr. destruct Hr as [Hc' _].
    simpl. rewrite Hc'. reflexivity.
Qed.

Lemma str_split_words (ws : list string) :
  Forall (fun w => word w = true) ws ->
  str_split (words_text ws) = ws.
Proof.
  unfold words_text. induction 1 as [|w ws Hw Hws IH]; [reflexivity|].
  destruct (word_facts w Hw) as (Hsw & Hsp & _).
  assert (w <> EmptyString) as Hne by (destruct w; [discriminate|discriminate]).
  destruct ws as [|w2 ws].
  - simpl. rewrite <- (append_nil_r w) at 1.
    now rewrite str_split_word.
  - rewrite concat_cons2, str_split_word by (try assumption; reflexivity).
    f_equal. exact IH.
Qed.

(** *** Bars and commas *)

Lemma push_prepend (c : ascii) (x : string) (ps : list string) :
  push c (prepend x ps) = prepend (String c x) ps.
Proof. destruct ps; reflexivity. Qed.

Lemma push_is_prepend (c : ascii) (ps : list string) :
  ps <> [] -> push c ps = prepend (String c EmptyString) ps.
Proof. destruct ps; [contradiction|reflexivity]. Qed.

Lemma re_split_none (d : ascii) (s : string) :
  has_char d s = false -> re_split_from d false s = [s].
Proof.
  induction s as [|c r IH]; [reflexivity|]. simpl. intros H.
  apply orb_false_iff in H. destruct H as [Hc Hr].
  rewrite (ascii_eqb_sym c d), Hc, (IH Hr). reflexivity.
Qed.

Lemma re_split_last (d : ascii) (p : string) (skip : bool) :
  has_char d p = false -> starts_word p = true ->
  re_split_from d skip p = [p].
Proof.
  destruct p as [|c r]; [discriminate|]. simpl. intros H Hw.
  apply negb_true_iff in Hw. rewrite Hw, andb_false_r.
  apply orb_false_iff in H. destruct H as [Hc Hr].
  rewrite (ascii_eqb_sym c d), Hc. simpl.
  now rewrite (re_split_none d r Hr).
Qed.

Lemma closes_paren_free (s : string) :
  has_char ")" s = false -> closes_paren s = false.
Proof.
  induction s as [|c r IH]; [reflexivity|].
  cbn [closes_paren has_char]. intros H.
  apply orb_false_iff in H. destruct H as [Hc Hr].
  rewrite (ascii_eqb_sym c ")"), Hc.
  destruct (Ascii.eqb c "("); [reflexivity|]. now apply IH.
Qed.

Lemma re_split_piece (d : ascii) (p rest : string) :
  isspace d = false ->
  has_char d p = false -> starts_word p = true ->
  closes_paren (lstrip rest) = false ->
  forall skip,
  re_split_from d skip (p ++ String d rest) = p :: re_split_from d true rest.
Proof.
  intros Hd Hp Hw Hrest.
  assert (forall q, has_char d q = false ->
            re_split_from d false (q ++ String d rest)
            = q :: re_split_from d true rest) as Hgo.
  { induction q as [|c r IH]; simpl; intros Hq.
    - now rewrite Ascii.eqb_refl, Hrest.
    - apply orb_false_iff in Hq. destruct Hq as [Hc Hr].
      rewrite (ascii_eqb_sym c d), Hc, (IH Hr). reflexivity. }
  intros skip. destruct p as [|c r]; [discriminate|]. simpl in *.
  apply negb_true_iff in Hw. rewrite Hw, andb_false_r.
  apply orb_false_iff in Hp. destruct Hp as [Hc Hr].
  rewrite (ascii_eqb_sym c d), Hc. simpl.
  now rewrite (Hgo r Hr).
Qed.

(** Cutting the pieces apart again. *)
Lemma re_split_concat (d : ascii) (ps : list string) :
  isspace d = false ->
  Ascii.eqb ")" d = false ->
  ps <> [] ->
  Forall (fun p => has_char d p = false /\ has_char ")" p = false
                   /\ starts_word p = true) ps ->
  forall skip,
  re_split_from d skip (String.concat (String d EmptyString) ps) = ps.
Proof.
  intros Hd Hclose Hne H. induction H as [|p ps (Hp & Hc & Hw) Hps IH];
    [contradiction|]. intros skip.
  destruct ps as [|q ps]; [now apply re_split_last|].
  rewrite concat_cons2.
  change (String d EmptyString ++ String.concat (String d EmptyString) (q :: ps))%string
    with (String d (String.concat (String d EmptyString) (q :: ps))).
  rewrite re_split_piece; try assumption.
  - now rewrite IH.
  - assert (starts_word (String.concat (String d EmptyString) (q :: ps)) = true)
      as Hsw.
    { apply starts_word_concat; [discriminate|].
      eapply Forall_impl; [|exact Hps]. simpl. tauto. }
    rewrite (starts_word_lstrip _ Hsw). apply closes_paren_free.
    apply has_char_concat.
    + cbn [has_char]. now rewrite Hclose.
    + eapply Forall_impl; [|exact Hps]. simpl. tauto.
Qed.

Lemma paren_match_word (s : string) :
  starts_word s = true -> has_char "(" s = false -> paren_match s = false.
Proof.
  destruct s as [|c r]; [discriminate|]. unfold paren_match.
  cbn [lstrip has_char starts_word].
  intros Hw Hc. apply negb_true_iff in Hw. rewrite Hw.
  apply orb_false_iff in Hc. destruct Hc as [Hc _].
  now rewrite (ascii_eqb_sym c "("), Hc.
Qed.

Lemma mapM_Ok_map_in {A B : Type} (f : A -> outcome B) (g : A -> B)
    (l : list A) :
  Forall (fun x => f x = Ok (g x)) l -> mapM f l = Ok (map g l).
Proof.
  induction 1 as [|x xs Hx _ IH]; simpl; [reflexivity|]. now rewrite Hx, IH.
Qed.

(** *** The three levels *)

Lemma detect_one_word (w : string) :
  word w = true -> detect_data_form_and_convert (Str w) = Ok (Str w).
Proof.
  intros Hw. destruct (word_facts w Hw) as (Hsw & Hsp & Hb & Hc & Ho & _).
  rewrite detect_data_form_and_convert_eq. unfold convert_body, re_split.
  rewrite !re_split_none by assumption. cbn [List.length Nat.ltb Nat.leb].
  rewrite paren_match_word by assumption.
  destruct (no_space_strip w Hsp) as (Hsplit & Hl & Hr).
  rewrite Hsplit. unfold strip. rewrite Hr, Hl.
  destruct w; [discriminate|reflexivity].
Qed.

Lemma detect_words (ws : list string) :
  words_ok ws ->
  detect_data_form_and_convert (Str (words_text ws)) = Ok (words_value ws).
Proof.
  intros Hok. destruct (words_facts ws Hok) as (Hsw & Hb & Hc & Ho & _).
  destruct Hok as [Hne Hw].
  destruct ws as [|w [|w2 ws]]; [contradiction| |].
  - inversion Hw; subst. now apply detect_one_word.
  - rewrite detect_data_form_and_convert_eq. unfold convert_body, re_split.
    rewrite !re_split_none by assumption. cbn [List.length Nat.ltb Nat.leb].
    rewrite paren_match_word by assumption.
    rewrite str_split_words by assumption.
    cbn [List.length Nat.ltb Nat.leb].
    rewrite detect_strs. unfold convert_each.
    rewrite (mapM_Ok_map_in _ Str); [reflexivity|].
    eapply Forall_impl; [|exact Hw]. intros w' Hw'. now apply detect_one_word.
Qed.

Lemma detect_tuple (t : list (list string)) :
  tuple_ok t ->
  detect_data_form_and_convert (Str (tuple_text t)) = Ok (tuple_value t).
Proof.
  intros Hok. destruct (tuple_facts t Hok) as (Hsw & Hb & Ho & _).
  destruct Hok as [Hne Hw].
  destruct t as [|ws [|ws2 t]]; [contradiction| |].
  - inversion Hw; subst. now apply detect_words.
  - rewrite detect_data_form_and_convert_eq. unfold convert_body, re_split.
    rewrite (re_split_none "|") by assumption.
    cbn [List.length Nat.ltb Nat.leb].
    unfold tuple_text.
    rewrite (re_split_concat ",") ; [|reflexivity|reflexivity|discriminate|].
    + rewrite length_map. cbn [List.length Nat.ltb Nat.leb].
      rewrite detect_strs. unfold convert_each.
      rewrite mapM_map, (mapM_Ok_map_in _ words_value); [reflexivity|].
      eapply Forall_impl; [|exact Hw]. intros ws' Hws'.
      now apply detect_words.
    + apply Forall_map. eapply Forall_impl; [|exact Hw]. intros ws' Hws'.
      destruct (words_facts ws' Hws') as (? & ? & ? & ? & ? & ?). auto.
Qed.

Lemma detect_alts (a : list (list (list string))) :
  alts_ok a ->
  detect_data_form_and_convert (Str (alts_text a)) = Ok (alts_value a).
Proof.
  intros [Hne Hw].
  destruct a as [|t [|t2 a]]; [contradiction| |].
  - inversion Hw; subst. now apply detect_tuple.
  - rewrite detect_data_form_and_convert_eq. unfold convert_body, re_split.
    unfold alts_text.
    rewrite (re_split_concat "|") ; [|reflexivity|reflexivity|discriminate|].
    + rewrite length_map. cbn [List.length Nat.ltb Nat.leb].
      rewrite detect_strs. unfold convert_each.
      rewrite mapM_map, (mapM_Ok_map_in _ tuple_value); [reflexivity|].
      eapply Forall_impl; [|exact Hw]. intros t' Ht'.
      now apply detect_tuple.
    + apply Forall_map. eapply Forall_impl; [|exact Hw]. intros t' Ht'.
      destruct (tuple_facts t' Ht') as (? & ? & ? & ? & ?). auto.
Qed.

(** *** Parentheses *)

Lemma closes_paren_inside (x y : string) :
  has_char "(" x = false -> closes_paren (x ++ String ")" y) = true.
Proof.
  induction x as [|c r IH]; [reflexivity|].
  cbn [append closes_paren has_char]. intros H.
  apply orb_false_iff in H. destruct H as [Hc Hr].
  destruct (Ascii.eqb c ")"); [reflexivity|].
  rewrite (ascii_eqb_sym c "("), Hc. now apply IH.
Qed.

Lemma closes_paren_lstrip_inside (x y : string) :
  has_char "(" x = false -> closes_paren (lstrip (x ++ String ")" y)) = true.
Proof.
  induction x as [|c r IH]; [reflexivity|].
  intros H. cbn [append lstrip].
  destruct (isspace c).
  - apply IH. cbn [has_char] in H. apply orb_false_iff in H. tauto.
  - now apply (closes_paren_inside (String c r) y).
Qed.

(** A delimiter between parentheses does not cut. *)
Lemma re_split_inside (d : ascii) (x y : string) :
  Ascii.eqb ")" d = false ->
  has_char "(" x = false ->
  re_split_from d false (x ++ String ")" y)
  = prepend (x ++ ")") (re_split_from d false y).
Proof.
  intros Hclose. induction x as [|c r IH]; intros H.
  - cbn [append re_split_from andb]. rewrite Hclose. cbn [andb].
    apply push_is_prepend, re_split_from_nonempty.
  - cbn [append re_split_from andb].
    cbn [has_char] in H. apply orb_false_iff in H. destruct H as [Hc Hr].
    rewrite (closes_paren_lstrip_inside r y Hr). cbn [negb].
    rewrite andb_false_r, (IH Hr). apply push_prepend.
Qed.

Lemma ends_close_end (x : string) :
  has_char newline x = false -> ends_close (x ++ ")") = true.
Proof.
  induction x as [|c r IH]; [reflexivity|].
  cbn [append ends_close has_char]. intros H.
  apply orb_false_iff in H. destruct H as [Hc Hr].
  rewrite (ascii_eqb_sym c newline), Hc, (IH Hr). apply orb_true_r.
Qed.

Lemma paren_match_wrapped (x : string) :
  has_char newline x = false -> paren_match (String "(" (x ++ ")")) = true.
Proof.
  intros H. unfold paren_match.
  replace (lstrip (String "(" (x ++ ")"))) with (String "(" (x ++ ")"))
    by reflexivity.
  now rewrite Ascii.eqb_refl, ends_close_end.
Qed.

Lemma until_close_inside (x y : string) :
  has_char ")" x = false -> has_char newline x = false ->
  until_close (x ++ String ")" y) = Some x.
Proof.
  induction x as [|c r IH]; [reflexivity|].
  cbn [append until_close has_char]. intros H1 H2.
  apply orb_false_iff in H1. destruct H1 as [Hc1 Hr1].
  apply orb_false_iff in H2. destruct H2 as [Hc2 Hr2].
  rewrite (ascii_eqb_sym c ")"), Hc1, (ascii_eqb_sym c newline), Hc2.
  now rewrite IH.
Qed.

Lemma findall_skip (x : string) (c : ascii) (y : string) :
  findall_from (S (String.length x)) (x ++ String c y) = findall_from 0 y.
Proof. induction x as [|a r IH]; [reflexivity|exact IH]. Qed.

(** A group in parentheses is found, and the search goes on after it. *)
Lemma findall_group (inner y : string) :
  inner <> EmptyString ->
  has_char ")" inner = false -> has_char newline inner = false ->
  findall_from 0 (String "(" (inner ++ String ")" y))
  = inner :: findall_from 0 y.
Proof.
  intros Hne H1 H2. cbn [findall_from]. rewrite Ascii.eqb_refl.
  assert (paren_group (inner ++ String ")" y) = Some inner) as ->.
  { destruct inner as [|c r]; [contradiction|].
    cbn [append paren_group has_char] in *.
    apply orb_false_iff in H1. destruct H1 as [Hc1 Hr1].
    apply orb_false_iff in H2. destruct H2 as [Hc2 Hr2].
    rewrite (ascii_eqb_sym c newline), Hc2.
    now rewrite until_close_inside. }
  now rewrite findall_skip.
Qed.

Lemma group_text_shape (t : list (list string)) (y : string) :
  (group_text t ++ y)%string
  = String "(" (tuple_text t ++ String ")" y).
Proof.
  unfold group_text. cbn [append]. f_equal.
  now rewrite append_assoc.
Qed.

Lemma starts_word_nonempty (s : string) :
  starts_word s = true -> s <> EmptyString.
Proof. destruct s; [discriminate|discriminate]. Qed.

(** What is in parentheses is unwrapped, and then decomposed. *)
Lemma detect_group (t : list (list string)) :
  tuple_ok t ->
  detect_data_form_and_convert (Str (group_text t)) = Ok (tuple_value t).
Proof.
  intros Hok. destruct (tuple_facts t Hok) as (Hsw & Hb & Ho & Hc & Hn).
  rewrite <- (append_nil_r (group_text t)), group_text_shape.
  rewrite detect_data_form_and_convert_eq. unfold convert_body, re_split.
  rewrite (re_split_none "|")
    by (cbn [has_char]; rewrite has_char_app, Hb; reflexivity).
  cbn [List.length Nat.ltb Nat.leb].
  assert (re_split_from "," false (String "(" (tuple_text t ++ ")"))
          = [String "(" ((tuple_text t ++ ")") ++ "")]) as ->.
  { cbn [re_split_from andb].
    replace (Ascii.eqb "(" ",") with false by reflexivity. cbn [andb].
    rewrite re_split_inside by (try reflexivity; assumption).
    reflexivity. }
  cbn [List.length Nat.ltb Nat.leb].
  rewrite paren_match_wrapped by assumption.
  unfold findall_paren.
  rewrite findall_group
    by (try assumption; now apply starts_word_nonempty).
  cbn [findall_from List.length Nat.ltb Nat.leb index nth_error bind].
  now apply detect_tuple.
Qed.

(** Groups with a blank between them. *)
Lemma groups_cons2 (t t2 : list (list string)) (gs : list (list (list string))) :
  String.concat " " (map group_text (t :: t2 :: gs))
  = String "("
      (tuple_text t
       ++ String ")"
            (String " " (String.concat " " (map group_text (t2 :: gs))))).
Proof.
  cbn [map]. rewrite concat_cons2. now rewrite group_text_shape.
Qed.

Lemma groups_one (t : list (list string)) :
  String.concat " " (map group_text [t])
  = String "(" (tuple_text t ++ ")").
Proof.
  cbn [map String.concat].
  now rewrite <- (append_nil_r (group_text t)), group_text_shape.
Qed.

Lemma has_char_groups (c : ascii) (gs : list (list (list string))) :
  Ascii.eqb c "(" = false -> Ascii.eqb c ")" = false ->
  Ascii.eqb c " " = false ->
  Forall (fun t => has_char c (tuple_text t) = false) gs ->
  has_char c (String.concat " " (map group_text gs)) = false.
Proof.
  intros H1 H2 H3 H. apply has_char_concat.
  - cbn [has_char]. now rewrite H3.
  - apply Forall_map. eapply Forall_impl; [|exact H]. intros t Ht.
    unfold group_text. cbn [append has_char].
    rewrite H1, has_char_app, Ht. cbn [has_char]. now rewrite H2.
Qed.

Lemma re_split_groups (d : ascii) (gs : list (list (list string))) :
  Ascii.eqb "(" d = false -> Ascii.eqb ")" d = false ->
  Ascii.eqb " " d = false ->
  Forall tuple_ok gs ->
  re_split_from d false (String.concat " " (map group_text gs))
  = [String.concat " " (map group_text gs)].
Proof.
  intros H1 H2 H3 H. induction H as [|t gs Ht Hgs IH]; [reflexivity|].
  destruct (tuple_facts t Ht) as (_ & _ & Ho & _).
  destruct gs as [|t2 gs].
  - rewrite groups_one. cbn [re_split_from andb]. rewrite H1. cbn [andb].
    rewrite re_split_inside by assumption.
    cbn [re_split_from prepend push]. now rewrite append_nil_r.
  - rewrite groups_cons2. cbn [re_split_from andb]. rewrite H1. cbn [andb].
    rewrite re_split_inside by assumption.
    cbn [re_split_from andb]. rewrite H3. cbn [andb]. rewrite IH.
    cbn [push prepend]. now rewrite append_assoc.
Qed.

Lemma groups_shape (gs : list (list (list string))) :
  gs <> [] -> Forall tuple_ok gs ->
  exists z,
    String.concat " " (map group_text gs) = String "(" (z ++ ")")
    /\ has_char newline z = false.
Proof.
  intros Hne H. induction H as [|t gs Ht Hgs IH]; [contradiction|].
  destruct (tuple_facts t Ht) as (_ & _ & _ & _ & Hn).
  destruct gs as [|t2 gs].
  - exists (tuple_text t). now rewrite groups_one.
  - destruct IH as (z & Hz & Hzn); [discriminate|].
    exists (tuple_text t ++ String ")" (String " " (String "(" z)))%string.
    rewrite groups_cons2, Hz. split.
    + f_equal. now rewrite append_assoc.
    + rewrite has_char_app, Hn. cbn [has_char]. now rewrite Hzn.
Qed.

Lemma findall_groups (gs : list (list (list string))) :
  Forall tuple_ok gs ->
  findall_from 0 (String.concat " " (map group_text gs))
  = map tuple_text gs.
Proof.
  intros H. induction H as [|t gs Ht Hgs IH]; [reflexivity|].
  destruct (tuple_facts t Ht) as (Hsw & _ & _ & Hc & Hn).
  apply starts_word_nonempty in Hsw.
  destruct gs as [|t2 gs].
  - rewrite groups_one. now rewrite findall_group.
  - rewrite groups_cons2, findall_group by assumption.
    cbn [map]. f_equal. exact IH.
Qed.

(** Several groups are a list, one value for each: the parentheses are
    seen before the blanks between them, and they keep the commas in them
    from cutting the whole text. *)
Lemma detect_groups (gs : list (list (list string))) :
  2 <= List.length gs -> Forall tuple_ok gs ->
  detect_data_form_and_convert
    (Str (String.concat " " (map group_text gs)))
  = Ok (List (map tuple_value gs)).
Proof.
  intros Hlen Hok.
  assert (gs <> []) as Hne by (destruct gs; [simpl in Hlen; lia|discriminate]).
  rewrite detect_data_form_and_convert_eq. unfold convert_body, re_split.
  rewrite (re_split_none "|").
  2:{ apply has_char_groups; try reflexivity.
      eapply Forall_impl; [|exact Hok]. intros t Ht.
      apply (tuple_facts t Ht). }
  cbn [List.length Nat.ltb Nat.leb].
  rewrite re_split_groups by (try reflexivity; assumption).
  cbn [List.length Nat.ltb Nat.leb].
  destruct (groups_shape gs Hne Hok) as (z & Hz & Hzn).
  rewrite Hz at 1. rewrite paren_match_wrapped by assumption.
  unfold findall_paren. rewrite findall_groups by assumption.
  rewrite length_map.
  assert (exists t1 t2 more, gs = t1 :: t2 :: more) as (t1 & t2 & more & E)
    by (destruct gs as [|t1 [|t2 more]]; simpl in Hlen; try lia; eauto).
  rewrite E at 1. cbn [List.length Nat.ltb Nat.leb].
  rewrite detect_strs. unfold convert_each.
  rewrite mapM_map, (mapM_Ok_map_in _ tuple_value); [reflexivity|].
  eapply Forall_impl; [|exact Hok]. intros t Ht. now apply detect_tuple.
Qed.

(** C3: on a string, the decomposition tries the bar first, then the
    comma, then the parentheses, then whitespace, and stops at the first
    that applies.  So words with blanks between them, such runs with
    commas between them and such tuples with bars between them decompose
    into lists nested in that order, a level of one element standing for
    that element; a tuple in parentheses decomposes as the tuple, its
    commas not cutting the text around it; and several such groups with
    blanks between them decompose into the list of their tuples, the
    parentheses being seen before the blanks.  ["A | B,C"],
    ["(1,2) (3,4)"] and ["alone"] give what the spec says; a text that
    only starts with a parenthesis is cut at its blanks. *)
Theorem decomposition_precedence :
  (forall s,
     detect_data_form_and_convert (Str s)
     = if 1 <? List.length (re_split "|" s) then convert_each (re_split "|" s)
       else if 1 <? List.length (re_split "," s)
       then convert_each (re_split "," s)
       else if paren_match s then
         if 1 <? List.length (findall_paren s)
         then convert_each (findall_paren s)
         else (g <- index (findall_paren s) 0 ;;
               detect_data_form_and_convert (Str g))
       else if 1 <? List.length (str_split s) then convert_each (str_split s)
       else Ok (Str (strip s)))
  /\ (forall a, alts_ok a ->
        detect_data_form_and_convert (Str (alts_text a)) = Ok (alts_value a))
  /\ (forall t, tuple_ok t ->
        detect_data_form_and_convert (Str (group_text t))
        = Ok (tuple_value t))
  /\ (forall gs, 2 <= List.length gs -> Forall tuple_ok gs ->
        detect_data_form_and_convert
          (Str (String.concat " " (map group_text gs)))
        = Ok (List (map tuple_value gs)))
  /\ detect_data_form_and_convert (Str "A | B,C")
     = Ok (List [Str "A"; List [Str "B"; Str "C"]])
  /\ detect_data_form_and_convert (Str "(1,2) (3,4)")
     = Ok (List [List [Str "1"; Str "2"]; List [Str "3"; Str "4"]])
  /\ detect_data_form_and_convert (Str "alone") = Ok (Str "alone")
  /\ detect_data_form_and_convert (Str "1 0  0")
     = Ok (List [Str "1"; Str "0"; Str "0"])
  /\ detect_data_form_and_convert (Str "(a b")
     = Ok (List [Str "(a"; Str "b"])
  /\ detect_data_form_and_convert (Str "a,b c|d")
     = Ok (List [List [Str "a"; List [Str "b"; Str "c"]]; Str "d"])
  /\ detect_data_form_and_convert (Str "(1 2) (3 4)")
     = Ok (List [List [Str "1"; Str "2"]; List [Str "3"; Str "4"]]).
Proof.
  split.
  { intros s. rewrite detect_data_form_and_convert_eq at 1.
    unfold convert_body. rewrite !detect_strs. reflexivity. }
  split; [exact detect_alts|].
  split; [exact detect_group|].
  split; [exact detect_groups|].
  repeat split; vm_compute; reflexivity.
Qed.

Lemma decomposition_precedence_witness :
  detect_data_form_and_convert (Str "x,0,0|x y,0")
  = Ok (List [List [Str "x"; Str "0"; Str "0"];
              List [List [Str "x"; Str "y"]; Str "0"]])
  /\ detect_data_form_and_convert (Str "(1/2,0 1)")
     = Ok (List [Str "1/2"; List [Str "0"; Str "1"]])
  /\ detect_data_form_and_convert (Str "(a,b) (c) (d e)")
     = Ok (List [List [Str "a"; Str "b"]; Str "c";
                 List [Str "d"; Str "e"]]).
Proof.
  destruct decomposition_precedence as (_ & Halts & Hgroup & Hgroups & _).
  split; [|split].
  - apply (Halts [[["x"]; ["0"]; ["0"]]; [["x"; "y"]; ["0"]]]).
    repeat constructor; discriminate.
  - apply (Hgroup [["1/2"]; ["0"; "1"]]).
    repeat constructor; discriminate.
  - apply (Hgroups [[["a"]; ["b"]]; [["c"]]; [["d"; "e"]]]).
    + simpl. lia.
    + repeat constructor; discriminate.
Defined.
